(** * chirouter: the frame classifier of [router.c], embedded in Rocq

    The development follows [router.c].  Frames are byte buffers
    living in a heap of allocated blocks; the C code overlays packed
    structs on those buffers, which is modelled here by reads and writes
    at the structs' byte offsets.  An access outside a buffer, a
    dereference of a null pointer and a variable-length array of
    non-positive size are undefined behaviour in C: the model has no
    result ([None]) there. *)

From stdpp Require Import base numbers option list gmap strings.

Local Open Scope Z_scope.

(** ** Byte buffers *)

(** A byte buffer; every element is meant to be in [0, 256). *)
Abbreviation bytes := (list Z).

(** The length of a buffer, as a C integer. *)
Definition blen (b : bytes) : Z := Z.of_nat (length b).

(** [peek b off n] reads the [n] bytes of [b] starting [off] bytes in. *)
Definition peek (b : bytes) (off n : Z) : option bytes :=
  if decide (0 ≤ off ∧ 0 ≤ n ∧ off + n ≤ blen b)
  then Some (take (Z.to_nat n) (drop (Z.to_nat off) b))
  else None.

(** [poke b off vs] overwrites [b] with [vs] starting [off] bytes in. *)
Definition poke (b : bytes) (off : Z) (vs : bytes) : option bytes :=
  if decide (0 ≤ off ∧ off + blen vs ≤ blen b)
  then Some (take (Z.to_nat off) b ++ vs ++ drop (Z.to_nat (off + blen vs)) b)
  else None.

(** [uint8_t buf[n]; memset(buf, 0, n)]: the array size must be positive. *)
Definition zeros (n : Z) : option bytes :=
  if decide (0 < n) then Some (replicate (Z.to_nat n) 0) else None.

(** A 16-bit field in network byte order: [be16 v] are the bytes that
    [field = htons(v)] stores, [of_be16] is [ntohs(field)]. *)
Definition be16 (v : Z) : bytes := [(v `div` 256) `mod` 256; v `mod` 256].

(** [ntohs] of the 16-bit field whose bytes are [bs]. *)
Definition of_be16 (bs : bytes) : Z :=
  match bs with
  | [hi; lo] => hi * 256 + lo
  | _ => 0
  end.

(** A [uint32_t] as the host stores and loads it.  Addresses are kept in
    network byte order in memory and are only compared, masked and copied
    as [uint32_t] values; the host is taken little-endian. *)
Definition u32 (v : Z) : bytes :=
  [v `mod` 256; (v `div` 256) `mod` 256; (v `div` 65536) `mod` 256;
   (v `div` 16777216) `mod` 256].

(** The [uint32_t] whose bytes in memory are [bs]. *)
Definition of_u32 (bs : bytes) : Z :=
  match bs with
  | [b0; b1; b2; b3] => b0 + 256 * b1 + 65536 * b2 + 16777216 * b3
  | _ => 0
  end.

(** Loads of a [uint8_t], of [ntohs] of a [uint16_t], and of a
    [uint32_t] at [off]. *)
Definition get8 (b : bytes) (off : Z) : option Z :=
  vs ← peek b off 1; head vs.

(** See [get8]. *)
Definition get16 (b : bytes) (off : Z) : option Z :=
  of_be16 <$> peek b off 2.

(** See [get8]. *)
Definition get32 (b : bytes) (off : Z) : option Z :=
  of_u32 <$> peek b off 4.

(** [memcpy(dst + doff, src + soff, n)] *)
Definition memcpy (dst : bytes) (doff : Z) (src : bytes) (soff n : Z)
  : option bytes :=
  vs ← peek src soff n; poke dst doff vs.

(** A 4-bit bit-field of the byte at [off]: high or low half. *)
Definition poke_hi4 (b : bytes) (off v : Z) : option bytes :=
  old ← get8 b off; poke b off [Z.lor (Z.land old 15) (Z.shiftl (Z.land v 15) 4)].

(** See [poke_hi4]. *)
Definition poke_lo4 (b : bytes) (off v : Z) : option bytes :=
  old ← get8 b off; poke b off [Z.lor (Z.land old 240) (Z.land v 15)].

Global Arguments peek : simpl never.
Global Arguments poke : simpl never.
Global Arguments zeros : simpl never.
Global Arguments be16 : simpl never.
Global Arguments of_be16 : simpl never.
Global Arguments u32 : simpl never.
Global Arguments of_u32 : simpl never.

(** ** Protocol constants

    The header chirouter.h, with the constants and the packed header
    structs, is not among the sources: the values below are the ones the
    spec names (ethertypes 0x0800 and 0x0806, ICMP types 0, 3, 8, 11 and
    codes 0 to 3, ARP for Ethernet and IPv4) and the standard protocol
    numbers, and the layouts are the standard ones that section 4.1 of
    the spec describes. *)

(** Modelled from the spec: the ethertypes of chirouter.h. *)
Definition ETHERTYPE_IP : Z := 0x0800.
(** Modelled from the spec: see [ETHERTYPE_IP]. *)
Definition ETHERTYPE_ARP : Z := 0x0806.
(** Modelled from the spec: see [ETHERTYPE_IP]; the standard value. *)
Definition ETHERTYPE_IPV6 : Z := 0x86DD.
(** Modelled from the spec: the length of a MAC address (6 bytes). *)
Definition ETHER_ADDR_LEN : Z := 6.
(** Modelled from the spec: the IP protocol numbers of chirouter.h. *)
Definition IPPROTO_ICMP : Z := 1.
(** Modelled from the spec: see [IPPROTO_ICMP]; the standard value. *)
Definition IPPROTO_TCP : Z := 6.
(** Modelled from the spec: see [IPPROTO_ICMP]; the standard value. *)
Definition IPPROTO_UDP : Z := 17.
(** Modelled from the spec: the ICMP types of chirouter.h (0, 3, 8, 11). *)
Definition ICMPTYPE_ECHO_REPLY : Z := 0.
(** Modelled from the spec: see [ICMPTYPE_ECHO_REPLY]. *)
Definition ICMPTYPE_DEST_UNREACHABLE : Z := 3.
(** Modelled from the spec: see [ICMPTYPE_ECHO_REPLY]. *)
Definition ICMPTYPE_ECHO_REQUEST : Z := 8.
(** Modelled from the spec: see [ICMPTYPE_ECHO_REPLY]. *)
Definition ICMPTYPE_TIME_EXCEEDED : Z := 11.
(** Modelled from the spec: the codes of ICMP type 3 in chirouter.h
    (0 to 3). *)
Definition ICMPCODE_DEST_NET_UNREACHABLE : Z := 0.
(** Modelled from the spec: see [ICMPCODE_DEST_NET_UNREACHABLE]. *)
Definition ICMPCODE_DEST_HOST_UNREACHABLE : Z := 1.
(** Modelled from the spec: see [ICMPCODE_DEST_NET_UNREACHABLE]. *)
Definition ICMPCODE_DEST_PROTOCOL_UNREACHABLE : Z := 2.
(** Modelled from the spec: see [ICMPCODE_DEST_NET_UNREACHABLE]. *)
Definition ICMPCODE_DEST_PORT_UNREACHABLE : Z := 3.
(** Modelled from the spec: the size of the ICMP header (type, code,
    checksum and four more bytes). *)
Definition ICMP_HDR_SIZE : Z := 8.
(** Modelled from the spec: the ARP operations of chirouter.h. *)
Definition ARP_OP_REQUEST : Z := 1.
(** Modelled from the spec: see [ARP_OP_REQUEST]. *)
Definition ARP_OP_REPLY : Z := 2.
(** Modelled from the spec: [sizeof(ethhdr_t)], the 14-byte Ethernet
    header. *)
Definition sizeof_ethhdr_t : Z := 14.
(** Modelled from the spec: [sizeof(iphdr_t)], the 20-byte IPv4 header. *)
Definition sizeof_iphdr_t : Z := 20.

(** The byte offsets of the header fields inside a frame.  The Ethernet
    header starts the frame; router.c places the IPv4 header and the ARP
    packet at [sizeof(ethhdr_t)] and the ICMP packet at
    [sizeof(ethhdr_t) + sizeof(iphdr_t)]. *)

(** Modelled from the spec: offset of [ethhdr_t.dst]. *)
Definition off_eth_dst : Z := 0.
(** Modelled from the spec: offset of [ethhdr_t.src]. *)
Definition off_eth_src : Z := 6.
(** Modelled from the spec: offset of [ethhdr_t.type]. *)
Definition off_eth_type : Z := 12.
(** Modelled from the spec: offset of the byte of [iphdr_t] with [version]
    and [ihl]. *)
Definition off_ip_vhl : Z := 14.
(** Modelled from the spec: offset of [iphdr_t.tos]. *)
Definition off_ip_tos : Z := 15.
(** Modelled from the spec: offset of [iphdr_t.len]. *)
Definition off_ip_len : Z := 16.
(** Modelled from the spec: offset of [iphdr_t.id]. *)
Definition off_ip_id : Z := 18.
(** Modelled from the spec: offset of [iphdr_t.off]. *)
Definition off_ip_off : Z := 20.
(** Modelled from the spec: offset of [iphdr_t.ttl]. *)
Definition off_ip_ttl : Z := 22.
(** Modelled from the spec: offset of [iphdr_t.proto]. *)
Definition off_ip_proto : Z := 23.
(** Modelled from the spec: offset of [iphdr_t.cksum]. *)
Definition off_ip_cksum : Z := 24.
(** Modelled from the spec: offset of [iphdr_t.src]. *)
Definition off_ip_src : Z := 26.
(** Modelled from the spec: offset of [iphdr_t.dst]. *)
Definition off_ip_dst : Z := 30.
(** Modelled from the spec: offset of [icmp_packet_t.type]. *)
Definition off_icmp_type : Z := 34.
(** Modelled from the spec: offset of [icmp_packet_t.code]. *)
Definition off_icmp_code : Z := 35.
(** Modelled from the spec: offset of [icmp_packet_t.chksum]. *)
Definition off_icmp_chksum : Z := 36.
(** Modelled from the spec: offset of [icmp_packet_t.echo.identifier]. *)
Definition off_icmp_identifier : Z := 38.
(** Modelled from the spec: offset of [icmp_packet_t.echo.seq_num]. *)
Definition off_icmp_seq_num : Z := 40.
(** Modelled from the spec: offset of [echo.payload],
    [dest_unreachable.payload] and [time_exceeded.payload]. *)
Definition off_icmp_payload : Z := 42.
(** Modelled from the spec: offset of [arp_packet_t.hrd]. *)
Definition off_arp_hrd : Z := 14.
(** Modelled from the spec: offset of [arp_packet_t.pro]. *)
Definition off_arp_pro : Z := 16.
(** Modelled from the spec: offset of [arp_packet_t.hln]. *)
Definition off_arp_hln : Z := 18.
(** Modelled from the spec: offset of [arp_packet_t.pln]. *)
Definition off_arp_pln : Z := 19.
(** Modelled from the spec: offset of [arp_packet_t.op]. *)
Definition off_arp_op : Z := 20.
(** Modelled from the spec: offset of [arp_packet_t.sha]. *)
Definition off_arp_sha : Z := 22.
(** Modelled from the spec: offset of [arp_packet_t.spa]. *)
Definition off_arp_spa : Z := 28.
(** Modelled from the spec: offset of [arp_packet_t.tha]. *)
Definition off_arp_tha : Z := 32.
(** Modelled from the spec: offset of [arp_packet_t.tpa]. *)
Definition off_arp_tpa : Z := 38.

(** Modelled from the spec: the sum of the 16-bit big-endian words of
    [data], an odd last byte padded with a zero (part of [cksum]). *)
Fixpoint sum16 (data : bytes) : Z :=
  match data with
  | hi :: lo :: rest => hi * 256 + lo + sum16 rest
  | [hi] => hi * 256
  | [] => 0
  end.

(** Modelled from the spec: the carry out of 16 bits added back in (part
    of [cksum]). *)
Definition end_around (s : Z) : Z := s `div` 65536 + s `mod` 65536.

(** Modelled from the spec: [cksum] of utils is not among the sources.
    It is the Internet checksum of section 4.1: the complement of the
    one's-complement sum of the 16-bit big-endian words.  The value is
    the one whose big-endian bytes go on the wire. *)
Definition cksum (data : bytes) : Z :=
  65535 - end_around (end_around (sum16 data)).

(** ** The router's data

    The types of chirouter.h with the fields that router.c uses.  A
    pointer to an interface is the interface itself, a pointer to a
    routing entry or to a pending request is its position in its table. *)

(** Modelled from the spec: an interface is a name, a MAC address and an
    IPv4 address. *)
Record chirouter_interface_t := {
  name : string;
  mac : bytes;          (* uint8_t mac[ETHER_ADDR_LEN] *)
  ip : Z                (* struct in_addr, as in_addr_to_uint32 gives it *)
}.

(** Modelled from the spec: a routing table entry is a destination
    network, a mask, a gateway (0: directly connected) and the egress
    interface. *)
Record chirouter_rtable_entry_t := {
  dest : Z;
  mask : Z;
  gw : Z;
  interface : chirouter_interface_t
}.

(** Address of an allocated byte buffer. *)
Definition addr := positive.

(** Modelled from the spec: a frame is a raw byte buffer, its length and
    the interface it arrived on. *)
Record ethernet_frame_t := {
  raw : addr;                        (* uint8_t *raw *)
  frame_length : Z;                  (* size_t length *)
  in_interface : chirouter_interface_t
}.

(** Modelled from the spec: an ARP cache entry is an IPv4 address, a MAC
    address and the time of insertion. *)
Record chirouter_arpcache_entry_t := {
  arp_ip : Z;
  arp_mac : bytes;
  time_added : Z
}.

(** Modelled from the spec: a pending ARP request is the target IPv4
    address, the number of requests sent, the time of the last one, the
    egress interface and the list of withheld frames. *)
Record chirouter_pending_arp_req_t := {
  req_ip : Z;
  times_sent : Z;
  last_sent : Z;
  out_interface : chirouter_interface_t;
  withheld_frames : list ethernet_frame_t
}.

(** Modelled from the spec: the router context holds the interfaces, the
    routing table, the ARP cache and the list of pending requests (the
    mutex that guards the last two is left out: calls are sequential). *)
Record chirouter_ctx_t := {
  interfaces : list chirouter_interface_t;
  routing_table : list chirouter_rtable_entry_t;
  arpcache : list chirouter_arpcache_entry_t;
  pending_arp_reqs : list chirouter_pending_arp_req_t
}.

(** What a call can observe and change: the router context, the heap of
    frame buffers, and the frames handed to [chirouter_send_frame] so far
    (oldest first), each with the interface it was sent on. *)
Record world := {
  ctx : chirouter_ctx_t;
  heap : gmap addr bytes;
  wire : list (chirouter_interface_t * bytes)
}.

(** What the environment decides during one call: the clock, and whether
    the two allocations that the spec allows to fail do fail. *)
Record env := {
  now : Z;                   (* time(NULL) *)
  frame_copy_fails : bool;   (* no memory for the copy of a withheld frame *)
  cache_grow_fails : bool    (* no room for one more ARP cache entry *)
}.

(** Updates of one field of the context and of the world. *)
Definition set_arpcache (c : chirouter_ctx_t)
    (ac : list chirouter_arpcache_entry_t) : chirouter_ctx_t :=
  {| interfaces := interfaces c; routing_table := routing_table c;
     arpcache := ac; pending_arp_reqs := pending_arp_reqs c |}.

(** See [set_arpcache]. *)
Definition set_pending (c : chirouter_ctx_t)
    (p : list chirouter_pending_arp_req_t) : chirouter_ctx_t :=
  {| interfaces := interfaces c; routing_table := routing_table c;
     arpcache := arpcache c; pending_arp_reqs := p |}.

(** See [set_arpcache]. *)
Definition set_ctx (w : world) (c : chirouter_ctx_t) : world :=
  {| ctx := c; heap := heap w; wire := wire w |}.

(** See [set_arpcache]. *)
Definition set_heap (w : world) (h : gmap addr bytes) : world :=
  {| ctx := ctx w; heap := h; wire := wire w |}.

(** The world after [msg] was sent on the interface [i]. *)
Definition emit (w : world) (i : chirouter_interface_t) (msg : bytes) : world :=
  {| ctx := ctx w; heap := heap w; wire := wire w ++ [(i, msg)] |}.

(** ** Computations

    [M A]: a computation on the world that yields an [A], or has no
    defined result. *)
Definition M (A : Type) : Type := world → option (A * world).

(** The result [a], the world as it is. *)
Definition ret {A} (a : A) : M A := λ w, Some (a, w).

(** [m], then [k] on its result. *)
Definition bind {A B} (m : M A) (k : A → M B) : M B :=
  λ w, match m w with
       | Some (a, w') => k a w'
       | None => None
       end.

(** A buffer operation: no defined result where it has none. *)
Definition lift {A} (o : option A) : M A :=
  λ w, match o with
       | Some a => Some (a, w)
       | None => None
       end.

Notation "'let!' x := m 'in' k" := (bind m (λ x, k))
  (at level 10, x name, m at level 100, k at level 200).
Notation "m ;; k" := (bind m (λ _, k))
  (at level 100, k at level 200, right associativity).

(** How a statement ends: control goes on to the next statement, or a
    [return v] was executed. *)
Inductive completion :=
  | Normal
  | Return (v : Z).

(** A call of a [void] function as a statement. *)
Definition exec (m : M unit) : M completion := m ;; ret Normal.

(** [s1; s2]: [s2] runs unless [s1] returned. *)
Definition seq_stmt (s1 s2 : M completion) : M completion :=
  let! c := s1 in
  match c with
  | Normal => s2
  | Return v => ret (Return v)
  end.

(** [DL_FOREACH(head, elt) body] over a list that the body leaves alone. *)
Fixpoint foreach {A} (l : list A) (body : A → M unit) : M unit :=
  match l with
  | [] => ret tt
  | elt :: rest => body elt ;; foreach rest body
  end.

(** Reading the buffer of a frame: [frame->raw + off]. *)
Definition frame_peek (frame : ethernet_frame_t) (off n : Z) : M bytes :=
  λ w, buf ← heap w !! raw frame; vs ← peek buf off n; Some (vs, w).

(** See [frame_peek]. *)
Definition frame_get8 (frame : ethernet_frame_t) (off : Z) : M Z :=
  λ w, buf ← heap w !! raw frame; v ← get8 buf off; Some (v, w).

(** See [frame_peek]. *)
Definition frame_get16 (frame : ethernet_frame_t) (off : Z) : M Z :=
  λ w, buf ← heap w !! raw frame; v ← get16 buf off; Some (v, w).

(** See [frame_peek]. *)
Definition frame_get32 (frame : ethernet_frame_t) (off : Z) : M Z :=
  λ w, buf ← heap w !! raw frame; v ← get32 buf off; Some (v, w).

(** Modelled from the spec: [chirouter_send_frame] belongs to the I/O
    layer, which is not among the sources.  Sending is recording the
    [len] bytes of [msg] with the interface they go out on. *)
Definition chirouter_send_frame (iface : chirouter_interface_t)
    (msg : bytes) (len : Z) : M unit :=
  let! out := lift (peek msg 0 len) in
  λ w, Some (tt, emit w iface out).

(** ** The ARP module

    The ARP cache and the list of pending requests (arp.h, arp.c) are not
    among the sources; the definitions of this section follow sections 3,
    4.3, 4.4 and 7 of the spec. *)

(** Modelled from the spec: [lookup(ip)] of the ARP cache, the first
    cache entry for [ip]. *)
Definition chirouter_arp_cache_lookup (ip_addr : Z)
  : M (option chirouter_arpcache_entry_t) :=
  λ w, Some (snd <$> list_find (λ a, arp_ip a = ip_addr) (arpcache (ctx w)), w).

(** Modelled from the spec: [add(ip, mac)] of the ARP cache inserts or
    refreshes the entry and stamps the time; when the cache has to grow
    and cannot, nothing changes and the result is 1. *)
Definition chirouter_arp_cache_add (e : env) (ip_addr : Z) (mac_addr : bytes)
  : M Z :=
  λ w,
    let fresh_entry :=
      {| arp_ip := ip_addr; arp_mac := mac_addr; time_added := now e |} in
    match list_find (λ a, arp_ip a = ip_addr) (arpcache (ctx w)) with
    | Some (i, _) =>
        Some (0, set_ctx w (set_arpcache (ctx w)
                              (<[i := fresh_entry]> (arpcache (ctx w)))))
    | None =>
        if cache_grow_fails e then Some (1, w)
        else Some (0, set_ctx w (set_arpcache (ctx w)
                                   (arpcache (ctx w) ++ [fresh_entry])))
    end.

(** Modelled from the spec: [lookup(ip)] of the pending-request table,
    the first pending request for [ip]. *)
Definition chirouter_arp_pending_req_lookup (ip_addr : Z) : M (option nat) :=
  λ w, Some (fst <$> list_find (λ r, req_ip r = ip_addr)
                       (pending_arp_reqs (ctx w)), w).

(** Modelled from the spec: [create(ip, iface)] of the pending-request
    table appends a new entry with [times_sent = 0] and [last_sent = 0]. *)
Definition chirouter_arp_pending_req_add (ip_addr : Z)
    (iface : chirouter_interface_t) : M nat :=
  λ w,
    let r := {| req_ip := ip_addr; times_sent := 0; last_sent := 0;
                out_interface := iface; withheld_frames := [] |} in
    Some (length (pending_arp_reqs (ctx w)),
          set_ctx w (set_pending (ctx w) (pending_arp_reqs (ctx w) ++ [r]))).

(** [pending_req->field], read and written through the pointer. *)
Definition pending_req_get (pending_req : nat)
  : M chirouter_pending_arp_req_t :=
  λ w, r ← pending_arp_reqs (ctx w) !! pending_req; Some (r, w).

(** See [pending_req_get]. *)
Definition pending_req_set (pending_req : nat)
    (f : chirouter_pending_arp_req_t → chirouter_pending_arp_req_t) : M unit :=
  λ w, r ← pending_arp_reqs (ctx w) !! pending_req;
       Some (tt, set_ctx w (set_pending (ctx w)
                              (<[pending_req := f r]> (pending_arp_reqs (ctx w))))).

(** [pending_req->times_sent++] *)
Definition incr_times_sent (r : chirouter_pending_arp_req_t)
  : chirouter_pending_arp_req_t :=
  {| req_ip := req_ip r; times_sent := times_sent r + 1;
     last_sent := last_sent r; out_interface := out_interface r;
     withheld_frames := withheld_frames r |}.

(** [pending_req->last_sent = t] *)
Definition set_last_sent (t : Z) (r : chirouter_pending_arp_req_t)
  : chirouter_pending_arp_req_t :=
  {| req_ip := req_ip r; times_sent := times_sent r;
     last_sent := t; out_interface := out_interface r;
     withheld_frames := withheld_frames r |}.

(** The request with [fs] as its withheld frames. *)
Definition set_withheld (fs : list ethernet_frame_t)
    (r : chirouter_pending_arp_req_t) : chirouter_pending_arp_req_t :=
  {| req_ip := req_ip r; times_sent := times_sent r;
     last_sent := last_sent r; out_interface := out_interface r;
     withheld_frames := fs |}.

(** Modelled from the spec: [attach_frame(entry, frame)] takes a deep
    copy of [frame] (a newly allocated buffer with the [frame->length]
    bytes of the frame, the same length and ingress interface) and
    appends it to the entry's withheld list; the result is 1 when the
    copy cannot be allocated, which is the only error. *)
Definition chirouter_arp_pending_req_add_frame (e : env) (pending_req : nat)
    (frame : ethernet_frame_t) : M Z :=
  if frame_copy_fails e then ret 1
  else
    let! copy := frame_peek frame 0 (frame_length frame) in
    let! r := pending_req_get pending_req in
    λ w,
      let a := fresh (dom (heap w)) in
      let withheld := {| raw := a; frame_length := frame_length frame;
                         in_interface := in_interface frame |} in
      let w1 := set_heap w (<[a := copy]> (heap w)) in
      pending_req_set pending_req
        (set_withheld (withheld_frames r ++ [withheld])) w1
      ≫= λ '(_, w2), Some (0, w2).

(** Modelled from the spec: the part of [remove(entry)] that frees all
    withheld frames of the entry. *)
Definition chirouter_arp_pending_req_free_frames (pending_req : nat) : M Z :=
  let! r := pending_req_get pending_req in
  (λ w, Some (tt, set_heap w (foldr (λ f h, delete (raw f) h) (heap w)
                                (withheld_frames r)))) ;;
  pending_req_set pending_req (set_withheld []) ;;
  ret 0.

(** [DL_DELETE(ctx->pending_arp_reqs, arp_req); free(arp_req)] *)
Definition pending_req_delete (pending_req : nat) : M unit :=
  λ w, Some (tt, set_ctx w (set_pending (ctx w)
                              (delete pending_req (pending_arp_reqs (ctx w))))).

(** Modelled from the spec: the helper that builds and sends an ARP
    message is not among the sources.  A request is broadcast (destination
    0xff x 6, [dst_mac] is NULL) for target protocol address [dst_ip]
    with the sending interface as sender; a reply goes to [dst_mac] with
    sender = the interface and target = [dst_mac], [dst_ip]. *)
Definition chirouter_send_arp_message (iface : chirouter_interface_t)
    (dst_mac : option bytes) (dst_ip : Z) (op : Z) : M unit :=
  let! eth_dst := lift (match dst_mac with
                        | Some m => peek m 0 6
                        | None => Some (replicate 6 255)
                        end) in
  let! tha := lift (match dst_mac with
                    | Some m => peek m 0 6
                    | None => Some (replicate 6 0)
                    end) in
  let! sha := lift (peek (mac iface) 0 6) in
  let msg := eth_dst ++ sha ++ be16 ETHERTYPE_ARP
             ++ be16 1 ++ be16 ETHERTYPE_IP ++ [6; 4] ++ be16 op
             ++ sha ++ u32 (ip iface) ++ tha ++ u32 dst_ip in
  chirouter_send_frame iface msg (blen msg).

(** ** router.c *)

(** [get_forward_ip]: the gateway when it is non-zero, else the
    destination. *)
Definition get_forward_ip (routing_entry : chirouter_rtable_entry_t)
    (dst_ip : Z) : Z :=
  let gateway := gw routing_entry in
  if negb (gateway =? 0) then gateway else dst_ip.

(** One round of the loop of [chirouter_get_matching_entry]: [result] is
    the entry chosen so far (a pointer into the table: its index), [i]
    the index looked at. *)
Definition matching_step (table : list chirouter_rtable_entry_t) (dst : Z)
    (result : option nat) (i : nat) : option nat :=
  match table !! i with
  | Some entry =>
      let entry_mask := mask entry in
      let entry_dst := dest entry in
      if Z.land dst entry_mask =? entry_dst then
        match result with
        | Some r =>
            match table !! r with
            | Some current =>
                if mask current <? entry_mask then Some i else result
            | None => result
            end
        | None => Some i
        end
      else result
  | None => result
  end.

(** The loop [for (i = 0; i < num_rtable_entries; i++)], for the
    destination address [dst] of the frame's IP header. *)
Definition matching_loop (table : list chirouter_rtable_entry_t) (dst : Z)
  : option nat :=
  foldl (matching_step table dst) None (seq 0 (length table)).

(** [chirouter_get_matching_entry]: longest-prefix match of the frame's
    destination.  [ip_hdr->dst] is read in the loop body, so an empty
    table reads nothing. *)
Definition chirouter_get_matching_entry (frame : ethernet_frame_t)
  : M (option nat) :=
  λ w,
    match routing_table (ctx w) with
    | [] => Some (None, w)
    | table =>
        (let! dst := frame_get32 frame off_ip_dst in
         ret (matching_loop table dst)) w
    end.

(** [rentry->field]: a null [rentry] has no defined result. *)
Definition rtable_deref (rentry : option nat) : M chirouter_rtable_entry_t :=
  λ w, i ← rentry; r ← routing_table (ctx w) !! i; Some (r, w).

(** [forward_ip_datagram] *)
Definition forward_ip_datagram (frame : ethernet_frame_t) (dst_mac : bytes)
  : M unit :=
  let! rentry := chirouter_get_matching_entry frame in
  (* Construct new frame *)
  let msg_len := frame_length frame in
  let! msg := lift (zeros msg_len) in
  (* Ethernet header *)
  let! msg := lift (memcpy msg off_eth_dst dst_mac 0 ETHER_ADDR_LEN) in
  let! route := rtable_deref rentry in
  let! msg := lift (memcpy msg off_eth_src (mac (interface route)) 0
                      ETHER_ADDR_LEN) in
  let! msg := lift (poke msg off_eth_type (be16 ETHERTYPE_IP)) in
  (* IP header: copy the frame's datagram over *)
  let! len := frame_get16 frame off_ip_len in
  let! datagram := frame_peek frame sizeof_ethhdr_t len in
  let! msg := lift (poke msg sizeof_ethhdr_t datagram) in
  (* Update TTL and checksum *)
  let! ttl := frame_get8 frame off_ip_ttl in
  let! msg := lift (poke msg off_ip_ttl [(ttl - 1) `mod` 256]) in
  let! msg := lift (poke msg off_ip_cksum (be16 0)) in
  let! hdr := lift (peek msg sizeof_ethhdr_t sizeof_iphdr_t) in
  let! msg := lift (poke msg off_ip_cksum (be16 (cksum hdr))) in
  chirouter_send_frame (interface route) msg msg_len.

(** [chirouter_find_match_router]: is the frame's destination the address
    of one of the router's interfaces?  As above, [ip_hdr->dst] is read
    in the loop body. *)
Definition chirouter_find_match_router (frame : ethernet_frame_t) : M bool :=
  λ w,
    match interfaces (ctx w) with
    | [] => Some (false, w)
    | ifaces =>
        (let! dst := frame_get32 frame off_ip_dst in
         ret (existsb (λ i, ip i =? dst) ifaces)) w
    end.

(** [type == ICMPTYPE_ECHO_REPLY || type == ICMPTYPE_ECHO_REQUEST] *)
Definition is_echo (type : Z) : bool :=
  (type =? ICMPTYPE_ECHO_REPLY) || (type =? ICMPTYPE_ECHO_REQUEST).

(** [chirouter_send_icmp] *)
Definition chirouter_send_icmp (type code : Z) (frame : ethernet_frame_t)
  : M unit :=
  (* Setting ICMP message's payload length *)
  let! payload_len :=
    (if is_echo type
     then let! len := frame_get16 frame off_ip_len in
          ret (len - sizeof_iphdr_t - ICMP_HDR_SIZE)
     else ret (sizeof_iphdr_t + 8)) in
  (* Constructing new frame for ICMP message *)
  let reply_len :=
    sizeof_ethhdr_t + sizeof_iphdr_t + ICMP_HDR_SIZE + payload_len in
  let! reply := lift (zeros reply_len) in
  (* Ethernet header *)
  let! frame_src := frame_peek frame off_eth_src ETHER_ADDR_LEN in
  let! reply := lift (poke reply off_eth_dst frame_src) in
  let! reply := lift (memcpy reply off_eth_src (mac (in_interface frame)) 0
                        ETHER_ADDR_LEN) in
  let! reply := lift (poke reply off_eth_type (be16 ETHERTYPE_IP)) in
  (* IP header *)
  let! reply := lift (poke_hi4 reply off_ip_vhl 4) in
  let! reply := lift (poke reply off_ip_tos [0]) in
  let! reply := lift (poke reply off_ip_proto [1]) in
  let! frame_ip_src := frame_peek frame off_ip_src 4 in
  let! reply := lift (poke reply off_ip_dst frame_ip_src) in
  let! reply := lift (poke reply off_ip_src (u32 (ip (in_interface frame)))) in
  let! reply := lift (poke reply off_ip_cksum (be16 0)) in
  let! reply := lift (poke reply off_ip_id (be16 0)) in
  let! reply := lift (poke reply off_ip_off (be16 0)) in
  let! reply := lift (poke_lo4 reply off_ip_vhl 5) in
  let! reply := lift (poke reply off_ip_len
                        (be16 (if is_echo type
                               then frame_length frame - sizeof_ethhdr_t
                               else sizeof_iphdr_t + ICMP_HDR_SIZE
                                    + payload_len))) in
  let! reply := lift (poke reply off_ip_ttl [64]) in
  let! hdr := lift (peek reply sizeof_ethhdr_t sizeof_iphdr_t) in
  let! reply := lift (poke reply off_ip_cksum (be16 (cksum hdr))) in
  (* ICMP packet *)
  let! reply := lift (poke reply off_icmp_type [type]) in
  let! reply := lift (poke reply off_icmp_code [code]) in
  let! reply := lift (poke reply off_icmp_chksum (be16 0)) in
  let! reply :=
    (if is_echo type then
       (* echo *)
       if code =? 0 then
         let! identifier := frame_peek frame off_icmp_identifier 2 in
         let! reply := lift (poke reply off_icmp_identifier identifier) in
         let! seq_num := frame_peek frame off_icmp_seq_num 2 in
         let! reply := lift (poke reply off_icmp_seq_num seq_num) in
         let! payload := frame_peek frame off_icmp_payload payload_len in
         lift (poke reply off_icmp_payload payload)
       else ret reply
     else if type =? ICMPTYPE_DEST_UNREACHABLE then
       (* dest_unreachable *)
       let! payload := frame_peek frame sizeof_ethhdr_t payload_len in
       lift (poke reply off_icmp_payload payload)
     else
       (* time_exceeded *)
       let! payload := frame_peek frame sizeof_ethhdr_t payload_len in
       lift (poke reply off_icmp_payload payload)) in
  let! icmp := lift (peek reply off_icmp_type (ICMP_HDR_SIZE + payload_len)) in
  let! reply := lift (poke reply off_icmp_chksum (be16 (cksum icmp))) in
  (* Send ICMP message *)
  chirouter_send_frame (in_interface frame) reply reply_len.

(** Lines 324-357: the frame is addressed to the interface it came in
    on. *)
Definition frame_comes_to_router (frame : ethernet_frame_t) : M completion :=
  let! proto := frame_get8 frame off_ip_proto in
  if (proto =? IPPROTO_TCP) || (proto =? IPPROTO_UDP) then
    (* ICMP DESTINATION PORT UNREACHABLE *)
    exec (chirouter_send_icmp ICMPTYPE_DEST_UNREACHABLE
            ICMPCODE_DEST_PORT_UNREACHABLE frame)
  else
    let! ttl := frame_get8 frame off_ip_ttl in
    if ttl =? 1 then
      (* ICMP time exceeded *)
      exec (chirouter_send_icmp ICMPTYPE_TIME_EXCEEDED 0 frame)
    else if proto =? IPPROTO_ICMP then
      let! icmp_type := frame_get8 frame off_icmp_type in
      if icmp_type =? ICMPTYPE_ECHO_REQUEST then
        exec (chirouter_send_icmp ICMPTYPE_ECHO_REPLY 0 frame)
      else ret Normal
    else
      (* ICMP destination protocol unreachable *)
      exec (chirouter_send_icmp ICMPTYPE_DEST_UNREACHABLE
              ICMPCODE_DEST_PROTOCOL_UNREACHABLE frame).

(** Lines 368-446: try to forward the datagram. *)
Definition try_to_forward (e : env) (frame : ethernet_frame_t)
  : M completion :=
  let! forward_entry := chirouter_get_matching_entry frame in
  match forward_entry with
  | Some _ =>
      let! route := rtable_deref forward_entry in
      let! dst := frame_get32 frame off_ip_dst in
      let forward_ip := get_forward_ip route dst in
      let! arpcache_entry := chirouter_arp_cache_lookup forward_ip in
      match arpcache_entry with
      | None =>
          let! pending_req := chirouter_arp_pending_req_lookup forward_ip in
          match pending_req with
          | None =>
              chirouter_send_arp_message (interface route) None forward_ip
                ARP_OP_REQUEST ;;
              (* add IP address to pending arp request list *)
              let! pending_req :=
                chirouter_arp_pending_req_add forward_ip (interface route) in
              pending_req_set pending_req incr_times_sent ;;
              pending_req_set pending_req (set_last_sent (now e)) ;;
              let! result :=
                chirouter_arp_pending_req_add_frame e pending_req frame in
              if result =? 1 then ret (Return (-1)) else ret Normal
          | Some pending_req =>
              let! result :=
                chirouter_arp_pending_req_add_frame e pending_req frame in
              if result =? 1 then ret (Return (-1)) else ret Normal
          end
      | Some entry =>
          let! ttl := frame_get8 frame off_ip_ttl in
          if ttl =? 1 then
            (* TIME_EXCEEDED *)
            exec (chirouter_send_icmp ICMPTYPE_TIME_EXCEEDED 0 frame)
          else
            (* Forward IP datagram *)
            exec (forward_ip_datagram frame (arp_mac entry))
      end
  | None =>
      (* ICMP network unreachable *)
      exec (chirouter_send_icmp ICMPTYPE_DEST_UNREACHABLE
              ICMPCODE_DEST_NET_UNREACHABLE frame)
  end.

(** Lines 488-500: the body of the loop over the withheld frames. *)
Definition forward_withheld (sha : bytes) (elt : ethernet_frame_t) : M unit :=
  let! ttl := frame_get8 elt off_ip_ttl in
  if ttl =? 1 then
    (* Time exceeded *)
    chirouter_send_icmp ICMPTYPE_TIME_EXCEEDED 0 elt
  else
    (* Forward withheld frame *)
    forward_ip_datagram elt sha.

(** Lines 460-514: an ARP reply for this interface. *)
Definition arp_reply_received (e : env) (frame : ethernet_frame_t)
  : M completion :=
  let! spa := frame_get32 frame off_arp_spa in
  let! sha := frame_peek frame off_arp_sha ETHER_ADDR_LEN in
  (* add ip and corresponding mac address to arp cache *)
  let! result := chirouter_arp_cache_add e spa sha in
  if negb (result =? 0) then ret (Return (-1))
  else
    (* forward withheld frames *)
    let! arp_req := chirouter_arp_pending_req_lookup spa in
    match arp_req with
    | None => ret Normal
    | Some arp_req =>
        let! req := pending_req_get arp_req in
        foreach (withheld_frames req) (forward_withheld sha) ;;
        (* Free withheld frames *)
        let! result := chirouter_arp_pending_req_free_frames arp_req in
        if result =? 1 then ret (Return result)
        else
          (* remove the pending ARP request from the list *)
          pending_req_delete arp_req ;;
          ret Normal
    end.

(** Lines 454-535: an ARP message. *)
Definition arp_message (e : env) (frame : ethernet_frame_t) : M completion :=
  let! tpa := frame_get32 frame off_arp_tpa in
  if tpa =? ip (in_interface frame) then
    let! op := frame_get16 frame off_arp_op in
    seq_stmt
      (if op =? ARP_OP_REPLY then arp_reply_received e frame
       else
         let! op := frame_get16 frame off_arp_op in
         if op =? ARP_OP_REQUEST then
           (* send arp reply *)
           let! sha := frame_peek frame off_arp_sha ETHER_ADDR_LEN in
           let! spa := frame_get32 frame off_arp_spa in
           exec (chirouter_send_arp_message (in_interface frame) (Some sha)
                   spa ARP_OP_REPLY)
         else ret Normal)
      (ret (Return 0))
  else ret (Return 0).

(** [chirouter_process_ethernet_frame].  The result [Normal] means that
    control reached the closing brace of the function: no [return]
    statement was executed, and the caller gets no defined value. *)
Definition chirouter_process_ethernet_frame (e : env)
    (frame : ethernet_frame_t) : M completion :=
  let! hdr_type := frame_get16 frame off_eth_type in
  if (hdr_type =? ETHERTYPE_IP) || (hdr_type =? ETHERTYPE_IPV6) then
    seq_stmt
      (let! dst := frame_get32 frame off_ip_dst in
       if dst =? ip (in_interface frame) then frame_comes_to_router frame
       else
         let! other := chirouter_find_match_router frame in
         if other then
           (* ICMP HOST UNREACHABLE *)
           exec (chirouter_send_icmp ICMPTYPE_DEST_UNREACHABLE
                   ICMPCODE_DEST_HOST_UNREACHABLE frame)
         else try_to_forward e frame)
      (ret (Return 0))
  else if hdr_type =? ETHERTYPE_ARP then arp_message e frame
  else ret Normal.

(** ** Specification vocabulary *)

(** The entry matches the destination: [dest = dst & mask]. *)
Definition route_matches (dst : Z) (entry : chirouter_rtable_entry_t) : Prop :=
  Z.land dst (mask entry) = dest entry.

(** [result] is the longest-prefix match among the first [k] entries of
    the table: it matches, no matching entry has a larger mask, and the
    matching entries before it have a smaller one. *)
Definition lpm_upto (table : list chirouter_rtable_entry_t) (dst : Z)
    (k : nat) (result : option nat) : Prop :=
  match result with
  | Some i =>
      (i < k)%nat ∧
      ∃ entry, table !! i = Some entry ∧ route_matches dst entry ∧
        ∀ j other, (j < k)%nat → table !! j = Some other →
          route_matches dst other →
          mask other ≤ mask entry ∧ (mask other = mask entry → (i ≤ j)%nat)
  | None =>
      ∀ j other, (j < k)%nat → table !! j = Some other →
        ¬ route_matches dst other
  end.

(** The [n] bytes of [msg] from [start] carry, in the 16-bit field at
    offset [field], the checksum of those bytes computed with the field
    set to zero. *)
Definition checksummed (msg : bytes) (start n field : Z) : Prop :=
  ∃ region zeroed, peek msg start n = Some region ∧
    poke region field (be16 0) = Some zeroed ∧
    peek region field 2 = Some (be16 (cksum zeroed)).

(** [wp m w Q]: run from [w], the computation [m] has a defined result,
    and the result and the final world satisfy [Q]. *)
Definition wp {A} (m : M A) (w : world) (Q : A → world → Prop) : Prop :=
  match m w with
  | Some (a, w') => Q a w'
  | None => False
  end.

(** What [chirouter_send_icmp type code frame] builds from the frame
    whose buffer is [buf]. *)
Record icmp_message (type code : Z) (frame : ethernet_frame_t)
    (buf reply : bytes) : Prop := {
  icmp_eth_dst : peek reply off_eth_dst 6 = peek buf off_eth_src 6;
  icmp_eth_src : peek reply off_eth_src 6 = Some (mac (in_interface frame));
  icmp_eth_type : get16 reply off_eth_type = Some ETHERTYPE_IP;
  icmp_ip_vhl : get8 reply off_ip_vhl = Some (4 * 16 + 5);
  icmp_ip_tos : get8 reply off_ip_tos = Some 0;
  icmp_ip_len :
    peek reply off_ip_len 2
    = Some (be16 (if is_echo type then frame_length frame - sizeof_ethhdr_t
                  else blen reply - sizeof_ethhdr_t));
  icmp_ip_id : get16 reply off_ip_id = Some 0;
  icmp_ip_off : get16 reply off_ip_off = Some 0;
  icmp_ip_ttl : get8 reply off_ip_ttl = Some 64;
  icmp_ip_proto : get8 reply off_ip_proto = Some 1;
  icmp_ip_src :
    peek reply off_ip_src 4 = Some (u32 (ip (in_interface frame)));
  icmp_ip_dst : peek reply off_ip_dst 4 = peek buf off_ip_src 4;
  icmp_ip_cksum : checksummed reply sizeof_ethhdr_t sizeof_iphdr_t 10;
  icmp_type : get8 reply off_icmp_type = Some type;
  icmp_code : get8 reply off_icmp_code = Some code;
  icmp_chksum :
    checksummed reply off_icmp_type (blen reply - off_icmp_type) 2;
  icmp_blen :
    if is_echo type
    then ∃ len, get16 buf off_ip_len = Some len ∧
                blen reply = sizeof_ethhdr_t + len
    else blen reply = 70;
  icmp_body :
    if is_echo type
    then code = 0 →
         peek reply off_icmp_identifier (blen reply - off_icmp_identifier)
         = peek buf off_icmp_identifier (blen reply - off_icmp_identifier)
    else peek reply off_icmp_identifier 4 = Some [0; 0; 0; 0] ∧
         peek reply off_icmp_payload 28 = peek buf sizeof_ethhdr_t 28
}.

(** The frame is long enough for what [chirouter_send_icmp] reads from
    it and writes into the reply. *)
Definition icmp_trigger_ok (type : Z) (buf : bytes) : Prop :=
  42 ≤ blen buf ∧
  (is_echo type = true →
   ∃ len, get16 buf off_ip_len = Some len ∧ 28 ≤ len ∧ 14 + len ≤ blen buf).

(** [route] is what route lookup gives for the destination of the frame
    in [buf]. *)
Definition route_of (table : list chirouter_rtable_entry_t) (buf : bytes)
    (route : chirouter_rtable_entry_t) : Prop :=
  ∃ dst i, get32 buf off_ip_dst = Some dst ∧
           matching_loop table dst = Some i ∧
           table !! i = Some route.

(** The frame is long enough for what [forward_ip_datagram] reads from it
    and writes into the new frame. *)
Definition forward_trigger_ok (frame : ethernet_frame_t) (buf : bytes) : Prop :=
  34 ≤ frame_length frame ∧ 34 ≤ blen buf ∧
  ∃ len, get16 buf off_ip_len = Some len ∧ 0 ≤ len ∧
         sizeof_ethhdr_t + len ≤ blen buf ∧
         sizeof_ethhdr_t + len ≤ frame_length frame.

(** What [forward_ip_datagram frame dst_mac] builds from the frame whose
    buffer is [buf], for the route [route]. *)
Record forwarded (frame : ethernet_frame_t) (buf dst_mac : bytes)
    (route : chirouter_rtable_entry_t) (msg : bytes) : Prop := {
  fwd_blen : blen msg = frame_length frame;
  fwd_eth_dst : peek msg off_eth_dst 6 = Some dst_mac;
  fwd_eth_src : peek msg off_eth_src 6 = Some (mac (interface route));
  fwd_eth_type : get16 msg off_eth_type = Some ETHERTYPE_IP;
  fwd_ttl :
    ∃ ttl, get8 buf off_ip_ttl = Some ttl ∧
           get8 msg off_ip_ttl = Some ((ttl - 1) `mod` 256);
  fwd_cksum : checksummed msg sizeof_ethhdr_t sizeof_iphdr_t 10;
  fwd_copy :
    ∃ len, get16 buf off_ip_len = Some len ∧
      ∀ o n, sizeof_ethhdr_t ≤ o → o + n ≤ sizeof_ethhdr_t + len →
        o + n ≤ off_ip_ttl ∨ off_ip_proto ≤ o ∧ o + n ≤ off_ip_cksum
          ∨ off_ip_src ≤ o →
        peek msg o n = peek buf o n
}.

(** The 4-bit bit-fields of the byte at [off]: [version] is the high
    half of the first byte of the IP header, [ihl] the low half. *)
Definition get_hi4 (b : bytes) (off : Z) : option Z :=
  (λ v, Z.shiftr v 4) <$> get8 b off.

(** See [get_hi4]. *)
Definition get_lo4 (b : bytes) (off : Z) : option Z :=
  (λ v, Z.land v 15) <$> get8 b off.

(** Where the ICMP packet of the datagram in [buf] begins: where its IP
    header ends, [4 * ihl] bytes after the start of the IP header.
    router.c does not read [ihl]: it looks for the ICMP packet of a frame
    at the fixed offset [off_icmp_type], after an IP header of
    [sizeof_iphdr_t] bytes, which is this place exactly when [ihl] is 5
    (an IP header without options). *)
Definition icmp_start (buf : bytes) : option Z :=
  ihl ← get_lo4 buf off_ip_vhl; Some (sizeof_ethhdr_t + 4 * ihl).

(** The fields of the ICMP packet of the datagram in [buf], read where
    the packet begins: the type in its first byte; for an echo message
    the identifier and the sequence number after the four bytes of type,
    code and checksum, and [n] bytes of payload after the
    [ICMP_HDR_SIZE] bytes of the header. *)
Definition icmp_type_of (buf : bytes) : option Z :=
  start ← icmp_start buf; get8 buf start.

(** See [icmp_type_of]. *)
Definition echo_identifier_of (buf : bytes) : option bytes :=
  start ← icmp_start buf; peek buf (start + 4) 2.

(** See [icmp_type_of]. *)
Definition echo_seq_num_of (buf : bytes) : option bytes :=
  start ← icmp_start buf; peek buf (start + 6) 2.

(** See [icmp_type_of]. *)
Definition echo_payload_of (buf : bytes) (n : Z) : option bytes :=
  start ← icmp_start buf; peek buf (start + ICMP_HDR_SIZE) n.

(** From [w] to [w'], exactly one frame was sent: the ICMP message of the
    given type and code that answers [frame], on the interface the frame
    came in on. *)
Definition sent_icmp (type code : Z) (frame : ethernet_frame_t)
    (buf : bytes) (w w' : world) : Prop :=
  ∃ reply, w' = emit w (in_interface frame) reply ∧
           icmp_message type code frame buf reply.

(** The frame in [buf] is an IPv4 (or IPv6) frame for the interface it
    came in on. *)
Definition ip_for_this_interface (frame : ethernet_frame_t) (buf : bytes)
  : Prop :=
  (get16 buf off_eth_type = Some ETHERTYPE_IP ∨
   get16 buf off_eth_type = Some ETHERTYPE_IPV6) ∧
  get32 buf off_ip_dst = Some (ip (in_interface frame)).




(** [msg] is an ARP request broadcast by [iface] for the address [tpa]. *)
Definition arp_request (iface : chirouter_interface_t) (tpa : Z)
    (msg : bytes) : Prop :=
  blen msg = 42 ∧
  peek msg off_eth_dst 6 = Some [255; 255; 255; 255; 255; 255] ∧
  peek msg off_eth_src 6 = Some (mac iface) ∧
  get16 msg off_eth_type = Some ETHERTYPE_ARP ∧
  get16 msg off_arp_hrd = Some 1 ∧
  get16 msg off_arp_pro = Some ETHERTYPE_IP ∧
  get8 msg off_arp_hln = Some 6 ∧
  get8 msg off_arp_pln = Some 4 ∧
  get16 msg off_arp_op = Some ARP_OP_REQUEST ∧
  peek msg off_arp_sha 6 = Some (mac iface) ∧
  peek msg off_arp_spa 4 = Some (u32 (ip iface)) ∧
  peek msg off_arp_tpa 4 = Some (u32 tpa).

(** The pending request for [ip_addr], and the ARP cache entry for it,
    as the lookups of the ARP module find them. *)
Definition pending_for (ip_addr : Z) (c : chirouter_ctx_t)
  : option (nat * chirouter_pending_arp_req_t) :=
  list_find (λ r, req_ip r = ip_addr) (pending_arp_reqs c).

(** See [pending_for]. *)
Definition cached_for (ip_addr : Z) (c : chirouter_ctx_t)
  : option (nat * chirouter_arpcache_entry_t) :=
  list_find (λ a, arp_ip a = ip_addr) (arpcache c).

(** The deep copy of [frame] that is kept in a pending request: a frame
    record with the same length and ingress interface whose bytes are in
    the buffer at address [a]. *)
Definition copy_at (a : addr) (frame : ethernet_frame_t) : ethernet_frame_t :=
  {| raw := a; frame_length := frame_length frame;
     in_interface := in_interface frame |}.

(** The frame in [buf] is an IPv4 (or IPv6) frame with destination [dst],
    which is not an address of any interface of the router. *)
Definition ip_for_elsewhere (c : chirouter_ctx_t) (frame : ethernet_frame_t)
    (buf : bytes) (dst : Z) : Prop :=
  (get16 buf off_eth_type = Some ETHERTYPE_IP ∨
   get16 buf off_eth_type = Some ETHERTYPE_IPV6) ∧
  get32 buf off_ip_dst = Some dst ∧
  dst ≠ ip (in_interface frame) ∧
  Forall (λ i, ip i ≠ dst) (interfaces c).

(** The call has to copy the frame into a pending request (a route
    exists, the ARP cache has no entry for the next hop) and the copy
    cannot be allocated. *)
Definition copy_fails_on (e : env) (frame : ethernet_frame_t) (w : world)
    (buf : bytes) : Prop :=
  frame_copy_fails e = true ∧
  ∃ dst route,
    ip_for_elsewhere (ctx w) frame buf dst ∧
    route_of (routing_table (ctx w)) buf route ∧
    cached_for (get_forward_ip route dst) (ctx w) = None ∧
    blen (mac (interface route)) = 6.

(** The call has to add a new entry to the ARP cache (an ARP reply for
    this interface from a sender that is not in the cache) and the cache
    cannot grow. *)
Definition cache_full_on (e : env) (frame : ethernet_frame_t) (w : world)
    (buf : bytes) : Prop :=
  cache_grow_fails e = true ∧
  get16 buf off_eth_type = Some ETHERTYPE_ARP ∧
  get32 buf off_arp_tpa = Some (ip (in_interface frame)) ∧
  get16 buf off_arp_op = Some ARP_OP_REPLY ∧
  ∃ spa, get32 buf off_arp_spa = Some spa ∧
         cached_for spa (ctx w) = None.

(** No withheld frame of any pending request has its bytes in the buffer
    at address [a]. *)
Definition no_alias (a : addr) (c : chirouter_ctx_t) : Prop :=
  ∀ r f, r ∈ pending_arp_reqs c → f ∈ withheld_frames r → raw f ≠ a.

(** The buffer at address [a] holds [buf] and belongs to nobody but the
    caller. *)
Definition buffer_kept (a : addr) (buf : bytes) (w : world) : Prop :=
  heap w !! a = Some buf ∧ no_alias a (ctx w).

(** Whenever [m] has a defined result, it carries [P] from the world
    before to the world after. *)
Definition preserves {A} (P : world → Prop) (m : M A) : Prop :=
  ∀ w a w', P w → m w = Some (a, w') → P w'.

(** [m] changes neither the heap nor the list of pending requests. *)
Definition leaves_frames_alone {A} (m : M A) : Prop :=
  ∀ w a w', m w = Some (a, w') →
    heap w' = heap w ∧ pending_arp_reqs (ctx w') = pending_arp_reqs (ctx w).

(** ** A small network

    The router of the spec's scenarios: interface eth0 is 10.0.0.1 with
    MAC 02:00:00:00:00:01, a second interface eth1 is 10.0.1.1, the
    default route goes through the gateway 10.0.0.254 on eth0, and the
    network 10.0.1.0/24 is directly connected on eth1.  The inbound frame
    is in the buffer at address 1. *)
Definition ipv4 (a b c d : Z) : Z := of_u32 [a; b; c; d].

Definition eth0 : chirouter_interface_t :=
  {| name := "eth0"; mac := [2; 0; 0; 0; 0; 1]; ip := ipv4 10 0 0 1 |}.

Definition eth1 : chirouter_interface_t :=
  {| name := "eth1"; mac := [2; 0; 0; 0; 0; 2]; ip := ipv4 10 0 1 1 |}.

Definition example_table : list chirouter_rtable_entry_t :=
  [ {| dest := ipv4 0 0 0 0; mask := ipv4 0 0 0 0; gw := ipv4 10 0 0 254;
       interface := eth0 |};
    {| dest := ipv4 10 0 1 0; mask := ipv4 255 255 255 0; gw := 0;
       interface := eth1 |} ].

Definition gateway_mac : bytes := [2; 187; 0; 0; 0; 1].

Definition gateway_entry : chirouter_arpcache_entry_t :=
  {| arp_ip := ipv4 10 0 0 254; arp_mac := gateway_mac; time_added := 990 |}.

Definition example_ctx (cache : list chirouter_arpcache_entry_t)
  : chirouter_ctx_t :=
  {| interfaces := [eth0; eth1]; routing_table := example_table;
     arpcache := cache; pending_arp_reqs := [] |}.

Definition example_env : env :=
  {| now := 1000; frame_copy_fails := false; cache_grow_fails := false |}.

Definition no_memory_env : env :=
  {| now := 1000; frame_copy_fails := true; cache_grow_fails := true |}.

(** The world in which the frame with bytes [buf] has just arrived. *)
Definition arrival (c : chirouter_ctx_t) (buf : bytes) : world :=
  {| ctx := c; heap := {[ 1%positive := buf ]}; wire := [] |}.

Definition inbound (buf : bytes) : ethernet_frame_t :=
  {| raw := 1%positive; frame_length := blen buf; in_interface := eth0 |}.

Definition host_mac : bytes := [2; 170; 0; 0; 0; 1].

(** An ICMP message of the given type from 10.0.0.2 to 10.0.0.1, with
    identifier 1, sequence number 2 and payload "abcd". *)
Definition icmp_to_router (type : Z) : bytes :=
  mac eth0 ++ host_mac ++ [8; 0]
  ++ [69; 0; 0; 32; 0; 0; 0; 0; 64; 1; 0; 0; 10; 0; 0; 2; 10; 0; 0; 1]
  ++ [type; 0; 0; 0; 0; 1; 0; 2; 97; 98; 99; 100].

(** An ICMP echo request from 10.0.0.2 to 10.0.0.1 with identifier 1,
    sequence number 2 and payload "abcd", whose IP header carries the
    four bytes [options] ([ihl] is 6): the ICMP packet begins at byte 38
    of the frame, and the options are at byte 34, where the ICMP packet
    of a datagram without options would begin. *)
Definition echo_request_behind_options (options : bytes) : bytes :=
  mac eth0 ++ host_mac ++ [8; 0]
  ++ [70; 0; 0; 36; 0; 0; 0; 0; 64; 1; 0; 0; 10; 0; 0; 2; 10; 0; 0; 1]
  ++ options
  ++ [8; 0; 0; 0; 0; 1; 0; 2; 97; 98; 99; 100].

(** A UDP datagram from 10.0.0.2 to 198.51.100.5 with the given TTL. *)
Definition datagram (ttl : Z) : bytes :=
  mac eth0 ++ host_mac ++ [8; 0]
  ++ [69; 0; 0; 32; 0; 0; 0; 0; ttl; 17; 0; 0; 10; 0; 0; 2; 198; 51; 100; 5]
  ++ [0; 53; 0; 53; 0; 12; 0; 0; 97; 98; 99; 100].

(** The ARP reply of the gateway: 10.0.0.254 is at [gateway_mac]. *)
Definition gateway_arp_reply : bytes :=
  mac eth0 ++ gateway_mac ++ [8; 6]
  ++ [0; 1; 8; 0; 6; 4; 0; 2]
  ++ gateway_mac ++ [10; 0; 0; 254] ++ mac eth0 ++ [10; 0; 0; 1].

(** A frame with the ethertype 0x8100 (a VLAN tag), which the router does
    not handle. *)
Definition vlan_frame : bytes :=
  mac eth0 ++ host_mac ++ [129; 0] ++ [0; 5; 8; 0].

Definition default_route : chirouter_rtable_entry_t :=
  {| dest := ipv4 0 0 0 0; mask := ipv4 0 0 0 0; gw := ipv4 10 0 0 254;
     interface := eth0 |}.



(** The world after the call for the inbound frame [buf] (the world
    before it, where the model has no defined result). *)
Definition after_call (e : env) (c : chirouter_ctx_t) (buf : bytes) : world :=
  match chirouter_process_ethernet_frame e (inbound buf) (arrival c buf) with
  | Some (_, w') => w'
  | None => arrival c buf
  end.

(** ** More vocabulary: ARP replies, what a call keeps, how it ends,
    netmasks *)

(** The frame in [buf] is an IPv4 (or IPv6) frame with destination [dst],
    which is not the address of the interface it came in on but is the
    address of another interface of the router. *)
Definition ip_for_another_interface (c : chirouter_ctx_t)
    (frame : ethernet_frame_t) (buf : bytes) (dst : Z) : Prop :=
  (get16 buf off_eth_type = Some ETHERTYPE_IP ∨
   get16 buf off_eth_type = Some ETHERTYPE_IPV6) ∧
  get32 buf off_ip_dst = Some dst ∧
  dst ≠ ip (in_interface frame) ∧
  ∃ i, i ∈ interfaces c ∧ ip i = dst.

(** [msg] is the ARP reply of [iface] to the host with MAC address [tha]
    and protocol address [tpa]. *)
Definition arp_reply (iface : chirouter_interface_t) (tha : bytes) (tpa : Z)
    (msg : bytes) : Prop :=
  blen msg = 42 ∧
  peek msg off_eth_dst 6 = Some tha ∧
  peek msg off_eth_src 6 = Some (mac iface) ∧
  get16 msg off_eth_type = Some ETHERTYPE_ARP ∧
  get16 msg off_arp_hrd = Some 1 ∧
  get16 msg off_arp_pro = Some ETHERTYPE_IP ∧
  get8 msg off_arp_hln = Some 6 ∧
  get8 msg off_arp_pln = Some 4 ∧
  get16 msg off_arp_op = Some ARP_OP_REPLY ∧
  peek msg off_arp_sha 6 = Some (mac iface) ∧
  peek msg off_arp_spa 4 = Some (u32 (ip iface)) ∧
  peek msg off_arp_tha 6 = Some tha ∧
  peek msg off_arp_tpa 4 = Some (u32 tpa).

(** [keeps R m]: whenever [m] has a defined result, the world before and
    the world after are related by [R]. *)
Definition keeps {A} (R : relation world) (m : M A) : Prop :=
  ∀ w a w', m w = Some (a, w') → R w w'.

(** Relations between the world before and the world after, by the
    kinds of step they hold across: sending a frame, changing the list
    of pending requests, changing the heap, changing the ARP cache. *)
Class AcrossSend (R : relation world) :=
  across_send w i msg : R w (emit w i msg).

(** See [AcrossSend]. *)
Class AcrossPending (R : relation world) :=
  across_pending w p : R w (set_ctx w (set_pending (ctx w) p)).

(** See [AcrossSend]. *)
Class AcrossHeap (R : relation world) :=
  across_heap w h : R w (set_heap w h).

(** See [AcrossSend]. *)
Class AcrossCache (R : relation world) :=
  across_cache w ac : R w (set_ctx w (set_arpcache (ctx w) ac)).

(** From [w] to [w'] the interfaces and the routing table are the same,
    and the frames sent are those sent before, followed by new ones. *)
Definition configuration_kept (w w' : world) : Prop :=
  interfaces (ctx w') = interfaces (ctx w) ∧
  routing_table (ctx w') = routing_table (ctx w) ∧
  ∃ outs, wire w' = wire w ++ outs.

(** From [w] to [w'] the ARP cache is the same. *)
Definition arpcache_kept (w w' : world) : Prop :=
  arpcache (ctx w') = arpcache (ctx w).

(** From [w] to [w'] no frame is sent. *)
Definition wire_kept (w w' : world) : Prop := wire w' = wire w.

(** From [w] to [w'] at most [n] frames are sent. *)
Definition sent_at_most (n : nat) (w w' : world) : Prop :=
  ∃ outs, wire w' = wire w ++ outs ∧ (length outs ≤ n)%nat.

(** From [w] to [w'] the heap, the list of pending requests and the
    routing table are the same. *)
Definition frames_kept (w w' : world) : Prop :=
  heap w' = heap w ∧
  pending_arp_reqs (ctx w') = pending_arp_reqs (ctx w) ∧
  routing_table (ctx w') = routing_table (ctx w).

(** All the withheld frames of the router, request by request. *)
Definition all_withheld (c : chirouter_ctx_t) : list ethernet_frame_t :=
  pending_arp_reqs c ≫= withheld_frames.

(** Every withheld frame has a buffer of its own on the heap, and the
    routing table has a route for the destination in it. *)
Definition withheld_sound (w : world) : Prop :=
  NoDup (raw <$> all_withheld (ctx w)) ∧
  ∀ f, f ∈ all_withheld (ctx w) →
    ∃ buf route, heap w !! raw f = Some buf ∧
                 route_of (routing_table (ctx w)) buf route.

(** [ends S m]: whenever the statement [m] has a defined result, the way
    it ends is in [S]. *)
Definition ends (S : completion → Prop) (m : M completion) : Prop :=
  ∀ w c w', m w = Some (c, w') → S c.

(** How a part of [chirouter_process_ethernet_frame] ends: control goes
    on, or the critical error -1 is returned after an allocation has
    failed. *)
Definition goes_on_or_fails (e : env) (c : completion) : Prop :=
  c = Normal ∨
  c = Return (-1) ∧ (frame_copy_fails e = true ∨ cache_grow_fails e = true).

(** The netmask of a network with a prefix of [len] bits, as router.c
    sees it: the 32-bit mask with the [len] high bits set is kept in
    network byte order and loaded as a [uint32_t] (see [u32]). *)
Definition netmask (len : Z) : Z :=
  of_u32 (reverse (u32 (4294967296 - 2 ^ (32 - len)))).

(** ** More frames for the small network *)

(** A UDP datagram from 10.0.0.2 to [a.b.c.d] with the given TTL. *)
Definition datagram_to (a b c d ttl : Z) : bytes :=
  mac eth0 ++ host_mac ++ [8; 0]
  ++ [69; 0; 0; 32; 0; 0; 0; 0; ttl; 17; 0; 0; 10; 0; 0; 2; a; b; c; d]
  ++ [0; 53; 0; 53; 0; 12; 0; 0; 97; 98; 99; 100].

(** The router without its default route: only 10.0.1.0/24 is known. *)
Definition local_ctx : chirouter_ctx_t :=
  {| interfaces := [eth0; eth1];
     routing_table :=
       [ {| dest := ipv4 10 0 1 0; mask := ipv4 255 255 255 0; gw := 0;
            interface := eth1 |} ];
     arpcache := []; pending_arp_reqs := [] |}.

(** A datagram of protocol 47 for the router that ends with its IP
    header: the frame is 34 bytes long. *)
Definition bare_datagram : bytes :=
  mac eth0 ++ host_mac ++ [8; 0]
  ++ [69; 0; 0; 20; 0; 0; 0; 0; 64; 47; 0; 0; 10; 0; 0; 2; 10; 0; 0; 1].

(** An echo request for the router, 46 bytes long, whose IP header gives
    [len] as the total length of the datagram. *)
Definition echo_request_claiming (len : Z) : bytes :=
  mac eth0 ++ host_mac ++ [8; 0]
  ++ [69; 0; 0; len; 0; 0; 0; 0; 64; 1; 0; 0; 10; 0; 0; 2; 10; 0; 0; 1]
  ++ [8; 0; 0; 0; 0; 1; 0; 2; 97; 98; 99; 100].

(** The datagram for 198.51.100.5 in a frame with four more bytes after
    the datagram. *)
Definition padded_datagram : bytes := datagram 64 ++ [1; 2; 3; 4].

(** The ARP request of the host 10.0.0.2 for the address [a.b.c.d]. *)
Definition host_arp_request (a b c d : Z) : bytes :=
  [255; 255; 255; 255; 255; 255] ++ host_mac ++ [8; 6]
  ++ [0; 1; 8; 0; 6; 4; 0; 1]
  ++ host_mac ++ [10; 0; 0; 2] ++ [0; 0; 0; 0; 0; 0] ++ [a; b; c; d].



(** * Facts *)

(** ** Facts about buffers *)

Lemma blen_nonneg (b : bytes) : 0 ≤ blen b.
Proof. unfold blen. lia. Qed.

Lemma blen_app (a b : bytes) : blen (a ++ b) = blen a + blen b.
Proof. unfold blen. rewrite length_app. lia. Qed.

Lemma peek_Some (b : bytes) (off n : Z) (vs : bytes) :
  peek b off n = Some vs →
  0 ≤ off ∧ 0 ≤ n ∧ off + n ≤ blen b ∧ blen vs = n ∧
  vs = take (Z.to_nat n) (drop (Z.to_nat off) b).
Proof.
  unfold peek. case_decide as Hb; [|done]. intros [= <-].
  unfold blen in *. rewrite length_take, length_drop. split_and!; try lia. done.
Qed.

Lemma peek_is_Some (b : bytes) (off n : Z) :
  0 ≤ off → 0 ≤ n → off + n ≤ blen b → is_Some (peek b off n).
Proof. intros. unfold peek. rewrite decide_True by lia. eauto. Qed.

Lemma peek_blen (b : bytes) (off n : Z) (vs : bytes) :
  peek b off n = Some vs → blen vs = n.
Proof. intros H. apply peek_Some in H. tauto. Qed.

Lemma peek_lookup (b : bytes) (off n : Z) (vs : bytes) (i : nat) :
  peek b off n = Some vs → Z.of_nat i < n →
  vs !! i = b !! (Z.to_nat off + i)%nat.
Proof.
  intros H Hi. apply peek_Some in H as (?&?&?&?&->).
  rewrite lookup_take_lt by lia. by rewrite lookup_drop.
Qed.

Lemma peek_all (b : bytes) : peek b 0 (blen b) = Some b.
Proof.
  unfold peek. rewrite decide_True by (pose proof (blen_nonneg b); lia).
  unfold blen. rewrite Nat2Z.id. change (Z.to_nat 0) with 0%nat.
  rewrite drop_0. by rewrite take_ge by lia.
Qed.

Lemma poke_Some (b : bytes) (off : Z) (vs b' : bytes) :
  poke b off vs = Some b' →
  0 ≤ off ∧ off + blen vs ≤ blen b ∧ blen b' = blen b.
Proof.
  unfold poke. case_decide as Hb; [|done]. intros [= <-].
  unfold blen in *. rewrite !length_app, length_take, length_drop.
  split_and!; lia.
Qed.

Lemma poke_is_Some (b : bytes) (off : Z) (vs : bytes) :
  0 ≤ off → off + blen vs ≤ blen b → is_Some (poke b off vs).
Proof. intros. unfold poke. rewrite decide_True by lia. eauto. Qed.

Lemma poke_blen (b : bytes) (off : Z) (vs b' : bytes) :
  poke b off vs = Some b' → blen b' = blen b.
Proof. intros H. apply poke_Some in H. tauto. Qed.

Lemma poke_lookup (b : bytes) (off : Z) (vs b' : bytes) (i : nat) :
  poke b off vs = Some b' →
  b' !! i = if decide (off ≤ Z.of_nat i < off + blen vs)
            then vs !! (i - Z.to_nat off)%nat else b !! i.
Proof.
  unfold poke. case_decide as Hb; [|done]. intros [= <-].
  unfold blen in *. case_decide as Hi.
  - rewrite lookup_app_r by (rewrite length_take; lia).
    rewrite length_take, lookup_app_l by lia. f_equal. lia.
  - destruct (decide (Z.of_nat i < off)).
    + rewrite lookup_app_l by (rewrite length_take; lia).
      by rewrite lookup_take_lt by lia.
    + rewrite lookup_app_r by (rewrite length_take; lia).
      rewrite lookup_app_r by (rewrite length_take; lia).
      rewrite length_take, lookup_drop. f_equal. lia.
Qed.

(** ** Route lookup *)

Lemma matching_step_lpm table dst k result :
  (k < length table)%nat →
  lpm_upto table dst k result →
  lpm_upto table dst (S k) (matching_step table dst result k).
Proof.
  intros Hk Hres. unfold matching_step.
  destruct (lookup_lt_is_Some_2 table k Hk) as [entry Hentry].
  rewrite Hentry. destruct (Z.eqb_spec (Z.land dst (mask entry)) (dest entry))
    as [Hm|Hm].
  - destruct result as [r|]; simpl in Hres.
    + destruct Hres as (Hr & current & Hcur & Hcm & Hbest). rewrite Hcur.
      destruct (Z.ltb_spec (mask current) (mask entry)) as [Hlt|Hge]; simpl.
      * split; [lia|]. exists entry. split_and!; [done..|].
        intros j other Hj Hother Hom.
        destruct (decide (j = k)) as [->|Hne].
        { assert (other = entry) as -> by congruence. lia. }
        destruct (Hbest j other) as [Hle _]; [lia|done..|]. lia.
      * split; [lia|]. exists current. split_and!; [done..|].
        intros j other Hj Hother Hom.
        destruct (decide (j = k)) as [->|Hne].
        { assert (other = entry) as -> by congruence. lia. }
        apply Hbest; [lia|done..].
    + split; [lia|]. exists entry. split_and!; [done..|].
      intros j other Hj Hother Hom.
      destruct (decide (j = k)) as [->|Hne].
      { assert (other = entry) as -> by congruence. lia. }
      exfalso. apply (Hres j other); [lia|done..].
  - destruct result as [r|]; simpl in *.
    + destruct Hres as (Hr & current & Hcur & Hcm & Hbest).
      split; [lia|]. exists current. split_and!; [done..|].
      intros j other Hj Hother Hom.
      destruct (decide (j = k)) as [->|Hne].
      { assert (other = entry) as -> by congruence. done. }
      apply Hbest; [lia|done..].
    + intros j other Hj Hother Hom.
      destruct (decide (j = k)) as [->|Hne].
      { assert (other = entry) as -> by congruence. done. }
      apply (Hres j other); [lia|done..].
Qed.

Lemma matching_prefix_lpm table dst k :
  (k ≤ length table)%nat →
  lpm_upto table dst k (foldl (matching_step table dst) None (seq 0 k)).
Proof.
  induction k as [|k IH]; intros Hk.
  - simpl. intros j other Hj. lia.
  - rewrite seq_S, foldl_app. simpl.
    apply matching_step_lpm; [lia|]. apply IH. lia.
Qed.

Lemma matching_loop_lpm table dst :
  lpm_upto table dst (length table) (matching_loop table dst).
Proof. apply matching_prefix_lpm. done. Qed.

Lemma get_matching_entry_loop frame w dst :
  frame_get32 frame off_ip_dst w = Some (dst, w) →
  chirouter_get_matching_entry frame w
  = Some (matching_loop (routing_table (ctx w)) dst, w).
Proof.
  intros Hdst. unfold chirouter_get_matching_entry.
  destruct (routing_table (ctx w)) as [|r table] eqn:Htable; [done|].
  unfold bind. rewrite Hdst. done.
Qed.

(** C7. Route lookup for the destination address [dst] of a frame returns
    an entry of the routing table that matches ([dest = dst & mask])
    and whose mask is the largest among all matching entries, the first
    such entry in table order when several matching entries have that
    mask; it returns none exactly when no entry matches. *)
Theorem route_lookup_longest_prefix frame w dst :
  frame_get32 frame off_ip_dst w = Some (dst, w) →
  ∃ result,
    chirouter_get_matching_entry frame w = Some (result, w) ∧
    match result with
    | Some i =>
        ∃ entry, routing_table (ctx w) !! i = Some entry ∧
          route_matches dst entry ∧
          ∀ j other, routing_table (ctx w) !! j = Some other →
            route_matches dst other →
            mask other ≤ mask entry ∧ (mask other = mask entry → (i ≤ j)%nat)
    | None =>
        ∀ j other, routing_table (ctx w) !! j = Some other →
          ¬ route_matches dst other
    end.
Proof.
  intros Hdst. eexists. split; [by apply get_matching_entry_loop|].
  pose proof (matching_loop_lpm (routing_table (ctx w)) dst) as Hlpm.
  unfold lpm_upto in Hlpm.
  destruct (matching_loop (routing_table (ctx w)) dst) as [i|].
  - destruct Hlpm as (Hi & entry & Hentry & Hm & Hbest).
    exists entry. split_and!; [done..|].
    intros j other Hother. apply Hbest; [|done].
    by apply lookup_lt_Some in Hother.
  - intros j other Hother. apply (Hlpm j); [|done].
    by apply lookup_lt_Some in Hother.
Qed.

(** ** Reads after writes *)

Lemma bytes_eq_by_lookup (n : nat) (l1 l2 : bytes) :
  length l1 = n → length l2 = n →
  (∀ i, (i < n)%nat → l1 !! i = l2 !! i) → l1 = l2.
Proof.
  intros H1 H2 Hi. apply list_eq. intros i.
  destruct (decide (i < n)%nat); [by apply Hi|].
  rewrite !lookup_ge_None_2 by lia. done.
Qed.

Lemma peek_intro (b : bytes) (off n : Z) (vs : bytes) :
  0 ≤ off → off + n ≤ blen b → blen vs = n →
  (∀ i : nat, Z.of_nat i < n → vs !! i = b !! (Z.to_nat off + i)%nat) →
  peek b off n = Some vs.
Proof.
  intros Hoff Hn Hlen Hi. pose proof (blen_nonneg vs).
  destruct (peek_is_Some b off n) as [vs' Hvs']; [lia..|].
  rewrite Hvs'. f_equal.
  pose proof (peek_blen _ _ _ _ Hvs') as Hlen'. unfold blen in *.
  apply (bytes_eq_by_lookup (Z.to_nat n)); [lia..|].
  intros i Hlt. rewrite (peek_lookup _ _ _ _ i Hvs') by lia.
  symmetry. apply Hi. lia.
Qed.

Lemma peek_poke_same (b : bytes) (off : Z) (vs b' : bytes) (off' n : Z) :
  poke b off vs = Some b' → off' = off → n = blen vs →
  peek b' off' n = Some vs.
Proof.
  intros Hp -> ->. pose proof (poke_Some _ _ _ _ Hp) as (?&?&?).
  apply peek_intro; [lia..|done|].
  intros i Hi. rewrite (poke_lookup _ _ _ _ _ Hp).
  rewrite decide_True by lia. f_equal. lia.
Qed.

Lemma peek_poke_other (b : bytes) (off : Z) (vs b' : bytes) (off' n : Z) :
  poke b off vs = Some b' →
  off' + n ≤ off ∨ off + blen vs ≤ off' →
  peek b' off' n = peek b off' n.
Proof.
  intros Hp Hdis. pose proof (poke_Some _ _ _ _ Hp) as (?&?&Hlen).
  destruct (peek b off' n) as [vs'|] eqn:Hpeek.
  - pose proof (peek_Some _ _ _ _ Hpeek) as (?&?&?&?&_).
    apply peek_intro; [lia..|].
    intros i Hi. rewrite (peek_lookup _ _ _ _ i Hpeek) by lia.
    rewrite (poke_lookup _ _ _ _ _ Hp).
    destruct (decide (n = 0)); [lia|].
    rewrite decide_False by lia. done.
  - unfold peek in *. rewrite Hlen. by case_decide.
Qed.

Lemma peek_peek (b : bytes) (w n : Z) (s : bytes) (o m : Z) :
  peek b w n = Some s → 0 ≤ o → 0 ≤ m → o + m ≤ n →
  peek s o m = peek b (w + o) m.
Proof.
  intros Hs Ho Hm Hom. pose proof (peek_Some _ _ _ _ Hs) as (?&?&?&?&_).
  destruct (peek_is_Some b (w + o) m) as [vs Hvs]; [lia..|].
  rewrite Hvs. apply peek_intro; [lia..| |].
  { by apply peek_blen in Hvs. }
  intros i Hi. rewrite (peek_lookup _ _ _ _ i Hvs) by lia.
  rewrite (peek_lookup _ _ _ _ _ Hs) by lia. f_equal. lia.
Qed.

Lemma peek_poke_inside (b : bytes) (o : Z) (vs b' : bytes) (w n : Z)
    (s : bytes) :
  poke b o vs = Some b' → peek b w n = Some s →
  w ≤ o → o + blen vs ≤ w + n →
  ∃ s', poke s (o - w) vs = Some s' ∧ peek b' w n = Some s'.
Proof.
  intros Hp Hs Hwo Hon.
  pose proof (poke_Some _ _ _ _ Hp) as (?&?&Hlen).
  pose proof (peek_Some _ _ _ _ Hs) as (?&?&?&?&_).
  destruct (poke_is_Some s (o - w) vs) as [s' Hs']; [lia..|].
  exists s'. split; [done|].
  pose proof (poke_blen _ _ _ _ Hs').
  apply peek_intro; [lia..|].
  intros i Hi. rewrite (poke_lookup _ _ _ _ _ Hs'), (poke_lookup _ _ _ _ _ Hp).
  destruct (decide (o - w ≤ Z.of_nat i < o - w + blen vs)).
  - rewrite decide_True by lia. f_equal. lia.
  - rewrite decide_False by lia. apply (peek_lookup _ _ _ _ _ Hs). lia.
Qed.

Lemma poke_poke_same (b : bytes) (o : Z) (vs b1 vs' : bytes) :
  poke b o vs = Some b1 → blen vs' = blen vs →
  poke b1 o vs' = poke b o vs'.
Proof.
  intros Hp Hlen. pose proof (poke_Some _ _ _ _ Hp) as (?&?&Hlen1).
  destruct (poke_is_Some b o vs') as [b2 Hb2]; [lia..|].
  destruct (poke_is_Some b1 o vs') as [b3 Hb3]; [lia..|].
  rewrite Hb2, Hb3. f_equal.
  pose proof (poke_blen _ _ _ _ Hb2). pose proof (poke_blen _ _ _ _ Hb3).
  unfold blen in *.
  apply (bytes_eq_by_lookup (length b)); [lia..|].
  intros i Hi. rewrite (poke_lookup _ _ _ _ _ Hb2), (poke_lookup _ _ _ _ _ Hb3).
  case_decide; [done|]. rewrite (poke_lookup _ _ _ _ _ Hp).
  rewrite decide_False; [done|]. unfold blen in *. lia.
Qed.

Lemma poke_peek_id (b : bytes) (o n : Z) (vs : bytes) :
  peek b o n = Some vs → poke b o vs = Some b.
Proof.
  intros Hs. pose proof (peek_Some _ _ _ _ Hs) as (?&?&?&?&_).
  destruct (poke_is_Some b o vs) as [b' Hb']; [lia..|].
  rewrite Hb'. f_equal. pose proof (poke_blen _ _ _ _ Hb').
  unfold blen in *. apply (bytes_eq_by_lookup (length b)); [lia..|].
  intros i Hi. rewrite (poke_lookup _ _ _ _ _ Hb').
  case_decide as Hc; [|done].
  rewrite (peek_lookup _ _ _ _ _ Hs) by (unfold blen in *; lia).
  f_equal. lia.
Qed.

Lemma zeros_Some (n : Z) (b : bytes) :
  zeros n = Some b → 0 < n ∧ blen b = n ∧ b = replicate (Z.to_nat n) 0.
Proof.
  unfold zeros. case_decide; [|done]. intros [= <-].
  unfold blen. rewrite length_replicate. split_and!; [lia..|done].
Qed.

Lemma zeros_is_Some (n : Z) : 0 < n → is_Some (zeros n).
Proof. intros. unfold zeros. rewrite decide_True by lia. eauto. Qed.

Lemma peek_zeros (n : Z) (b : bytes) (o m : Z) :
  zeros n = Some b → 0 ≤ o → 0 ≤ m → o + m ≤ n →
  peek b o m = Some (replicate (Z.to_nat m) 0).
Proof.
  intros Hz Ho Hm Hom. apply zeros_Some in Hz as (?&?&->).
  apply peek_intro; [lia..| |].
  { unfold blen. rewrite length_replicate. lia. }
  intros i Hi. rewrite !lookup_replicate_2 by lia. done.
Qed.

(** ** Checksums *)

Lemma blen_be16 v : blen (be16 v) = 2.
Proof. done. Qed.
Lemma blen_u32 v : blen (u32 v) = 4.
Proof. done. Qed.
Lemma blen_one (v : Z) : blen [v] = 1.
Proof. done. Qed.

Lemma checksummed_intro (b : bytes) (start n field : Z) (region b' : bytes) :
  peek b start n = Some region →
  peek region field 2 = Some (be16 0) →
  poke b (start + field) (be16 (cksum region)) = Some b' →
  checksummed b' start n field.
Proof.
  intros Hreg Hzero Hpoke.
  pose proof (peek_Some _ _ _ _ Hzero) as (?&?&?&?&_).
  pose proof (peek_blen _ _ _ _ Hreg).
  destruct (peek_poke_inside _ _ _ _ start n region Hpoke Hreg)
    as (s' & Hs' & Hpeek'); [rewrite ?blen_be16; lia..|].
  replace (start + field - start) with field in Hs' by lia.
  exists s', region. split_and!; [done| |].
  - rewrite (poke_poke_same _ _ _ _ _ Hs') by done.
    by apply (poke_peek_id _ _ 2).
  - by apply (peek_poke_same _ _ _ _ _ _ Hs').
Qed.

Lemma checksummed_poke (b : bytes) (off : Z) (vs b' : bytes)
    (start n field : Z) :
  poke b off vs = Some b' →
  start + n ≤ off ∨ off + blen vs ≤ start →
  checksummed b start n field → checksummed b' start n field.
Proof.
  intros Hp Hdis (region & zeroed & Hreg & Hz & Hck).
  exists region, zeroed. split_and!; [|done..].
  by rewrite (peek_poke_other _ _ _ _ _ _ Hp).
Qed.

(** ** Reasoning about computations *)

Lemma wp_run {A} (m : M A) w Q :
  wp m w Q ↔ ∃ a w', m w = Some (a, w') ∧ Q a w'.
Proof.
  unfold wp. destruct (m w) as [[a w']|].
  - split; [eauto|]. by intros (? & ? & [= <- <-] & ?).
  - split; [done|]. by intros (? & ? & ? & ?).
Qed.

Lemma wp_mono {A} (m : M A) w (Q Q' : A → world → Prop) :
  wp m w Q → (∀ a w', Q a w' → Q' a w') → wp m w Q'.
Proof. unfold wp. destruct (m w) as [[a w']|]; [|done]. eauto. Qed.

Lemma wp_ret {A} (a : A) w (Q : A → world → Prop) : Q a w → wp (ret a) w Q.
Proof. done. Qed.

Lemma wp_bind {A B} (m : M A) (k : A → M B) w (Q : B → world → Prop) :
  wp m w (λ a w', wp (k a) w' Q) → wp (bind m k) w Q.
Proof. unfold wp, bind. by destruct (m w) as [[a w']|]. Qed.

Lemma wp_lift {A} (o : option A) (a : A) w (Q : A → world → Prop) :
  o = Some a → Q a w → wp (lift o) w Q.
Proof. by intros ->. Qed.

Lemma wp_frame_peek frame off n w buf vs (Q : bytes → world → Prop) :
  heap w !! raw frame = Some buf → peek buf off n = Some vs → Q vs w →
  wp (frame_peek frame off n) w Q.
Proof. intros Hb Hp HQ. unfold wp, frame_peek. rewrite Hb. simpl. by rewrite Hp. Qed.

Lemma wp_frame_get8 frame off w buf v (Q : Z → world → Prop) :
  heap w !! raw frame = Some buf → get8 buf off = Some v → Q v w →
  wp (frame_get8 frame off) w Q.
Proof. intros Hb Hp HQ. unfold wp, frame_get8. rewrite Hb. simpl. by rewrite Hp. Qed.

Lemma wp_frame_get16 frame off w buf v (Q : Z → world → Prop) :
  heap w !! raw frame = Some buf → get16 buf off = Some v → Q v w →
  wp (frame_get16 frame off) w Q.
Proof. intros Hb Hp HQ. unfold wp, frame_get16. rewrite Hb. simpl. by rewrite Hp. Qed.

Lemma wp_frame_get32 frame off w buf v (Q : Z → world → Prop) :
  heap w !! raw frame = Some buf → get32 buf off = Some v → Q v w →
  wp (frame_get32 frame off) w Q.
Proof. intros Hb Hp HQ. unfold wp, frame_get32. rewrite Hb. simpl. by rewrite Hp. Qed.

Lemma wp_send_frame iface msg len w (Q : unit → world → Prop) :
  len = blen msg → Q tt (emit w iface msg) →
  wp (chirouter_send_frame iface msg len) w Q.
Proof.
  intros -> HQ. unfold chirouter_send_frame. apply wp_bind.
  eapply wp_lift; [apply peek_all|]. done.
Qed.

Lemma memcpy_all (dst : bytes) (doff : Z) (src : bytes) (n : Z) :
  blen src = n → memcpy dst doff src 0 n = poke dst doff src.
Proof. intros <-. unfold memcpy. by rewrite peek_all. Qed.

Lemma poke_hi4_eq (b : bytes) (off v old : Z) :
  peek b off 1 = Some [old] →
  poke_hi4 b off v
  = poke b off [Z.lor (Z.land old 15) (Z.shiftl (Z.land v 15) 4)].
Proof. intros H. unfold poke_hi4, get8. by rewrite H. Qed.

Lemma poke_lo4_eq (b : bytes) (off v old : Z) :
  peek b off 1 = Some [old] →
  poke_lo4 b off v = poke b off [Z.lor (Z.land old 240) (Z.land v 15)].
Proof. intros H. unfold poke_lo4, get8. by rewrite H. Qed.

(** The offsets and sizes as numbers. *)
Ltac consts :=
  unfold off_eth_dst, off_eth_src, off_eth_type, off_ip_vhl, off_ip_tos,
    off_ip_len, off_ip_id, off_ip_off, off_ip_ttl, off_ip_proto,
    off_ip_cksum, off_ip_src, off_ip_dst, off_icmp_type, off_icmp_code,
    off_icmp_chksum, off_icmp_identifier, off_icmp_seq_num,
    off_icmp_payload, off_arp_hrd, off_arp_pro, off_arp_hln, off_arp_pln,
    off_arp_op, off_arp_sha, off_arp_spa, off_arp_tha, off_arp_tpa,
    sizeof_ethhdr_t, sizeof_iphdr_t, ICMP_HDR_SIZE, ETHER_ADDR_LEN in *.

Create Rewrite HintDb buffer_lengths.

#[global] Hint Rewrite blen_be16 blen_u32 blen_one : buffer_lengths.

(** Side conditions on offsets and lengths. *)
Ltac bounds := autorewrite with buffer_lengths in *; lia.

(** A read from a buffer, traced back through the writes that made the
    buffer, to the write that put the bytes there or to the zeroed
    buffer. *)
Ltac peek_back :=
  repeat match goal with
  | H : poke ?b ?off ?vs = Some ?b' |- context [peek ?b' ?o ?n] =>
      first [ rewrite (peek_poke_other _ _ _ _ o n H) by bounds
            | rewrite (peek_poke_same _ _ _ _ o n H) by bounds ]
  | H : zeros ?len = Some ?b |- context [peek ?b ?o ?n] =>
      rewrite (peek_zeros _ _ o n H) by bounds
  end.

(** One step of a computation: a write into the buffer under
    construction, a read from the frame, a read from the buffer. *)
Tactic Notation "step_poke" ident(r) ident(H) :=
  lazymatch goal with
  | |- wp (bind (lift (poke ?b ?off ?vs)) _) _ _ =>
      let L := fresh "Hlen" r in
      destruct (poke_is_Some b off vs) as [r H]; [bounds..|];
      pose proof (poke_blen _ _ _ _ H) as L;
      apply wp_bind; apply (wp_lift _ _ _ _ H); cbn beta
  end.

Tactic Notation "step_frame_peek" constr(Hbuf) ident(vs) ident(H) :=
  lazymatch goal with
  | |- wp (bind (frame_peek ?f ?off ?n) _) _ _ =>
      let L := fresh "Hlen" vs in
      lazymatch type of Hbuf with
      | _ = Some ?buf =>
          destruct (peek_is_Some buf off n) as [vs H]; [bounds..|];
          pose proof (peek_blen _ _ _ _ H) as L;
          apply wp_bind; apply (wp_frame_peek _ _ _ _ _ _ _ Hbuf H); cbn beta
      end
  end.

Tactic Notation "step_peek" ident(vs) ident(H) :=
  lazymatch goal with
  | |- wp (bind (lift (peek ?b ?off ?n)) _) _ _ =>
      destruct (peek_is_Some b off n) as [vs H]; [bounds..|];
      apply wp_bind; apply (wp_lift _ _ _ _ H); cbn beta
  end.

Lemma peek_app (b : bytes) (o n m : Z) (x y : bytes) :
  peek b o n = Some x → peek b (o + n) m = Some y →
  peek b o (n + m) = Some (x ++ y).
Proof.
  intros Hx Hy.
  pose proof (peek_Some _ _ _ _ Hx) as (?&?&?&?&_).
  pose proof (peek_Some _ _ _ _ Hy) as (?&?&?&?&_).
  apply peek_intro; [lia..| |].
  { rewrite blen_app. lia. }
  intros i Hi. destruct (decide (Z.of_nat i < n)).
  - rewrite lookup_app_l by (unfold blen in *; lia).
    apply (peek_lookup _ _ _ _ _ Hx). lia.
  - rewrite lookup_app_r by (unfold blen in *; lia).
    rewrite (peek_lookup _ _ _ _ _ Hy) by (unfold blen in *; lia).
    f_equal. unfold blen in *. lia.
Qed.

(** ** [chirouter_send_icmp] *)

Lemma chirouter_send_icmp_spec type code frame w buf :
  heap w !! raw frame = Some buf →
  blen (mac (in_interface frame)) = 6 →
  icmp_trigger_ok type buf →
  wp (chirouter_send_icmp type code frame) w
    (λ _ w', ∃ reply, w' = emit w (in_interface frame) reply ∧
                      icmp_message type code frame buf reply).
Proof.
  intros Hbuf Hmac [Hlen Hecho]. unfold chirouter_send_icmp.
  (* the payload length [p] *)
  apply wp_bind.
  apply (wp_mono _ _ (λ p w', w' = w ∧ 0 ≤ p ∧
           if is_echo type
           then get16 buf off_ip_len = Some (p + 28) ∧ 42 + p ≤ blen buf
           else p = 28)).
  { destruct (is_echo type).
    - destruct (Hecho eq_refl) as (len & Hget & ? & ?).
      apply wp_bind. eapply wp_frame_get16; [done..|]. apply wp_ret.
      consts. split_and!; [done|lia| |lia]. rewrite Hget. f_equal. lia.
    - apply wp_ret. consts. split_and!; [done|lia|lia]. }
  intros p ? (-> & Hp0 & Hp).
  consts.
  destruct (zeros_is_Some (14 + 20 + 8 + p)) as [r0 Hz]; [lia|].
  pose proof (zeros_Some _ _ Hz) as (_ & Hlen0 & _).
  apply wp_bind. apply (wp_lift _ _ _ _ Hz). cbn beta.
  (* Ethernet header *)
  step_frame_peek Hbuf fsrc Hfsrc. step_poke r1 H1.
  rewrite memcpy_all by done. step_poke r2 H2. step_poke r3 H3.
  (* IP header *)
  erewrite poke_hi4_eq by (peek_back; reflexivity). step_poke r4 H4.
  step_poke r5 H5. step_poke r6 H6.
  step_frame_peek Hbuf ipsrc Hipsrc. step_poke r7 H7.
  step_poke r8 H8. step_poke r9 H9. step_poke r10 H10. step_poke r11 H11.
  erewrite poke_lo4_eq by (peek_back; reflexivity). step_poke r12 H12.
  step_poke r13 H13. step_poke r14 H14.
  step_peek hdr Hhdr. step_poke r15 H15.
  (* ICMP header *)
  step_poke r16 H16. step_poke r17 H17. step_poke r18 H18.
  (* ICMP body: the buffer [r] after it agrees with [r18] before offset 38 *)
  apply wp_bind.
  apply (wp_mono _ _ (λ r w', w' = w ∧ blen r = 42 + p ∧
           (∀ o n, o + n ≤ 38 → peek r o n = peek r18 o n) ∧
           if is_echo type
           then code = 0 → peek r 38 (4 + p) = peek buf 38 (4 + p)
           else peek r 38 4 = Some [0; 0; 0; 0] ∧
                peek r 42 28 = peek buf 14 28)).
  { destruct (is_echo type).
    - destruct Hp as [Hget Hp1]. destruct (Z.eqb_spec code 0) as [Hc|Hc].
      + step_frame_peek Hbuf ident Hident. step_poke r19 H19.
        step_frame_peek Hbuf seqn Hseqn. step_poke r20 H20.
        step_frame_peek Hbuf payload Hpayload.
        destruct (poke_is_Some r20 42 payload) as [r Hr]; [bounds..|].
        pose proof (poke_blen _ _ _ _ Hr).
        apply (wp_lift _ _ _ _ Hr). split_and!; [done|lia| |].
        * intros o n Hon. by peek_back.
        * intros _. replace (4 + p) with (2 + (2 + p)) by lia.
          rewrite (peek_app buf 38 2 (2 + p) ident (seqn ++ payload));
            [|done|by apply peek_app].
          apply peek_app; [by peek_back|].
          apply peek_app; by peek_back.
      + apply wp_ret. split_and!; [done|lia|done|done].
    - subst p.
      assert (wp (let! payload := frame_peek frame 14 28
                  in lift (poke r18 42 payload)) w
                (λ r w', w' = w ∧ blen r = 42 + 28 ∧
                   (∀ o n, o + n ≤ 38 → peek r o n = peek r18 o n) ∧
                   peek r 38 4 = Some [0; 0; 0; 0] ∧
                   peek r 42 28 = peek buf 14 28)) as Hcopy.
      { step_frame_peek Hbuf payload Hpayload.
        destruct (poke_is_Some r18 42 payload) as [r Hr]; [bounds..|].
        pose proof (poke_blen _ _ _ _ Hr).
        apply (wp_lift _ _ _ _ Hr). split_and!; [done|lia| | |].
        - intros o n Hon. by peek_back.
        - by peek_back.
        - by peek_back. }
      by destruct (type =? ICMPTYPE_DEST_UNREACHABLE). }
  intros r19 ? (-> & Hlen19 & Hagree & Hbody).
  (* ICMP checksum, and sending *)
  step_peek icmp Hicmp. step_poke r20 H20. apply wp_send_frame; [lia|].
  exists r20. split; [done|].
  assert (∀ o n, o + n ≤ 36 → peek r20 o n = peek r18 o n) as Hback.
  { intros o n Hon. rewrite (peek_poke_other _ _ _ _ o n H20) by bounds.
    apply Hagree. lia. }
  assert (blen r20 = 42 + p) as Hlen20 by lia.
  constructor; consts; unfold get8, get16; rewrite ?Hlen20.
  - rewrite Hback by lia. peek_back. done.
  - rewrite Hback by lia. by peek_back.
  - rewrite Hback by lia. by peek_back.
  - rewrite Hback by lia. by peek_back.
  - rewrite Hback by lia. by peek_back.
  - rewrite Hback by lia. peek_back. destruct (is_echo type); [done|].
    subst p. done.
  - rewrite Hback by lia. by peek_back.
  - rewrite Hback by lia. by peek_back.
  - rewrite Hback by lia. by peek_back.
  - rewrite Hback by lia. by peek_back.
  - rewrite Hback by lia. by peek_back.
  - rewrite Hback by lia. peek_back. done.
  - assert (checksummed r18 14 20 10) as (region & zeroed & Hr & Hz' & Hc).
    { repeat (eapply checksummed_poke; [eassumption|bounds|]).
      apply (checksummed_intro r14 14 20 10 hdr); [done| |done].
      rewrite (peek_peek _ _ _ _ 10 2 Hhdr) by lia. by peek_back. }
    exists region, zeroed. split_and!; [|done..].
    rewrite Hback by lia. done.
  - rewrite Hback by lia. by peek_back.
  - rewrite Hback by lia. by peek_back.
  - replace (42 + p - 34) with (8 + p) by lia.
    apply (checksummed_intro r19 34 (8 + p) 2 icmp); [done| |done].
    rewrite (peek_peek _ _ _ _ 2 2 Hicmp) by lia.
    rewrite Hagree by lia. by peek_back.
  - destruct (is_echo type).
    + exists (p + 28). split; [tauto|lia].
    + lia.
  - destruct (is_echo type).
    + intros Hc. replace (42 + p - 38) with (4 + p) by lia.
      rewrite (peek_poke_other _ _ _ _ 38 (4 + p) H20) by bounds. auto.
    + destruct Hbody as [Hb1 Hb2]. split.
      * by rewrite (peek_poke_other _ _ _ _ 38 4 H20) by bounds.
      * by rewrite (peek_poke_other _ _ _ _ 42 28 H20) by bounds.
Qed.

Lemma peek_poke_within (b : bytes) (off : Z) (vs b' : bytes) (o n : Z) :
  poke b off vs = Some b' → off ≤ o → 0 ≤ n → o + n ≤ off + blen vs →
  peek b' o n = peek vs (o - off) n.
Proof.
  intros Hp Ho Hn Hon. pose proof (poke_Some _ _ _ _ Hp) as (?&?&?).
  destruct (peek_is_Some vs (o - off) n) as [s Hs]; [lia..|].
  rewrite Hs. apply peek_intro; [lia..| |].
  { by apply peek_blen in Hs. }
  intros i Hi. rewrite (peek_lookup _ _ _ _ _ Hs) by lia.
  rewrite (poke_lookup _ _ _ _ _ Hp), decide_True by lia. f_equal. lia.
Qed.

(** ** [forward_ip_datagram] *)

Lemma wp_get_matching_entry frame w buf dst (Q : option nat → world → Prop) :
  heap w !! raw frame = Some buf → get32 buf off_ip_dst = Some dst →
  Q (matching_loop (routing_table (ctx w)) dst) w →
  wp (chirouter_get_matching_entry frame) w Q.
Proof.
  intros Hbuf Hdst HQ. unfold wp.
  rewrite (get_matching_entry_loop frame w dst); [done|].
  unfold frame_get32. rewrite Hbuf. simpl. by rewrite Hdst.
Qed.

Lemma wp_rtable_deref i route w (Q : chirouter_rtable_entry_t → world → Prop) :
  routing_table (ctx w) !! i = Some route → Q route w →
  wp (rtable_deref (Some i)) w Q.
Proof. intros Hr HQ. unfold wp, rtable_deref. simpl. by rewrite Hr. Qed.

Lemma get8_peek (b : bytes) (off : Z) :
  0 ≤ off → off + 1 ≤ blen b →
  ∃ v, peek b off 1 = Some [v] ∧ get8 b off = Some v.
Proof.
  intros Ho Hb. destruct (peek_is_Some b off 1) as [vs Hvs]; [lia..|].
  pose proof (peek_blen _ _ _ _ Hvs) as Hlen. unfold get8. rewrite Hvs.
  destruct vs as [|v [|? ?]]; try (by unfold blen in Hlen; simpl in Hlen; lia).
  by exists v.
Qed.

Lemma forward_ip_datagram_spec frame dst_mac w buf route :
  heap w !! raw frame = Some buf →
  route_of (routing_table (ctx w)) buf route →
  forward_trigger_ok frame buf →
  blen dst_mac = 6 →
  blen (mac (interface route)) = 6 →
  wp (forward_ip_datagram frame dst_mac) w
    (λ _ w', ∃ msg, w' = emit w (interface route) msg ∧
                    forwarded frame buf dst_mac route msg).
Proof.
  intros Hbuf (dst & i & Hdst & Hloop & Hroute)
    (Hflen & Hblen & len & Hget & Hl0 & Hl1 & Hl2) Hdmac Hsmac.
  unfold forward_ip_datagram. consts.
  apply wp_bind. eapply wp_get_matching_entry; [done..|]. rewrite Hloop.
  destruct (zeros_is_Some (frame_length frame)) as [m0 Hz]; [lia|].
  pose proof (zeros_Some _ _ Hz) as (_ & Hlen0 & _).
  apply wp_bind. apply (wp_lift _ _ _ _ Hz). cbn beta.
  (* Ethernet header *)
  rewrite memcpy_all by done. step_poke m1 H1.
  apply wp_bind. eapply wp_rtable_deref; [done|].
  rewrite memcpy_all by done. step_poke m2 H2. step_poke m3 H3.
  (* IP datagram *)
  apply wp_bind. eapply wp_frame_get16; [done..|].
  step_frame_peek Hbuf datagram Hdatagram. step_poke m4 H4.
  (* TTL and checksum *)
  destruct (get8_peek buf 22) as (ttl & Httlb & Httl); [lia..|].
  apply wp_bind. eapply wp_frame_get8; [done..|].
  step_poke m5 H5. step_poke m6 H6. step_peek hdr Hhdr. step_poke m7 H7.
  apply wp_send_frame; [lia|].
  exists m7. split; [done|].
  constructor; consts; unfold get8, get16.
  - lia.
  - by peek_back.
  - by peek_back.
  - by peek_back.
  - exists ttl. split; [done|]. by peek_back.
  - apply (checksummed_intro m6 14 20 10 hdr); [done| |done].
    rewrite (peek_peek _ _ _ _ 10 2 Hhdr) by lia. by peek_back.
  - exists len. split; [done|]. intros o n Ho Hon Hwhere.
    destruct (decide (0 ≤ n)) as [Hn|Hn].
    + rewrite (peek_poke_other _ _ _ _ o n H7) by bounds.
      rewrite (peek_poke_other _ _ _ _ o n H6) by bounds.
      rewrite (peek_poke_other _ _ _ _ o n H5) by bounds.
      rewrite (peek_poke_within _ _ _ _ o n H4) by lia.
      rewrite (peek_peek _ _ _ _ (o - 14) n Hdatagram) by lia.
      f_equal. lia.
    + unfold peek. rewrite !decide_False by lia. done.
Qed.

(** ** Statements and conversions *)

Lemma wp_exec (m : M unit) w (Q : completion → world → Prop) :
  wp m w (λ _ w', Q Normal w') → wp (exec m) w Q.
Proof. intros H. unfold exec. apply wp_bind. exact H. Qed.

Lemma wp_seq_stmt (s1 s2 : M completion) w (Q : completion → world → Prop) :
  wp s1 w (λ c w', match c with
                   | Normal => wp s2 w' Q
                   | Return v => Q (Return v) w'
                   end) →
  wp (seq_stmt s1 s2) w Q.
Proof.
  intros H. unfold seq_stmt. apply wp_bind.
  eapply wp_mono; [exact H|]. by intros [|v] w'.
Qed.

Lemma of_be16_be16 (v : Z) : 0 ≤ v < 65536 → of_be16 (be16 v) = v.
Proof. intros Hv. unfold of_be16, be16. Z.div_mod_to_equations. lia. Qed.

Lemma of_u32_u32 (v : Z) : 0 ≤ v < 4294967296 → of_u32 (u32 v) = v.
Proof. intros Hv. unfold of_u32, u32. Z.div_mod_to_equations. lia. Qed.

(** ** Frames addressed to the router *)

Lemma wp_frame_comes_to_router frame w buf proto ttl
    (Q : completion → world → Prop) :
  heap w !! raw frame = Some buf →
  get8 buf off_ip_proto = Some proto →
  get8 buf off_ip_ttl = Some ttl →
  (if (proto =? IPPROTO_TCP) || (proto =? IPPROTO_UDP)
   then wp (chirouter_send_icmp ICMPTYPE_DEST_UNREACHABLE
              ICMPCODE_DEST_PORT_UNREACHABLE frame) w (λ _, Q Normal)
   else if ttl =? 1
   then wp (chirouter_send_icmp ICMPTYPE_TIME_EXCEEDED 0 frame) w
          (λ _, Q Normal)
   else if proto =? IPPROTO_ICMP
   then ∃ icmp_type, get8 buf off_icmp_type = Some icmp_type ∧
          if icmp_type =? ICMPTYPE_ECHO_REQUEST
          then wp (chirouter_send_icmp ICMPTYPE_ECHO_REPLY 0 frame) w
                 (λ _, Q Normal)
          else Q Normal w
   else wp (chirouter_send_icmp ICMPTYPE_DEST_UNREACHABLE
              ICMPCODE_DEST_PROTOCOL_UNREACHABLE frame) w (λ _, Q Normal)) →
  wp (frame_comes_to_router frame) w Q.
Proof.
  intros Hbuf Hproto Httl H. unfold frame_comes_to_router.
  apply wp_bind. eapply wp_frame_get8; [done..|].
  destruct ((proto =? IPPROTO_TCP) || (proto =? IPPROTO_UDP)).
  { by apply wp_exec. }
  apply wp_bind. eapply wp_frame_get8; [done..|].
  destruct (ttl =? 1). { by apply wp_exec. }
  destruct (proto =? IPPROTO_ICMP); [|by apply wp_exec].
  destruct H as (icmp_type & Hty & H).
  apply wp_bind. eapply wp_frame_get8; [done..|].
  destruct (icmp_type =? ICMPTYPE_ECHO_REQUEST); [by apply wp_exec|].
  by apply wp_ret.
Qed.

Lemma wp_process_ip_for_this_interface e frame w buf
    (Q : completion → world → Prop) :
  heap w !! raw frame = Some buf →
  ip_for_this_interface frame buf →
  wp (frame_comes_to_router frame) w
    (λ c w', match c with
             | Normal => Q (Return 0) w'
             | Return v => Q (Return v) w'
             end) →
  wp (chirouter_process_ethernet_frame e frame) w Q.
Proof.
  intros Hbuf [Hty Hdst] H. unfold chirouter_process_ethernet_frame.
  assert (∃ t, get16 buf off_eth_type = Some t ∧
               (t =? ETHERTYPE_IP) || (t =? ETHERTYPE_IPV6) = true)
    as (t & Ht & Hcond).
  { destruct Hty as [Hty|Hty]; eexists; (split; [exact Hty|done]). }
  apply wp_bind. eapply wp_frame_get16; [done..|]. rewrite Hcond.
  apply wp_seq_stmt. apply wp_bind. eapply wp_frame_get32; [done..|].
  rewrite Z.eqb_refl. eapply wp_mono; [exact H|].
  intros [|v] w' HQ; [by apply wp_ret|done].
Qed.

(** C9. Every ICMP message that [chirouter_send_icmp] builds is sent on
    the interface the trigger frame arrived on; its destination MAC is
    the trigger frame's source MAC, its source MAC and source IP are the
    ingress interface's, its destination IP is the trigger frame's source
    IP; TTL = 64, protocol = 1, version = 4, ihl = 5, id = 0, off = 0,
    tos = 0; and the IP header checksum and the ICMP checksum are those of
    the newly built IP header (20 bytes) and ICMP message (all bytes after
    the IP header). *)
Theorem icmp_message_addressing type code frame w buf :
  heap w !! raw frame = Some buf →
  blen (mac (in_interface frame)) = 6 →
  0 ≤ ip (in_interface frame) < 4294967296 →
  icmp_trigger_ok type buf →
  ∃ reply,
    chirouter_send_icmp type code frame w
    = Some (tt, emit w (in_interface frame) reply) ∧
    peek reply off_eth_dst 6 = peek buf off_eth_src 6 ∧
    peek reply off_eth_src 6 = Some (mac (in_interface frame)) ∧
    get32 reply off_ip_src = Some (ip (in_interface frame)) ∧
    get32 reply off_ip_dst = get32 buf off_ip_src ∧
    get8 reply off_ip_ttl = Some 64 ∧
    get8 reply off_ip_proto = Some 1 ∧
    get_hi4 reply off_ip_vhl = Some 4 ∧
    get_lo4 reply off_ip_vhl = Some 5 ∧
    get16 reply off_ip_id = Some 0 ∧
    get16 reply off_ip_off = Some 0 ∧
    get8 reply off_ip_tos = Some 0 ∧
    checksummed reply sizeof_ethhdr_t sizeof_iphdr_t 10 ∧
    checksummed reply off_icmp_type (blen reply - off_icmp_type) 2.
Proof.
  intros Hbuf Hmac Hip Hok.
  pose proof (chirouter_send_icmp_spec type code frame w buf Hbuf Hmac Hok)
    as Hwp.
  apply wp_run in Hwp as ([] & w' & Hrun & reply & -> & Hmsg).
  exists reply. destruct Hmsg. split_and!; try done.
  - unfold get32. rewrite icmp_ip_src0. simpl. by rewrite of_u32_u32.
  - unfold get32. by rewrite icmp_ip_dst0.
  - unfold get_hi4. by rewrite icmp_ip_vhl0.
  - unfold get_lo4. by rewrite icmp_ip_vhl0.
Qed.

(** What the echo reply is made of, by the offsets router.c uses: when
    the byte at [off_icmp_type] of a frame for the ingress interface's IP
    is the type of an echo request, the reply has an IP header without
    options and the bytes of the frame from [off_icmp_identifier] to the
    end of the datagram, at the same offsets. *)
Lemma echo_reply_copies_bytes e frame w buf ttl len :
  heap w !! raw frame = Some buf →
  ip_for_this_interface frame buf →
  get8 buf off_ip_proto = Some IPPROTO_ICMP →
  get8 buf off_ip_ttl = Some ttl → ttl ≠ 1 →
  get8 buf off_icmp_type = Some ICMPTYPE_ECHO_REQUEST →
  get16 buf off_ip_len = Some len →
  sizeof_iphdr_t + ICMP_HDR_SIZE ≤ len →
  sizeof_ethhdr_t + len ≤ blen buf →
  sizeof_ethhdr_t ≤ frame_length frame < sizeof_ethhdr_t + 65536 →
  blen (mac (in_interface frame)) = 6 →
  ∃ reply,
    chirouter_process_ethernet_frame e frame w
    = Some (Return 0, emit w (in_interface frame) reply) ∧
    get8 reply off_ip_vhl = Some (4 * 16 + 5) ∧
    get8 reply off_icmp_type = Some ICMPTYPE_ECHO_REPLY ∧
    get8 reply off_icmp_code = Some 0 ∧
    peek reply off_icmp_identifier 2 = peek buf off_icmp_identifier 2 ∧
    peek reply off_icmp_seq_num 2 = peek buf off_icmp_seq_num 2 ∧
    blen reply = sizeof_ethhdr_t + len ∧
    peek reply off_icmp_payload (blen reply - off_icmp_payload)
    = peek buf off_icmp_payload (blen reply - off_icmp_payload) ∧
    get16 reply off_ip_len = Some (frame_length frame - sizeof_ethhdr_t).
Proof.
  intros Hbuf Hfor Hproto Httl Hne Hty Hlen Hl1 Hl2 Hfl Hmac.
  assert (wp (chirouter_process_ethernet_frame e frame) w
            (λ c w', c = Return 0 ∧
               sent_icmp ICMPTYPE_ECHO_REPLY 0 frame buf w w')) as Hwp.
  { apply (wp_process_ip_for_this_interface e frame w buf); [done..|].
    apply (wp_frame_comes_to_router frame w buf IPPROTO_ICMP ttl); [done..|].
    simpl. destruct (Z.eqb_spec ttl 1) as [|_]; [done|].
    exists ICMPTYPE_ECHO_REQUEST. split; [done|]. simpl.
    eapply wp_mono.
    - apply (chirouter_send_icmp_spec _ _ _ _ buf); [done..|].
      consts. split; [lia|]. intros _. exists len. split_and!; [done|lia..].
    - intros [] w' Hsent. done. }
  apply wp_run in Hwp as (c & w' & Hrun & -> & reply & -> & Hmsg).
  exists reply. split; [done|]. destruct Hmsg. simpl in *.
  destruct icmp_blen0 as (len' & Hlen' & Hblen).
  assert (len' = len) as -> by congruence.
  specialize (icmp_body0 eq_refl). consts.
  assert (peek reply 38 (len - 24) = peek buf 38 (len - 24)) as Hbody.
  { rewrite Hblen in icmp_body0.
    by replace (14 + len - 38) with (len - 24) in icmp_body0 by lia. }
  destruct (peek_is_Some buf 38 (len - 24)) as [body Hb]; [lia..|].
  rewrite Hb in Hbody.
  assert (∀ o m, 0 ≤ o → 0 ≤ m → o + m ≤ len - 24 →
            peek reply (38 + o) m = peek buf (38 + o) m) as Hsame.
  { intros o m Ho Hm Hom. rewrite <- (peek_peek _ _ _ _ o m Hbody) by lia.
    by rewrite <- (peek_peek _ _ _ _ o m Hb) by lia. }
  split_and!; try done.
  - apply (Hsame 0 2); lia.
  - apply (Hsame 2 2); lia.
  - rewrite Hblen. replace (14 + len - 42) with (len - 28) by lia.
    apply (Hsame 4 (len - 28)); lia.
  - unfold get16. rewrite icmp_ip_len0. simpl. rewrite of_be16_be16; [done|].
    lia.
Qed.

Lemma icmp_start_no_options (buf : bytes) :
  get_lo4 buf off_ip_vhl = Some 5 → icmp_start buf = Some off_icmp_type.
Proof. intros Hihl. unfold icmp_start. by rewrite Hihl. Qed.

(** C8, for a request without IP options. The echo reply that answers an
    echo request addressed to the ingress interface's IP, in a datagram
    whose IP header has no options ([ihl] = 5), carries the request's
    ICMP identifier, sequence number and payload (all the bytes of the
    datagram after the ICMP header) unchanged, and its IP total-length
    field is the frame's length minus the size of the Ethernet header.
    The fields are read where the ICMP packet of each datagram begins,
    after [4 * ihl] bytes of IP header. *)
Theorem echo_reply_preserves_request e frame w buf ttl len :
  heap w !! raw frame = Some buf →
  ip_for_this_interface frame buf →
  get_lo4 buf off_ip_vhl = Some 5 →
  get8 buf off_ip_proto = Some IPPROTO_ICMP →
  get8 buf off_ip_ttl = Some ttl → ttl ≠ 1 →
  icmp_type_of buf = Some ICMPTYPE_ECHO_REQUEST →
  get16 buf off_ip_len = Some len →
  sizeof_iphdr_t + ICMP_HDR_SIZE ≤ len →
  sizeof_ethhdr_t + len ≤ blen buf →
  sizeof_ethhdr_t ≤ frame_length frame < sizeof_ethhdr_t + 65536 →
  blen (mac (in_interface frame)) = 6 →
  ∃ reply identifier seq_num payload,
    chirouter_process_ethernet_frame e frame w
    = Some (Return 0, emit w (in_interface frame) reply) ∧
    icmp_type_of reply = Some ICMPTYPE_ECHO_REPLY ∧
    echo_identifier_of buf = Some identifier ∧
    echo_identifier_of reply = Some identifier ∧
    echo_seq_num_of buf = Some seq_num ∧
    echo_seq_num_of reply = Some seq_num ∧
    echo_payload_of buf (len - sizeof_iphdr_t - ICMP_HDR_SIZE)
    = Some payload ∧
    echo_payload_of reply (len - sizeof_iphdr_t - ICMP_HDR_SIZE)
    = Some payload ∧
    blen reply = sizeof_ethhdr_t + len ∧
    get16 reply off_ip_len = Some (frame_length frame - sizeof_ethhdr_t).
Proof.
  intros Hbuf Hfor Hihl Hproto Httl Hne Hty Hlen Hl1 Hl2 Hfl Hmac.
  pose proof (icmp_start_no_options buf Hihl) as Hstart.
  assert (get8 buf off_icmp_type = Some ICMPTYPE_ECHO_REQUEST) as Hty'.
  { unfold icmp_type_of in Hty. by rewrite Hstart in Hty. }
  destruct (echo_reply_copies_bytes e frame w buf ttl len)
    as (reply & Hrun & Hvhl' & Htype & _ & Hid & Hseq & Hblen & Hpay & Hiplen);
    [done..|].
  assert (icmp_start reply = Some off_icmp_type) as Hstart'.
  { apply icmp_start_no_options. unfold get_lo4. by rewrite Hvhl'. }
  rewrite Hblen in Hpay.
  destruct (peek_is_Some buf off_icmp_identifier 2) as [identifier Hi];
    [consts; lia..|].
  destruct (peek_is_Some buf off_icmp_seq_num 2) as [seq_num Hs];
    [consts; lia..|].
  destruct (peek_is_Some buf off_icmp_payload
              (len - sizeof_iphdr_t - ICMP_HDR_SIZE)) as [payload Hp];
    [consts; lia..|].
  exists reply, identifier, seq_num, payload.
  unfold icmp_type_of, echo_identifier_of, echo_seq_num_of,
    echo_payload_of.
  rewrite Hstart, Hstart'. simpl.
  change (off_icmp_type + 4) with off_icmp_identifier.
  change (off_icmp_type + 6) with off_icmp_seq_num.
  change (off_icmp_type + ICMP_HDR_SIZE) with off_icmp_payload.
  replace (sizeof_ethhdr_t + len - off_icmp_payload)
    with (len - sizeof_iphdr_t - ICMP_HDR_SIZE) in Hpay by (consts; lia).
  rewrite Hid, Hseq, Hpay. done.
Qed.

(** The answers to a frame addressed to the ingress interface's IP, by
    the offsets router.c uses: TCP or UDP is answered with destination
    unreachable, code port unreachable; otherwise ttl = 1 is answered
    with time exceeded; otherwise, for the protocol ICMP, an echo reply
    is sent when the byte at [off_icmp_type] is the type of an echo
    request and nothing is sent when it is not; any other protocol is
    answered with destination unreachable, code protocol unreachable.  In
    each case the call returns 0. *)
Lemma local_delivery_by_type_byte e frame w buf proto ttl icmp_type :
  heap w !! raw frame = Some buf →
  ip_for_this_interface frame buf →
  get8 buf off_ip_proto = Some proto →
  get8 buf off_ip_ttl = Some ttl →
  get8 buf off_icmp_type = Some icmp_type →
  blen (mac (in_interface frame)) = 6 →
  icmp_trigger_ok ICMPTYPE_DEST_UNREACHABLE buf →
  (proto = IPPROTO_ICMP → icmp_type = ICMPTYPE_ECHO_REQUEST → ttl ≠ 1 →
   icmp_trigger_ok ICMPTYPE_ECHO_REPLY buf) →
  ∃ w',
    chirouter_process_ethernet_frame e frame w = Some (Return 0, w') ∧
    (proto = IPPROTO_TCP ∨ proto = IPPROTO_UDP →
     sent_icmp ICMPTYPE_DEST_UNREACHABLE ICMPCODE_DEST_PORT_UNREACHABLE
       frame buf w w') ∧
    (proto ≠ IPPROTO_TCP → proto ≠ IPPROTO_UDP → ttl = 1 →
     sent_icmp ICMPTYPE_TIME_EXCEEDED 0 frame buf w w') ∧
    (proto = IPPROTO_ICMP → ttl ≠ 1 → icmp_type = ICMPTYPE_ECHO_REQUEST →
     sent_icmp ICMPTYPE_ECHO_REPLY 0 frame buf w w') ∧
    (proto = IPPROTO_ICMP → ttl ≠ 1 → icmp_type ≠ ICMPTYPE_ECHO_REQUEST →
     w' = w) ∧
    (proto ≠ IPPROTO_TCP → proto ≠ IPPROTO_UDP → proto ≠ IPPROTO_ICMP →
     ttl ≠ 1 →
     sent_icmp ICMPTYPE_DEST_UNREACHABLE ICMPCODE_DEST_PROTOCOL_UNREACHABLE
       frame buf w w').
Proof.
  intros Hbuf Hfor Hproto Httl Hty Hmac Hok Hecho.
  assert (icmp_trigger_ok ICMPTYPE_TIME_EXCEEDED buf) as Hok'.
  { destruct Hok as [Hok _]. by split. }
  pose proof (λ code, chirouter_send_icmp_spec ICMPTYPE_DEST_UNREACHABLE code
                        frame w buf Hbuf Hmac Hok) as Hunreach.
  pose proof (chirouter_send_icmp_spec ICMPTYPE_TIME_EXCEEDED 0
                frame w buf Hbuf Hmac Hok') as Htime.
  set (P := λ w',
        (proto = IPPROTO_TCP ∨ proto = IPPROTO_UDP →
         sent_icmp ICMPTYPE_DEST_UNREACHABLE ICMPCODE_DEST_PORT_UNREACHABLE
           frame buf w w') ∧
        (proto ≠ IPPROTO_TCP → proto ≠ IPPROTO_UDP → ttl = 1 →
         sent_icmp ICMPTYPE_TIME_EXCEEDED 0 frame buf w w') ∧
        (proto = IPPROTO_ICMP → ttl ≠ 1 →
         icmp_type = ICMPTYPE_ECHO_REQUEST →
         sent_icmp ICMPTYPE_ECHO_REPLY 0 frame buf w w') ∧
        (proto = IPPROTO_ICMP → ttl ≠ 1 →
         icmp_type ≠ ICMPTYPE_ECHO_REQUEST → w' = w) ∧
        (proto ≠ IPPROTO_TCP → proto ≠ IPPROTO_UDP →
         proto ≠ IPPROTO_ICMP → ttl ≠ 1 →
         sent_icmp ICMPTYPE_DEST_UNREACHABLE
           ICMPCODE_DEST_PROTOCOL_UNREACHABLE frame buf w w')).
  assert (wp (chirouter_process_ethernet_frame e frame) w
            (λ c w', c = Return 0 ∧ P w')) as Hwp; last first.
  { apply wp_run in Hwp as (c & w' & Hrun & -> & HP). by exists w'. }
  apply (wp_process_ip_for_this_interface e frame w buf); [done..|].
  apply (wp_mono _ _ (λ c w', c = Normal ∧ P w')); last first.
  { by intros c w' [-> HP]. }
  apply (wp_frame_comes_to_router frame w buf proto ttl); [done..|].
  unfold P.
  unfold IPPROTO_TCP, IPPROTO_UDP, IPPROTO_ICMP, ICMPTYPE_ECHO_REQUEST
    in *.
  destruct (Z.eqb_spec proto 6) as [Htcp|Htcp];
    [|destruct (Z.eqb_spec proto 17) as [Hudp|Hudp]]; simpl.
  - eapply wp_mono; [apply Hunreach|]. intros [] w' Hs.
    split; [done|]. split_and!; intros; (done || lia).
  - eapply wp_mono; [apply Hunreach|]. intros [] w' Hs.
    split; [done|]. split_and!; intros; (done || lia).
  - destruct (Z.eqb_spec ttl 1) as [Hone|Hone].
    { eapply wp_mono; [apply Htime|]. intros [] w' Hs.
      split; [done|]. split_and!; intros; (done || lia). }
    destruct (Z.eqb_spec proto 1) as [Hicmp|Hicmp].
    + exists icmp_type. split; [done|].
      destruct (Z.eqb_spec icmp_type 8) as [Hreq|Hreq].
      { eapply wp_mono.
        - apply (chirouter_send_icmp_spec _ _ _ _ buf); [done..|].
          by apply Hecho.
        - intros [] w' Hs. split; [done|].
          split_and!; intros; (done || lia). }
      split; [done|]. split_and!; intros; (done || lia).
    + eapply wp_mono; [apply Hunreach|]. intros [] w' Hs.
      split; [done|]. split_and!; intros; (done || lia).
Qed.

Lemma get8_is_Some (b : bytes) (off : Z) :
  0 ≤ off → off + 1 ≤ blen b → is_Some (get8 b off).
Proof.
  intros Hoff Hlen. destruct (peek_is_Some b off 1) as [vs Hvs]; [lia..|].
  unfold get8. rewrite Hvs. simpl. apply peek_blen in Hvs.
  destruct vs as [|v vs]; [done|]. by exists v.
Qed.

(** C2, as the code has it. For a frame addressed to the ingress
    interface's IP: TCP or UDP is answered with destination unreachable,
    code port unreachable; otherwise ttl = 1 is answered with time
    exceeded; otherwise, for the protocol ICMP, an echo reply is sent
    when the byte at offset 20 of the IP header ([off_icmp_type]) is the
    type of an echo request and nothing is sent when it is not, so that
    in a datagram whose IP header has no options ([ihl] = 5) an echo
    request is answered with an echo reply and any other ICMP message is
    not answered at all; and any protocol other than TCP, UDP and ICMP is
    answered with destination unreachable, code protocol unreachable.  In
    each case the call returns 0.  [icmp_type_of] is the ICMP type read
    where the ICMP packet of the datagram begins, after [4 * ihl] bytes
    of IP header. *)
Theorem local_delivery_answers e frame w buf proto ttl :
  heap w !! raw frame = Some buf →
  ip_for_this_interface frame buf →
  get8 buf off_ip_proto = Some proto →
  get8 buf off_ip_ttl = Some ttl →
  blen (mac (in_interface frame)) = 6 →
  icmp_trigger_ok ICMPTYPE_DEST_UNREACHABLE buf →
  (proto = IPPROTO_ICMP → ttl ≠ 1 →
   get8 buf off_icmp_type = Some ICMPTYPE_ECHO_REQUEST →
   icmp_trigger_ok ICMPTYPE_ECHO_REPLY buf) →
  ∃ w',
    chirouter_process_ethernet_frame e frame w = Some (Return 0, w') ∧
    (proto = IPPROTO_TCP ∨ proto = IPPROTO_UDP →
     sent_icmp ICMPTYPE_DEST_UNREACHABLE ICMPCODE_DEST_PORT_UNREACHABLE
       frame buf w w') ∧
    (proto ≠ IPPROTO_TCP → proto ≠ IPPROTO_UDP → ttl = 1 →
     sent_icmp ICMPTYPE_TIME_EXCEEDED 0 frame buf w w') ∧
    (proto = IPPROTO_ICMP → ttl ≠ 1 →
     get8 buf off_icmp_type = Some ICMPTYPE_ECHO_REQUEST →
     sent_icmp ICMPTYPE_ECHO_REPLY 0 frame buf w w') ∧
    (proto = IPPROTO_ICMP → ttl ≠ 1 →
     get8 buf off_icmp_type ≠ Some ICMPTYPE_ECHO_REQUEST →
     w' = w) ∧
    (proto = IPPROTO_ICMP → ttl ≠ 1 → get_lo4 buf off_ip_vhl = Some 5 →
     icmp_type_of buf = Some ICMPTYPE_ECHO_REQUEST →
     sent_icmp ICMPTYPE_ECHO_REPLY 0 frame buf w w') ∧
    (proto = IPPROTO_ICMP → ttl ≠ 1 → get_lo4 buf off_ip_vhl = Some 5 →
     icmp_type_of buf ≠ Some ICMPTYPE_ECHO_REQUEST →
     w' = w) ∧
    (proto ≠ IPPROTO_TCP → proto ≠ IPPROTO_UDP → proto ≠ IPPROTO_ICMP →
     ttl ≠ 1 →
     sent_icmp ICMPTYPE_DEST_UNREACHABLE ICMPCODE_DEST_PROTOCOL_UNREACHABLE
       frame buf w w').
Proof.
  intros Hbuf Hfor Hproto Httl Hmac Hok Hecho.
  destruct (get8_is_Some buf off_icmp_type) as [icmp_type Hty].
  { consts. lia. }
  { destruct Hok as [Hlen _]. consts. lia. }
  destruct (local_delivery_by_type_byte e frame w buf proto ttl icmp_type)
    as (w' & Hrun & Hport & Htime & Hreply & Hnone & Hother); [done..| |].
  { intros Hicmp -> Hne. by apply Hecho. }
  assert (get_lo4 buf off_ip_vhl = Some 5 →
          icmp_type_of buf = Some icmp_type) as Hstart.
  { intros Hihl. unfold icmp_type_of.
    by rewrite (icmp_start_no_options buf Hihl). }
  exists w'. split_and!; [done..| | | | |done].
  - intros Hicmp Hne Hreq. apply Hreply; [done..|]. congruence.
  - intros Hicmp Hne Hreq. apply Hnone; [done..|]. congruence.
  - intros Hicmp Hne Hihl Hreq. apply Hreply; [done..|].
    rewrite (Hstart Hihl) in Hreq. congruence.
  - intros Hicmp Hne Hihl Hreq. apply Hnone; [done..|].
    rewrite (Hstart Hihl) in Hreq. congruence.
Qed.

(** ** The ARP module *)

Lemma wp_state {A} (m : M A) w a w' (Q : A → world → Prop) :
  m w = Some (a, w') → Q a w' → wp m w Q.
Proof. intros Hm HQ. unfold wp. by rewrite Hm. Qed.

Lemma arp_cache_lookup_run ip_addr w :
  chirouter_arp_cache_lookup ip_addr w
  = Some (snd <$> cached_for ip_addr (ctx w), w).
Proof. done. Qed.

Lemma arp_pending_req_lookup_run ip_addr w :
  chirouter_arp_pending_req_lookup ip_addr w
  = Some (fst <$> pending_for ip_addr (ctx w), w).
Proof. done. Qed.

Lemma arp_cache_add_fails e ip_addr mac_addr w :
  cache_grow_fails e = true → cached_for ip_addr (ctx w) = None →
  chirouter_arp_cache_add e ip_addr mac_addr w = Some (1, w).
Proof.
  intros Hfail Hnone. unfold chirouter_arp_cache_add.
  unfold cached_for in Hnone. by rewrite Hnone, Hfail.
Qed.


(** ** Draining the withheld frames *)






Lemma freed_lookup (fs : list ethernet_frame_t) (h : gmap addr bytes)
    (a : addr) :
  foldr (λ f h, delete (raw f) h) h fs !! a
  = if decide (a ∈ raw <$> fs) then None else h !! a.
Proof.
  induction fs as [|f fs IH]; [done|].
  cbn [foldr]. rewrite fmap_cons.
  destruct (decide (raw f = a)) as [<-|Hne].
  - rewrite lookup_delete_eq. rewrite decide_True; [done|]. by left.
  - rewrite lookup_delete_ne, IH by done.
    destruct (decide (a ∈ raw <$> fs)).
    + rewrite decide_True; [done|]. by right.
    + rewrite decide_False; [done|]. by intros [?|?]%elem_of_cons.
Qed.

(** ** ARP messages *)

Lemma wp_arp_reply e frame w buf (Q : completion → world → Prop) :
  heap w !! raw frame = Some buf →
  get16 buf off_eth_type = Some ETHERTYPE_ARP →
  get32 buf off_arp_tpa = Some (ip (in_interface frame)) →
  get16 buf off_arp_op = Some ARP_OP_REPLY →
  wp (arp_reply_received e frame) w
    (λ c w', match c with
             | Normal => Q (Return 0) w'
             | Return v => Q (Return v) w'
             end) →
  wp (chirouter_process_ethernet_frame e frame) w Q.
Proof.
  intros Hbuf Hty Htpa Hop H. unfold chirouter_process_ethernet_frame.
  apply wp_bind. eapply wp_frame_get16; [done..|]. simpl.
  unfold arp_message.
  apply wp_bind. eapply wp_frame_get32; [done..|]. rewrite Z.eqb_refl.
  apply wp_bind. eapply wp_frame_get16; [done..|]. simpl.
  apply wp_seq_stmt. eapply wp_mono; [exact H|].
  intros [|v] w' HQ; [by apply wp_ret|done].
Qed.


(** ** Forwarding *)

Lemma wp_find_match_router frame w buf dst (Q : bool → world → Prop) :
  heap w !! raw frame = Some buf → get32 buf off_ip_dst = Some dst →
  Q (existsb (λ i, ip i =? dst) (interfaces (ctx w))) w →
  wp (chirouter_find_match_router frame) w Q.
Proof.
  intros Hbuf Hdst HQ. unfold wp, chirouter_find_match_router.
  destruct (interfaces (ctx w)) as [|i ifaces]; [done|].
  unfold bind, frame_get32, ret. rewrite Hbuf. simpl. rewrite Hdst. done.
Qed.

Lemma no_interface_matches (ifaces : list chirouter_interface_t) (dst : Z) :
  Forall (λ i, ip i ≠ dst) ifaces →
  existsb (λ i, ip i =? dst) ifaces = false.
Proof.
  induction 1 as [|i ifaces Hi _ IH]; [done|]. simpl. rewrite IH.
  by destruct (Z.eqb_spec (ip i) dst).
Qed.

Lemma wp_try_to_forward e frame w buf dst (Q : completion → world → Prop) :
  heap w !! raw frame = Some buf →
  ip_for_elsewhere (ctx w) frame buf dst →
  wp (try_to_forward e frame) w
    (λ c w', match c with
             | Normal => Q (Return 0) w'
             | Return v => Q (Return v) w'
             end) →
  wp (chirouter_process_ethernet_frame e frame) w Q.
Proof.
  intros Hbuf (Hty & Hdst & Hne & Hnone) H.
  unfold chirouter_process_ethernet_frame.
  assert (∃ t, get16 buf off_eth_type = Some t ∧
               (t =? ETHERTYPE_IP) || (t =? ETHERTYPE_IPV6) = true)
    as (t & Ht & Hcond).
  { destruct Hty as [Hty|Hty]; eexists; (split; [exact Hty|done]). }
  apply wp_bind. eapply wp_frame_get16; [done..|]. rewrite Hcond.
  apply wp_seq_stmt. apply wp_bind. eapply wp_frame_get32; [done..|].
  destruct (Z.eqb_spec dst (ip (in_interface frame))) as [|_]; [done|].
  apply wp_bind. eapply wp_find_match_router; [done..|].
  rewrite no_interface_matches by done.
  eapply wp_mono; [exact H|].
  intros [|v] w' HQ; [by apply wp_ret|done].
Qed.

(** After the route was found and the ARP cache missed: what remains of
    [try_to_forward]. *)
Lemma wp_arp_cache_miss e frame w buf dst route
    (Q : completion → world → Prop) :
  heap w !! raw frame = Some buf →
  get32 buf off_ip_dst = Some dst →
  route_of (routing_table (ctx w)) buf route →
  cached_for (get_forward_ip route dst) (ctx w) = None →
  wp (let forward_ip := get_forward_ip route dst in
      let! pending_req := chirouter_arp_pending_req_lookup forward_ip in
      match pending_req with
      | None =>
          chirouter_send_arp_message (interface route) None forward_ip
            ARP_OP_REQUEST ;;
          let! pending_req :=
            chirouter_arp_pending_req_add forward_ip (interface route) in
          pending_req_set pending_req incr_times_sent ;;
          pending_req_set pending_req (set_last_sent (now e)) ;;
          let! result :=
            chirouter_arp_pending_req_add_frame e pending_req frame in
          if result =? 1 then ret (Return (-1)) else ret Normal
      | Some pending_req =>
          let! result :=
            chirouter_arp_pending_req_add_frame e pending_req frame in
          if result =? 1 then ret (Return (-1)) else ret Normal
      end) w Q →
  wp (try_to_forward e frame) w Q.
Proof.
  intros Hbuf Hdst (dst' & i & Hdst' & Hloop & Hroute) Hmiss H.
  assert (dst' = dst) as -> by congruence.
  unfold try_to_forward.
  apply wp_bind. eapply wp_get_matching_entry; [done..|]. rewrite Hloop.
  apply wp_bind. eapply wp_rtable_deref; [done|].
  apply wp_bind. eapply wp_frame_get32; [done..|].
  apply wp_bind. eapply wp_state; [apply arp_cache_lookup_run|].
  rewrite Hmiss. exact H.
Qed.

Lemma blen_six (m : bytes) :
  blen m = 6 → ∃ a b c d e f, m = [a; b; c; d; e; f].
Proof.
  unfold blen. intros H.
  destruct m as [|a [|b [|c [|d [|e [|f [|g m]]]]]]]; simpl in H; try lia.
  by exists a, b, c, d, e, f.
Qed.

Lemma wp_send_arp_request iface tpa w (Q : unit → world → Prop) :
  blen (mac iface) = 6 →
  (∀ msg, arp_request iface tpa msg → Q tt (emit w iface msg)) →
  wp (chirouter_send_arp_message iface None tpa ARP_OP_REQUEST) w Q.
Proof.
  intros Hmac HQ. unfold chirouter_send_arp_message.
  apply wp_bind. eapply wp_lift; [done|].
  apply wp_bind. eapply wp_lift; [done|].
  apply wp_bind. eapply wp_lift; [rewrite <- Hmac; apply peek_all|].
  apply wp_send_frame; [done|]. apply HQ.
  destruct (blen_six _ Hmac) as (a & b & c & d & e' & f & Heq).
  unfold arp_request. rewrite Heq. split_and!; reflexivity.
Qed.

Lemma pending_req_set_last w l r f :
  pending_arp_reqs (ctx w) = l ++ [r] →
  pending_req_set (length l) f w
  = Some (tt, set_ctx w (set_pending (ctx w) (l ++ [f r]))).
Proof.
  intros Hl. unfold pending_req_set. rewrite Hl.
  rewrite list_lookup_middle by done. simpl.
  rewrite insert_app_r_alt by done. by rewrite Nat.sub_diag.
Qed.

Lemma arp_pending_req_add_frame_fails e pending_req frame w :
  frame_copy_fails e = true →
  chirouter_arp_pending_req_add_frame e pending_req frame w = Some (1, w).
Proof.
  intros Hfail. unfold chirouter_arp_pending_req_add_frame.
  by rewrite Hfail.
Qed.

Lemma arp_pending_req_add_frame_ok e pending_req frame w buf r :
  frame_copy_fails e = false →
  heap w !! raw frame = Some buf →
  frame_length frame = blen buf →
  pending_arp_reqs (ctx w) !! pending_req = Some r →
  chirouter_arp_pending_req_add_frame e pending_req frame w
  = Some (0,
          {| ctx := set_pending (ctx w)
                      (<[pending_req :=
                           set_withheld
                             (withheld_frames r
                              ++ [copy_at (fresh (dom (heap w))) frame]) r]>
                         (pending_arp_reqs (ctx w)));
             heap := <[fresh (dom (heap w)) := buf]> (heap w);
             wire := wire w |}).
Proof.
  intros Hok Hbuf Hlen Hr. unfold chirouter_arp_pending_req_add_frame.
  rewrite Hok. unfold bind, frame_peek, pending_req_get, pending_req_set.
  rewrite Hbuf. simpl. rewrite Hlen, peek_all. simpl. rewrite Hr. simpl.
  rewrite Hr. simpl. rewrite <- Hlen. reflexivity.
Qed.

(** The next hop [get_forward_ip] chooses: the gateway of the route
    unless it is zero, and then the destination of the datagram. *)
Lemma get_forward_ip_next_hop (route : chirouter_rtable_entry_t) (dst : Z) :
  get_forward_ip route dst = if decide (gw route = 0) then dst else gw route.
Proof.
  unfold get_forward_ip. cbn zeta.
  destruct (Z.eqb_spec (gw route) 0) as [Hgw|Hgw]; simpl.
  - by rewrite decide_True.
  - by rewrite decide_False.
Qed.

(** C6. When the ARP cache has no entry for the next-hop IP
    [forward_ip] (the route's gateway if non-zero, else the destination)
    and the frame can be copied: the frame's deep copy goes into a newly allocated buffer and
    is attached to the pending request for that IP.  If there was no
    pending request, exactly one frame is sent, an ARP request broadcast
    on the route's interface for the next-hop IP, and the request is
    appended to the pending list with [times_sent = 1], [last_sent = now]
    and the copy as its only withheld frame; if there was one, nothing is
    sent and the copy is appended to its withheld frames. *)
Theorem arp_miss_withholds_frame e frame w buf dst route forward_ip :
  heap w !! raw frame = Some buf →
  ip_for_elsewhere (ctx w) frame buf dst →
  route_of (routing_table (ctx w)) buf route →
  forward_ip = (if decide (gw route = 0) then dst else gw route) →
  cached_for forward_ip (ctx w) = None →
  frame_copy_fails e = false →
  frame_length frame = blen buf →
  blen (mac (interface route)) = 6 →
  let copy := copy_at (fresh (dom (heap w))) frame in
  ∃ w',
    chirouter_process_ethernet_frame e frame w = Some (Return 0, w') ∧
    heap w !! raw copy = None ∧
    heap w' = <[raw copy := buf]> (heap w) ∧
    arpcache (ctx w') = arpcache (ctx w) ∧
    match pending_for forward_ip (ctx w) with
    | None =>
        (∃ request,
           wire w' = wire w ++ [(interface route, request)] ∧
           arp_request (interface route) forward_ip request) ∧
        pending_arp_reqs (ctx w')
        = pending_arp_reqs (ctx w)
          ++ [{| req_ip := forward_ip; times_sent := 1;
                 last_sent := now e; out_interface := interface route;
                 withheld_frames := [copy] |}]
    | Some (j, req) =>
        wire w' = wire w ∧
        pending_arp_reqs (ctx w')
        = <[j := set_withheld (withheld_frames req ++ [copy]) req]>
            (pending_arp_reqs (ctx w))
    end.
Proof.
  intros Hbuf Hfor Hroute Hhop Hmiss Hcopy Hlen Hmac copy.
  rewrite <- (get_forward_ip_next_hop route dst) in Hhop. subst forward_ip.
  set (forward_ip := get_forward_ip route dst) in *.
  assert (heap w !! raw copy = None) as Hfresh.
  { apply not_elem_of_dom. apply is_fresh. }
  set (P := λ w' : world,
     heap w' = <[raw copy := buf]> (heap w) ∧
     arpcache (ctx w') = arpcache (ctx w) ∧
     match pending_for forward_ip (ctx w) with
     | None =>
         (∃ request,
            wire w' = wire w ++ [(interface route, request)] ∧
            arp_request (interface route) forward_ip request) ∧
         pending_arp_reqs (ctx w')
         = pending_arp_reqs (ctx w)
           ++ [{| req_ip := forward_ip; times_sent := 1;
                  last_sent := now e; out_interface := interface route;
                  withheld_frames := [copy] |}]
     | Some (j, req) =>
         wire w' = wire w ∧
         pending_arp_reqs (ctx w')
         = <[j := set_withheld (withheld_frames req ++ [copy]) req]>
             (pending_arp_reqs (ctx w))
     end).
  assert (wp (chirouter_process_ethernet_frame e frame) w
            (λ c w', c = Return 0 ∧ P w')) as Hwp; last first.
  { apply wp_run in Hwp as (c & w' & Hrun & -> & HP). by exists w'. }
  pose proof Hfor as (_ & Hdst & _).
  apply (wp_try_to_forward e frame w buf dst); [done..|].
  apply (wp_arp_cache_miss e frame w buf dst route); [done..|].
  cbn zeta. fold forward_ip.
  apply wp_bind. eapply wp_state; [apply arp_pending_req_lookup_run|].
  unfold P. destruct (pending_for forward_ip (ctx w)) as [[j req]|] eqn:Hpend.
  - simpl. pose proof Hpend as Hfound.
    apply list_find_Some in Hfound as (Hj & _ & _).
    apply wp_bind. eapply wp_state.
    { by apply (arp_pending_req_add_frame_ok e j frame w buf req). }
    simpl. apply wp_ret. done.
  - simpl. apply wp_bind. apply wp_send_arp_request; [done|].
    intros request Hrequest.
    apply wp_bind. eapply wp_state; [reflexivity|].
    apply wp_bind. eapply wp_state.
    { by apply (pending_req_set_last _ (pending_arp_reqs (ctx w))). }
    apply wp_bind. eapply wp_state.
    { by apply (pending_req_set_last _ (pending_arp_reqs (ctx w))). }
    apply wp_bind. eapply wp_state.
    { apply (arp_pending_req_add_frame_ok e _ frame _ buf); [done..|].
      simpl. by apply list_lookup_middle. }
    simpl. apply wp_ret. split; [done|]. split_and!; [done..| |].
    + by exists request.
    + rewrite insert_app_r_alt by done. by rewrite Nat.sub_diag.
Qed.

(** ** The ARP cache has the next hop *)

(** Past TTL 0 the forwarded frame has the TTL of the frame minus one. *)
Lemma forwarded_ttl_decremented frame buf dst_mac route msg ttl :
  forwarded frame buf dst_mac route msg →
  get8 buf off_ip_ttl = Some ttl → 1 ≤ ttl < 256 →
  get8 msg off_ip_ttl = Some (ttl - 1).
Proof.
  intros [_ _ _ _ (ttl' & Hin & Hout) _ _] Httl Hrange.
  assert (ttl' = ttl) as -> by congruence.
  rewrite Hout. f_equal. apply Z.mod_small. lia.
Qed.

(** With the next hop's MAC address in the ARP cache, a frame for
    elsewhere is answered with ICMP time exceeded when its TTL is 1, and
    otherwise forwarded to that MAC address on the route's interface. *)
Lemma arp_cache_hit_forwards e frame w buf dst route k entry ttl :
  heap w !! raw frame = Some buf →
  ip_for_elsewhere (ctx w) frame buf dst →
  route_of (routing_table (ctx w)) buf route →
  cached_for (get_forward_ip route dst) (ctx w) = Some (k, entry) →
  get8 buf off_ip_ttl = Some ttl →
  icmp_trigger_ok ICMPTYPE_TIME_EXCEEDED buf →
  forward_trigger_ok frame buf →
  blen (mac (in_interface frame)) = 6 →
  blen (mac (interface route)) = 6 →
  blen (arp_mac entry) = 6 →
  ∃ w',
    chirouter_process_ethernet_frame e frame w = Some (Return 0, w') ∧
    (ttl = 1 → sent_icmp ICMPTYPE_TIME_EXCEEDED 0 frame buf w w') ∧
    (ttl ≠ 1 →
     ∃ msg, w' = emit w (interface route) msg ∧
            forwarded frame buf (arp_mac entry) route msg).
Proof.
  intros Hbuf Hfor Hroute Hhit Httl Hicmp Hfwd Hmac Hrmac Hemac.
  set (P := λ w' : world,
     (ttl = 1 → sent_icmp ICMPTYPE_TIME_EXCEEDED 0 frame buf w w') ∧
     (ttl ≠ 1 →
      ∃ msg, w' = emit w (interface route) msg ∧
             forwarded frame buf (arp_mac entry) route msg)).
  assert (wp (chirouter_process_ethernet_frame e frame) w
            (λ c w', c = Return 0 ∧ P w')) as Hwp; last first.
  { apply wp_run in Hwp as (c & w' & Hrun & -> & HP). by exists w'. }
  pose proof Hfor as (_ & Hdst & _).
  apply (wp_try_to_forward e frame w buf dst); [done..|].
  pose proof Hroute as (dst' & i & Hdst' & Hloop & Hentry).
  assert (dst' = dst) as -> by congruence.
  unfold try_to_forward.
  apply wp_bind. eapply wp_get_matching_entry; [done..|]. rewrite Hloop.
  apply wp_bind. eapply wp_rtable_deref; [done|].
  apply wp_bind. eapply wp_frame_get32; [done..|].
  apply wp_bind. eapply wp_state; [apply arp_cache_lookup_run|].
  rewrite Hhit. simpl.
  apply wp_bind. eapply wp_frame_get8; [done..|]. unfold P.
  destruct (Z.eqb_spec ttl 1) as [Hone|Hone].
  - apply wp_exec. eapply wp_mono;
      [by apply (chirouter_send_icmp_spec _ _ _ _ buf)|].
    intros [] w' Hsent. split; [done|]. split; [done|]. by intros ?.
  - apply wp_exec. eapply wp_mono;
      [by apply (forward_ip_datagram_spec _ _ _ buf route)|].
    intros [] w' Hsent. split; [done|]. split; [by intros ?|]. done.
Qed.

(** ** Allocation failures *)

(** C1, as the code has it. When the deep copy of a frame to withhold
    cannot be allocated, or the ARP cache cannot grow for the sender of
    an ARP reply, the call returns -1 (the critical error): no copy is
    kept and the cache is as before. *)
Theorem allocation_failure_is_fatal e frame w buf :
  heap w !! raw frame = Some buf →
  copy_fails_on e frame w buf ∨ cache_full_on e frame w buf →
  ∃ w',
    chirouter_process_ethernet_frame e frame w = Some (Return (-1), w') ∧
    heap w' = heap w ∧ arpcache (ctx w') = arpcache (ctx w).
Proof.
  intros Hbuf Hfail.
  assert (wp (chirouter_process_ethernet_frame e frame) w
            (λ c w', c = Return (-1) ∧ heap w' = heap w ∧
                     arpcache (ctx w') = arpcache (ctx w))) as Hwp;
    last first.
  { apply wp_run in Hwp as (c & w' & Hrun & -> & HP). by exists w'. }
  destruct Hfail as [(Hcopy & dst & route & Hfor & Hroute & Hmiss & Hmac)
                    |(Hgrow & Hty & Htpa & Hop & spa & Hspa & Hnone)].
  - pose proof Hfor as (_ & Hdst & _).
    apply (wp_try_to_forward e frame w buf dst); [done..|].
    apply (wp_arp_cache_miss e frame w buf dst route); [done..|].
    cbn zeta.
    apply wp_bind. eapply wp_state; [apply arp_pending_req_lookup_run|].
    destruct (pending_for _ (ctx w)) as [[j req]|]; simpl.
    + apply wp_bind. eapply wp_state.
      { by apply arp_pending_req_add_frame_fails. }
      simpl. by apply wp_ret.
    + apply wp_bind. apply wp_send_arp_request; [done|].
      intros request _.
      apply wp_bind. eapply wp_state; [reflexivity|].
      apply wp_bind. eapply wp_state.
      { by apply (pending_req_set_last _ (pending_arp_reqs (ctx w))). }
      apply wp_bind. eapply wp_state.
      { by apply (pending_req_set_last _ (pending_arp_reqs (ctx w))). }
      apply wp_bind. eapply wp_state.
      { by apply arp_pending_req_add_frame_fails. }
      simpl. by apply wp_ret.
  - apply (wp_arp_reply e frame w buf); [done..|].
    unfold arp_reply_received.
    apply wp_bind. eapply wp_frame_get32; [done..|].
    pose proof Hspa as Hspa'. unfold get32 in Hspa'.
    destruct (peek buf off_arp_spa 4) as [spab|] eqn:Hspab; [|done].
    apply peek_Some in Hspab as (_ & _ & Hlen & _).
    destruct (peek_is_Some buf off_arp_sha ETHER_ADDR_LEN) as [sha Hsha].
    { unfold off_arp_sha. lia. }
    { unfold ETHER_ADDR_LEN. lia. }
    { unfold off_arp_spa, off_arp_sha, ETHER_ADDR_LEN in *. lia. }
    apply wp_bind. eapply wp_frame_peek; [done..|].
    apply wp_bind. eapply wp_state; [by apply arp_cache_add_fails|].
    simpl. by apply wp_ret.
Qed.

(** ** Other ethertypes *)

Lemma other_ethertype_falls_through e frame w buf t :
  heap w !! raw frame = Some buf →
  get16 buf off_eth_type = Some t →
  t ≠ ETHERTYPE_IP → t ≠ ETHERTYPE_IPV6 → t ≠ ETHERTYPE_ARP →
  chirouter_process_ethernet_frame e frame w = Some (Normal, w).
Proof.
  intros Hbuf Ht Hip Hip6 Harp.
  unfold chirouter_process_ethernet_frame, bind, frame_get16.
  rewrite Hbuf. simpl. rewrite Ht. simpl.
  destruct (Z.eqb_spec t ETHERTYPE_IP) as [|_]; [done|].
  destruct (Z.eqb_spec t ETHERTYPE_IPV6) as [|_]; [done|].
  destruct (Z.eqb_spec t ETHERTYPE_ARP) as [|_]; [done|]. done.
Qed.

(** ** The inbound buffer *)

Lemma preserves_ret {A} (P : world → Prop) (a : A) : preserves P (ret a).
Proof. intros w a' w' HP [= _ <-]. done. Qed.

Lemma preserves_bind {A B} (P : world → Prop) (m : M A) (k : A → M B) :
  preserves P m → (∀ a, preserves P (k a)) → preserves P (bind m k).
Proof.
  intros Hm Hk w b w' HP Hrun. unfold bind in Hrun.
  destruct (m w) as [[a w1]|] eqn:Hmw; [|done].
  eapply Hk; [|exact Hrun]. by eapply Hm.
Qed.

Lemma preserves_foreach {A} (P : world → Prop) (l : list A)
    (body : A → M unit) :
  (∀ x, preserves P (body x)) → preserves P (foreach l body).
Proof.
  intros Hbody. induction l as [|x l IH]; simpl.
  - apply preserves_ret.
  - apply preserves_bind; [apply Hbody|]. intros _. apply IH.
Qed.

Lemma alone_preserves {A} (a : addr) (buf : bytes) (m : M A) :
  leaves_frames_alone m → preserves (buffer_kept a buf) m.
Proof.
  intros Hm w x w' [Hheap Halias] Hrun.
  destruct (Hm w x w' Hrun) as [Hh Hp]. split; [by rewrite Hh|].
  unfold no_alias. by rewrite Hp.
Qed.

Lemma alone_ret {A} (a : A) : leaves_frames_alone (ret a).
Proof. by intros w a' w' [= _ <-]. Qed.

Lemma alone_lift {A} (o : option A) : leaves_frames_alone (lift o).
Proof. intros w a w' Hrun. unfold lift in Hrun. by destruct o; simplify_eq. Qed.

Lemma alone_bind {A B} (m : M A) (k : A → M B) :
  leaves_frames_alone m → (∀ a, leaves_frames_alone (k a)) →
  leaves_frames_alone (bind m k).
Proof.
  intros Hm Hk w b w' Hrun. unfold bind in Hrun.
  destruct (m w) as [[a w1]|] eqn:Hmw; [|done].
  destruct (Hm _ _ _ Hmw) as [H1 H2].
  destruct (Hk a _ _ _ Hrun) as [H3 H4]. split; congruence.
Qed.

Lemma alone_frame_peek frame off n : leaves_frames_alone (frame_peek frame off n).
Proof.
  intros w a w' Hrun. unfold frame_peek in Hrun.
  destruct (heap w !! raw frame); simpl in Hrun; [|done].
  destruct (peek _ _ _); simpl in Hrun; by simplify_eq.
Qed.

Lemma alone_frame_get8 frame off : leaves_frames_alone (frame_get8 frame off).
Proof.
  intros w a w' Hrun. unfold frame_get8 in Hrun.
  destruct (heap w !! raw frame); simpl in Hrun; [|done].
  destruct (get8 _ _); simpl in Hrun; by simplify_eq.
Qed.

Lemma alone_frame_get16 frame off : leaves_frames_alone (frame_get16 frame off).
Proof.
  intros w a w' Hrun. unfold frame_get16 in Hrun.
  destruct (heap w !! raw frame); simpl in Hrun; [|done].
  destruct (get16 _ _); simpl in Hrun; by simplify_eq.
Qed.

Lemma alone_frame_get32 frame off : leaves_frames_alone (frame_get32 frame off).
Proof.
  intros w a w' Hrun. unfold frame_get32 in Hrun.
  destruct (heap w !! raw frame); simpl in Hrun; [|done].
  destruct (get32 _ _); simpl in Hrun; by simplify_eq.
Qed.

Lemma alone_send_frame iface msg len :
  leaves_frames_alone (chirouter_send_frame iface msg len).
Proof.
  unfold chirouter_send_frame. apply alone_bind; [apply alone_lift|].
  intros out w a w' [= _ <-]. done.
Qed.

Lemma alone_get_matching_entry frame :
  leaves_frames_alone (chirouter_get_matching_entry frame).
Proof.
  intros w a w' Hrun. unfold chirouter_get_matching_entry in Hrun.
  destruct (routing_table (ctx w)); [by simplify_eq|].
  revert Hrun. apply alone_bind; [apply alone_frame_get32|].
  intros dst. apply alone_ret.
Qed.

Lemma alone_find_match_router frame :
  leaves_frames_alone (chirouter_find_match_router frame).
Proof.
  intros w a w' Hrun. unfold chirouter_find_match_router in Hrun.
  destruct (interfaces (ctx w)); [by simplify_eq|].
  revert Hrun. apply alone_bind; [apply alone_frame_get32|].
  intros dst. apply alone_ret.
Qed.

Lemma alone_rtable_deref rentry : leaves_frames_alone (rtable_deref rentry).
Proof.
  intros w a w' Hrun. unfold rtable_deref in Hrun.
  destruct rentry as [i|]; simpl in Hrun; [|done].
  destruct (routing_table (ctx w) !! i); simpl in Hrun; by simplify_eq.
Qed.

Lemma alone_arp_cache_lookup ip_addr :
  leaves_frames_alone (chirouter_arp_cache_lookup ip_addr).
Proof. by intros w a w' [= _ <-]. Qed.

Lemma alone_arp_pending_req_lookup ip_addr :
  leaves_frames_alone (chirouter_arp_pending_req_lookup ip_addr).
Proof. by intros w a w' [= _ <-]. Qed.

Lemma alone_arp_cache_add e ip_addr mac_addr :
  leaves_frames_alone (chirouter_arp_cache_add e ip_addr mac_addr).
Proof.
  intros w a w' Hrun. unfold chirouter_arp_cache_add in Hrun.
  destruct (list_find _ _) as [[i old]|]; [by simplify_eq|].
  destruct (cache_grow_fails e); by simplify_eq.
Qed.

Lemma alone_pending_req_get pending_req :
  leaves_frames_alone (pending_req_get pending_req).
Proof.
  intros w a w' Hrun. unfold pending_req_get in Hrun.
  destruct (_ !! pending_req); simpl in Hrun; by simplify_eq.
Qed.

(** The functions of router.c that build and send a frame, and the
    branches that only call them, leave the frames alone: they are made
    of binds, branches and the primitives above. *)
Lemma alone_senders :
  (∀ type code frame,
     leaves_frames_alone (chirouter_send_icmp type code frame)) ∧
  (∀ frame dst_mac,
     leaves_frames_alone (forward_ip_datagram frame dst_mac)) ∧
  (∀ iface dst_mac dst_ip op,
     leaves_frames_alone (chirouter_send_arp_message iface dst_mac dst_ip op)).
Proof.
  split_and!; intros;
    unfold chirouter_send_icmp, forward_ip_datagram,
      chirouter_send_arp_message;
    repeat lazymatch goal with
      | |- leaves_frames_alone (bind _ _) => apply alone_bind; [|intros ?]
      | |- leaves_frames_alone (ret _) => apply alone_ret
      | |- leaves_frames_alone (lift _) => apply alone_lift
      | |- leaves_frames_alone (frame_peek _ _ _) => apply alone_frame_peek
      | |- leaves_frames_alone (frame_get8 _ _) => apply alone_frame_get8
      | |- leaves_frames_alone (frame_get16 _ _) => apply alone_frame_get16
      | |- leaves_frames_alone (frame_get32 _ _) => apply alone_frame_get32
      | |- leaves_frames_alone (chirouter_send_frame _ _ _) =>
          apply alone_send_frame
      | |- leaves_frames_alone (chirouter_get_matching_entry _) =>
          apply alone_get_matching_entry
      | |- leaves_frames_alone (rtable_deref _) => apply alone_rtable_deref
      | |- leaves_frames_alone (if ?b then _ else _) => destruct b
      end.
Qed.

Lemma alone_send_icmp type code frame :
  leaves_frames_alone (chirouter_send_icmp type code frame).
Proof. apply alone_senders. Qed.

Lemma alone_forward_ip_datagram frame dst_mac :
  leaves_frames_alone (forward_ip_datagram frame dst_mac).
Proof. apply alone_senders. Qed.

Lemma alone_send_arp_message iface dst_mac dst_ip op :
  leaves_frames_alone (chirouter_send_arp_message iface dst_mac dst_ip op).
Proof. apply alone_senders. Qed.

Lemma alone_forward_withheld sha elt :
  leaves_frames_alone (forward_withheld sha elt).
Proof.
  unfold forward_withheld. apply alone_bind; [apply alone_frame_get8|].
  intros ttl. destruct (ttl =? 1);
    [apply alone_send_icmp|apply alone_forward_ip_datagram].
Qed.

Lemma alone_exec (m : M unit) :
  leaves_frames_alone m → leaves_frames_alone (exec m).
Proof.
  intros Hm. unfold exec. apply alone_bind; [done|].
  intros _. apply alone_ret.
Qed.

Lemma alone_frame_comes_to_router frame :
  leaves_frames_alone (frame_comes_to_router frame).
Proof.
  unfold frame_comes_to_router.
  apply alone_bind; [apply alone_frame_get8|]. intros proto.
  destruct (_ || _); [apply alone_exec, alone_send_icmp|].
  apply alone_bind; [apply alone_frame_get8|]. intros ttl.
  destruct (ttl =? 1); [apply alone_exec, alone_send_icmp|].
  destruct (proto =? IPPROTO_ICMP); [|apply alone_exec, alone_send_icmp].
  apply alone_bind; [apply alone_frame_get8|]. intros icmp_type.
  destruct (icmp_type =? ICMPTYPE_ECHO_REQUEST);
    [apply alone_exec, alone_send_icmp|apply alone_ret].
Qed.

Lemma elem_of_insert_inv {A} (l : list A) (i : nat) (x y : A) :
  y ∈ <[i := x]> l → y = x ∨ y ∈ l.
Proof.
  intros [j Hj]%list_elem_of_lookup.
  destruct (decide (i = j)) as [->|Hne].
  - destruct (decide (j < length l)%nat).
    + rewrite list_lookup_insert_eq in Hj by done. left. congruence.
    + rewrite list_insert_ge in Hj by lia. right.
      by eapply list_elem_of_lookup_2.
  - rewrite list_lookup_insert_ne in Hj by done. right.
    by eapply list_elem_of_lookup_2.
Qed.

Lemma kept_update (a : addr) (buf : bytes) (w : world)
    (i : nat) (r : chirouter_pending_arp_req_t) :
  buffer_kept a buf w →
  (∀ f, f ∈ withheld_frames r → raw f ≠ a) →
  buffer_kept a buf
    (set_ctx w (set_pending (ctx w) (<[i := r]> (pending_arp_reqs (ctx w))))).
Proof.
  intros [Hheap Halias] Hr. split; [done|].
  intros r' f [->|Hin]%elem_of_insert_inv Hf; [by apply Hr|].
  by eapply Halias.
Qed.

Lemma kept_pending_req_set a buf pending_req f :
  (∀ r, withheld_frames (f r) = withheld_frames r) →
  preserves (buffer_kept a buf) (pending_req_set pending_req f).
Proof.
  intros Hf w x w' Hkept Hrun. unfold pending_req_set in Hrun.
  destruct (pending_arp_reqs (ctx w) !! pending_req) as [r|] eqn:Hr;
    simpl in Hrun; [|done].
  simplify_eq. apply kept_update; [done|].
  intros g Hg. rewrite Hf in Hg. destruct Hkept as [_ Halias].
  eapply Halias; [|done]. by eapply list_elem_of_lookup_2.
Qed.

Lemma kept_arp_pending_req_add a buf ip_addr iface :
  preserves (buffer_kept a buf) (chirouter_arp_pending_req_add ip_addr iface).
Proof.
  intros w x w' [Hheap Halias] [= _ <-]. split; [done|].
  intros r f [Hin|Hin]%elem_of_app Hf; [by eapply Halias|].
  apply list_elem_of_singleton in Hin as ->. simpl in Hf.
  by apply elem_of_nil in Hf.
Qed.

Lemma kept_arp_pending_req_add_frame a buf e pending_req frame :
  preserves (buffer_kept a buf)
    (chirouter_arp_pending_req_add_frame e pending_req frame).
Proof.
  intros w x w' Hkept Hrun.
  unfold chirouter_arp_pending_req_add_frame in Hrun.
  destruct (frame_copy_fails e).
  { revert Hrun. by intros [= _ <-]. }
  unfold bind in Hrun.
  destruct (frame_peek frame 0 (frame_length frame) w)
    as [[copy w1]|] eqn:Hpeek; [|done].
  destruct (alone_frame_peek _ _ _ _ _ _ Hpeek) as [Hh1 Hp1].
  assert (w1 = w) as ->.
  { unfold frame_peek in Hpeek. destruct (heap w !! raw frame); [|done].
    simpl in Hpeek. destruct (peek _ _ _); simpl in Hpeek; by simplify_eq. }
  unfold pending_req_get, pending_req_set in Hrun. simpl in Hrun.
  destruct (pending_arp_reqs (ctx w) !! pending_req) as [r|] eqn:Hr;
    simpl in Hrun; [|done].
  rewrite Hr in Hrun. simpl in Hrun. simplify_eq.
  destruct Hkept as [Hheap Halias].
  assert (fresh (dom (heap w)) ≠ a) as Hfresh.
  { intros <-. pose proof (is_fresh (dom (heap w))) as Hnot.
    apply Hnot. apply elem_of_dom. by eexists. }
  apply (kept_update a buf
           (set_heap w (<[fresh (dom (heap w)) := copy]> (heap w)))).
  - split; [|done]. simpl. by rewrite lookup_insert_ne.
  - simpl. intros f [Hf|Hf]%elem_of_app.
    + eapply Halias; [|done]. by eapply list_elem_of_lookup_2.
    + apply list_elem_of_singleton in Hf as ->. done.
Qed.

Lemma kept_arp_pending_req_free_frames a buf pending_req :
  preserves (buffer_kept a buf)
    (chirouter_arp_pending_req_free_frames pending_req).
Proof.
  intros w x w' Hkept Hrun.
  unfold chirouter_arp_pending_req_free_frames, bind, pending_req_get,
    pending_req_set, ret in Hrun.
  destruct (pending_arp_reqs (ctx w) !! pending_req) as [r|] eqn:Hr;
    simpl in Hrun; [|done].
  rewrite Hr in Hrun. simpl in Hrun. simplify_eq.
  destruct Hkept as [Hheap Halias].
  apply (kept_update a buf
           (set_heap w (foldr (λ f h, delete (raw f) h) (heap w)
                          (withheld_frames r)))).
  - split; [|done]. simpl. rewrite freed_lookup.
    rewrite decide_False; [done|].
    intros (f & Heq & Hf)%list_elem_of_fmap.
    eapply Halias; [|exact Hf|done]. by eapply list_elem_of_lookup_2.
  - simpl. by intros f Hf%elem_of_nil.
Qed.

Lemma kept_pending_req_delete a buf pending_req :
  preserves (buffer_kept a buf) (pending_req_delete pending_req).
Proof.
  intros w x w' [Hheap Halias] [= _ <-]. split; [done|].
  intros r f Hin%list_elem_of_delete_inv Hf. by eapply Halias.
Qed.

Lemma kept_process_ethernet_frame a buf e frame :
  preserves (buffer_kept a buf) (chirouter_process_ethernet_frame e frame).
Proof.
  unfold chirouter_process_ethernet_frame, try_to_forward, arp_message,
    arp_reply_received.
  repeat lazymatch goal with
    | |- preserves _ (bind _ _) => apply preserves_bind; [|intros ?]
    | |- preserves _ (ret _) => apply preserves_ret
    | |- preserves _ (exec _) => unfold exec
    | |- preserves _ (seq_stmt _ _) => unfold seq_stmt
    | |- preserves _ (if ?b then _ else _) => destruct b
    | |- preserves _ (match ?x with _ => _ end) => destruct x
    | |- preserves _ (foreach _ _) => apply preserves_foreach; intros ?
    | |- preserves _ (chirouter_arp_pending_req_add _ _) =>
        apply kept_arp_pending_req_add
    | |- preserves _ (chirouter_arp_pending_req_add_frame _ _ _) =>
        apply kept_arp_pending_req_add_frame
    | |- preserves _ (chirouter_arp_pending_req_free_frames _) =>
        apply kept_arp_pending_req_free_frames
    | |- preserves _ (pending_req_delete _) => apply kept_pending_req_delete
    | |- preserves _ (pending_req_set _ _) =>
        apply kept_pending_req_set; intros ?; reflexivity
    | |- preserves (buffer_kept _ _) _ =>
        apply alone_preserves;
        first [ apply alone_send_icmp | apply alone_forward_ip_datagram
              | apply alone_send_arp_message | apply alone_forward_withheld
              | apply alone_frame_comes_to_router
              | apply alone_find_match_router
              | apply alone_get_matching_entry | apply alone_rtable_deref
              | apply alone_frame_peek | apply alone_frame_get8
              | apply alone_frame_get16 | apply alone_frame_get32
              | apply alone_arp_cache_lookup | apply alone_arp_cache_add
              | apply alone_arp_pending_req_lookup
              | apply alone_pending_req_get ]
    end.
Qed.

(** C10. A call of [chirouter_process_ethernet_frame] never writes to the
    inbound frame's buffer and never keeps a pointer to it: whenever the
    call has a defined result, the heap holds the same bytes at the
    frame's address afterwards, and no withheld frame of any pending
    request lives in that buffer (a frame that is kept is a copy in a
    buffer of its own). *)
Theorem inbound_buffer_untouched e frame w c w' buf :
  chirouter_process_ethernet_frame e frame w = Some (c, w') →
  heap w !! raw frame = Some buf →
  no_alias (raw frame) (ctx w) →
  heap w' !! raw frame = Some buf ∧ no_alias (raw frame) (ctx w').
Proof.
  intros Hrun Hbuf Halias.
  apply (kept_process_ethernet_frame (raw frame) buf e frame w c w');
    [by split|done].
Qed.

(** ** Frames for another interface and frames without a route *)

Lemma some_interface_matches (ifaces : list chirouter_interface_t) (dst : Z) :
  (∃ i, i ∈ ifaces ∧ ip i = dst) →
  existsb (λ i, ip i =? dst) ifaces = true.
Proof.
  intros (i & Hin & Hip). induction ifaces as [|j ifaces IH]; simpl.
  - by apply elem_of_nil in Hin.
  - apply elem_of_cons in Hin as [<-|Hin].
    + by rewrite (proj2 (Z.eqb_eq _ _) Hip).
    + rewrite IH by done. by destruct (ip j =? dst).
Qed.

Lemma wp_process_ip e frame w buf dst (Q : completion → world → Prop) :
  heap w !! raw frame = Some buf →
  get16 buf off_eth_type = Some ETHERTYPE_IP ∨
  get16 buf off_eth_type = Some ETHERTYPE_IPV6 →
  get32 buf off_ip_dst = Some dst →
  wp (if dst =? ip (in_interface frame) then frame_comes_to_router frame
      else
        let! other := chirouter_find_match_router frame in
        if other then
          exec (chirouter_send_icmp ICMPTYPE_DEST_UNREACHABLE
                  ICMPCODE_DEST_HOST_UNREACHABLE frame)
        else try_to_forward e frame) w
    (λ c w', match c with
             | Normal => Q (Return 0) w'
             | Return v => Q (Return v) w'
             end) →
  wp (chirouter_process_ethernet_frame e frame) w Q.
Proof.
  intros Hbuf Hty Hdst H. unfold chirouter_process_ethernet_frame.
  assert (∃ t, get16 buf off_eth_type = Some t ∧
               (t =? ETHERTYPE_IP) || (t =? ETHERTYPE_IPV6) = true)
    as (t & Ht & Hcond).
  { destruct Hty as [Hty|Hty]; eexists; (split; [exact Hty|done]). }
  apply wp_bind. eapply wp_frame_get16; [done..|]. rewrite Hcond.
  apply wp_seq_stmt. apply wp_bind. eapply wp_frame_get32; [done..|].
  eapply wp_mono; [exact H|].
  intros [|v] w' HQ; [by apply wp_ret|done].
Qed.

(** X1. A datagram whose destination is the address of an interface of
    the router other than the one it came in on is not delivered and not
    forwarded: whatever its protocol and TTL, the router answers with
    ICMP destination unreachable, code host unreachable, on the
    interface the frame came in on, and the call returns 0. *)
Theorem other_interface_host_unreachable e frame w buf dst :
  heap w !! raw frame = Some buf →
  ip_for_another_interface (ctx w) frame buf dst →
  blen (mac (in_interface frame)) = 6 →
  42 ≤ blen buf →
  ∃ w',
    chirouter_process_ethernet_frame e frame w = Some (Return 0, w') ∧
    sent_icmp ICMPTYPE_DEST_UNREACHABLE ICMPCODE_DEST_HOST_UNREACHABLE
      frame buf w w'.
Proof.
  intros Hbuf (Hty & Hdst & Hne & Hother) Hmac Hlen.
  assert (wp (chirouter_process_ethernet_frame e frame) w
            (λ c w', c = Return 0 ∧
               sent_icmp ICMPTYPE_DEST_UNREACHABLE
                 ICMPCODE_DEST_HOST_UNREACHABLE frame buf w w')) as Hwp;
    last first.
  { apply wp_run in Hwp as (c & w' & Hrun & -> & HP). by exists w'. }
  apply (wp_process_ip e frame w buf dst); [done..|].
  destruct (Z.eqb_spec dst (ip (in_interface frame))) as [|_]; [done|].
  apply wp_bind. eapply wp_find_match_router; [done..|].
  rewrite some_interface_matches by done.
  apply wp_exec. eapply wp_mono.
  - apply (chirouter_send_icmp_spec _ _ _ _ buf); [done..|]. by split.
  - intros [] w' Hsent. done.
Qed.

Lemma no_route_matches (table : list chirouter_rtable_entry_t) (dst : Z) :
  (∀ entry, entry ∈ table → ¬ route_matches dst entry) →
  matching_loop table dst = None.
Proof.
  intros Hnone. pose proof (matching_loop_lpm table dst) as Hlpm.
  destruct (matching_loop table dst) as [i|]; [|done].
  destruct Hlpm as (_ & entry & Hentry & Hm & _).
  destruct (Hnone entry); [|done]. by eapply list_elem_of_lookup_2.
Qed.

(** X2. A datagram for an address that is no interface's and that no
    entry of the routing table matches is answered with ICMP destination
    unreachable, code network unreachable, on the interface it came in
    on, and the call returns 0. *)
Theorem no_route_network_unreachable e frame w buf dst :
  heap w !! raw frame = Some buf →
  ip_for_elsewhere (ctx w) frame buf dst →
  (∀ entry, entry ∈ routing_table (ctx w) → ¬ route_matches dst entry) →
  blen (mac (in_interface frame)) = 6 →
  42 ≤ blen buf →
  ∃ w',
    chirouter_process_ethernet_frame e frame w = Some (Return 0, w') ∧
    sent_icmp ICMPTYPE_DEST_UNREACHABLE ICMPCODE_DEST_NET_UNREACHABLE
      frame buf w w'.
Proof.
  intros Hbuf Hfor Hnone Hmac Hlen.
  assert (wp (chirouter_process_ethernet_frame e frame) w
            (λ c w', c = Return 0 ∧
               sent_icmp ICMPTYPE_DEST_UNREACHABLE
                 ICMPCODE_DEST_NET_UNREACHABLE frame buf w w')) as Hwp;
    last first.
  { apply wp_run in Hwp as (c & w' & Hrun & -> & HP). by exists w'. }
  pose proof Hfor as (_ & Hdst & _).
  apply (wp_try_to_forward e frame w buf dst); [done..|].
  unfold try_to_forward.
  apply wp_bind. eapply wp_get_matching_entry; [done..|].
  rewrite no_route_matches by done.
  apply wp_exec. eapply wp_mono.
  - apply (chirouter_send_icmp_spec _ _ _ _ buf); [done..|]. by split.
  - intros [] w' Hsent. done.
Qed.

(** ** What a defined result tells *)

Lemma bind_inv {A B} (m : M A) (k : A → M B) w b w' :
  bind m k w = Some (b, w') →
  ∃ a w1, m w = Some (a, w1) ∧ k a w1 = Some (b, w').
Proof.
  unfold bind. destruct (m w) as [[a w1]|]; [|done]. intros H. by exists a, w1.
Qed.

Lemma lift_inv {A} (o : option A) w a w' :
  lift o w = Some (a, w') → o = Some a ∧ w' = w.
Proof. unfold lift. destruct o; [|done]. by intros [= -> ->]. Qed.

Lemma ret_inv {A} (a : A) w b w' : ret a w = Some (b, w') → b = a ∧ w' = w.
Proof. by intros [= -> ->]. Qed.

Lemma frame_peek_inv frame off n w vs w' :
  frame_peek frame off n w = Some (vs, w') →
  w' = w ∧ ∃ buf, heap w !! raw frame = Some buf ∧ peek buf off n = Some vs.
Proof.
  unfold frame_peek. destruct (heap w !! raw frame) as [buf|]; [|done]. simpl.
  destruct (peek buf off n) as [vs'|] eqn:Hp; [|done]. simpl.
  intros [= -> ->]. eauto.
Qed.

Lemma frame_get8_inv frame off w v w' :
  frame_get8 frame off w = Some (v, w') →
  w' = w ∧ ∃ buf, heap w !! raw frame = Some buf ∧ get8 buf off = Some v.
Proof.
  unfold frame_get8. destruct (heap w !! raw frame) as [buf|]; [|done]. simpl.
  destruct (get8 buf off) as [v'|] eqn:Hp; [|done]. simpl.
  intros [= -> ->]. eauto.
Qed.

Lemma frame_get16_inv frame off w v w' :
  frame_get16 frame off w = Some (v, w') →
  w' = w ∧ ∃ buf, heap w !! raw frame = Some buf ∧ get16 buf off = Some v.
Proof.
  unfold frame_get16. destruct (heap w !! raw frame) as [buf|]; [|done]. simpl.
  destruct (get16 buf off) as [v'|] eqn:Hp; [|done]. simpl.
  intros [= -> ->]. eauto.
Qed.

Lemma frame_get32_inv frame off w v w' :
  frame_get32 frame off w = Some (v, w') →
  w' = w ∧ ∃ buf, heap w !! raw frame = Some buf ∧ get32 buf off = Some v.
Proof.
  unfold frame_get32. destruct (heap w !! raw frame) as [buf|]; [|done]. simpl.
  destruct (get32 buf off) as [v'|] eqn:Hp; [|done]. simpl.
  intros [= -> ->]. eauto.
Qed.

Lemma get8_Some (b : bytes) (off v : Z) :
  get8 b off = Some v → 0 ≤ off ∧ off + 1 ≤ blen b.
Proof.
  unfold get8. destruct (peek b off 1) as [vs|] eqn:Hp; [|done].
  apply peek_Some in Hp. lia.
Qed.

Lemma get16_Some (b : bytes) (off v : Z) :
  get16 b off = Some v → 0 ≤ off ∧ off + 2 ≤ blen b.
Proof.
  unfold get16. destruct (peek b off 2) as [vs|] eqn:Hp; [|done].
  apply peek_Some in Hp. lia.
Qed.

Lemma get32_Some (b : bytes) (off v : Z) :
  get32 b off = Some v → 0 ≤ off ∧ off + 4 ≤ blen b.
Proof.
  unfold get32. destruct (peek b off 4) as [vs|] eqn:Hp; [|done].
  apply peek_Some in Hp. lia.
Qed.

(** A defined run, taken apart into its steps: every bind gives the run
    of its first computation, every read of the frame gives the bytes
    read, and the world of a step that only reads is the world before. *)
Ltac run_inv :=
  repeat (cbn beta in *; match goal with
  | H : bind _ _ _ = Some _ |- _ =>
      let H1 := fresh "Hstep" in apply bind_inv in H as (? & ? & H1 & H)
  | H : lift _ _ = Some _ |- _ => apply lift_inv in H as [H ->]
  | H : ret _ _ = Some _ |- _ => apply ret_inv in H as [-> ->]
  | H : frame_peek _ _ _ _ = Some _ |- _ =>
      apply frame_peek_inv in H as (-> & ? & ? & H)
  | H : frame_get8 _ _ _ = Some _ |- _ =>
      apply frame_get8_inv in H as (-> & ? & ? & H)
  | H : frame_get16 _ _ _ = Some _ |- _ =>
      apply frame_get16_inv in H as (-> & ? & ? & H)
  | H : frame_get32 _ _ _ = Some _ |- _ =>
      apply frame_get32_inv in H as (-> & ? & ? & H)
  end).

(** X3. An ICMP message of a type other than echo reply and echo
    request (destination unreachable, time exceeded) is 70 bytes long
    whatever the size of the frame that triggered it: its IP total
    length is 56, the four bytes after the ICMP checksum are zero, and
    its payload is the first 28 bytes of the triggering datagram (the IP
    header and the eight bytes after it). *)
Theorem icmp_error_quotes_datagram type code frame w buf :
  heap w !! raw frame = Some buf →
  blen (mac (in_interface frame)) = 6 →
  is_echo type = false →
  42 ≤ blen buf →
  ∃ reply,
    chirouter_send_icmp type code frame w
    = Some (tt, emit w (in_interface frame) reply) ∧
    blen reply = 70 ∧
    get16 reply off_ip_len = Some 56 ∧
    get8 reply off_icmp_type = Some type ∧
    get8 reply off_icmp_code = Some code ∧
    peek reply off_icmp_identifier 4 = Some [0; 0; 0; 0] ∧
    peek reply off_icmp_payload 28 = peek buf sizeof_ethhdr_t 28.
Proof.
  intros Hbuf Hmac Hne Hlen.
  assert (icmp_trigger_ok type buf) as Hok.
  { split; [done|]. by rewrite Hne. }
  pose proof (chirouter_send_icmp_spec type code frame w buf Hbuf Hmac Hok)
    as Hwp.
  apply wp_run in Hwp as ([] & w' & Hrun & reply & -> & Hmsg).
  exists reply.
  destruct Hmsg as [_ _ _ _ _ Hiplen _ _ _ _ _ _ _ Htype Hcode _ Hblen Hbody].
  rewrite Hne in *. destruct Hbody as [Hunused Hquote].
  split_and!; try done.
  unfold get16. rewrite Hiplen, Hblen. reflexivity.
Qed.

(** X4. [chirouter_send_icmp] copies 28 bytes of the triggering
    datagram into an error message without looking at the length of the
    frame: for a type other than echo, the call has a defined result
    exactly when the frame's buffer holds at least 42 bytes; on a shorter
    frame the copy reads past the end of the buffer. *)
Theorem icmp_error_needs_42_bytes type code frame w buf :
  heap w !! raw frame = Some buf →
  blen (mac (in_interface frame)) = 6 →
  is_echo type = false →
  is_Some (chirouter_send_icmp type code frame w) ↔ 42 ≤ blen buf.
Proof.
  intros Hbuf Hmac Hne. split.
  - intros [[[] w'] Hrun]. unfold chirouter_send_icmp in Hrun.
    rewrite Hne in Hrun. run_inv.
    assert (∃ w1 payload,
              frame_peek frame sizeof_ethhdr_t (sizeof_iphdr_t + 8) w1
              = Some (payload, w1) ∧ heap w1 = heap w) as (w1 & p & Hp & Hw).
    { destruct (type =? ICMPTYPE_DEST_UNREACHABLE); run_inv.
      all: eexists _, _; split; [|reflexivity].
      all: unfold frame_peek; by simplify_option_eq. }
    apply frame_peek_inv in Hp as (_ & buf' & Hbuf' & Hp).
    rewrite Hw, Hbuf in Hbuf'. injection Hbuf' as <-.
    apply peek_Some in Hp. consts. lia.
  - intros Hlen.
    assert (icmp_trigger_ok type buf) as Hok.
    { split; [done|]. by rewrite Hne. }
    pose proof (chirouter_send_icmp_spec type code frame w buf Hbuf Hmac Hok)
      as Hwp.
    apply wp_run in Hwp as (u & w' & Hrun & _). by eexists.
Qed.

(** ** Runs as equations *)

Lemma send_echo_reply_defined frame w buf len :
  heap w !! raw frame = Some buf →
  blen (mac (in_interface frame)) = 6 →
  get16 buf off_ip_len = Some len →
  is_Some (chirouter_send_icmp ICMPTYPE_ECHO_REPLY 0 frame w) ↔
  sizeof_iphdr_t + ICMP_HDR_SIZE ≤ len ∧ sizeof_ethhdr_t + len ≤ blen buf.
Proof.
  intros Hbuf Hmac Hlen. split.
  - intros [[[] w'] Hrun]. unfold chirouter_send_icmp in Hrun.
    change (is_echo ICMPTYPE_ECHO_REPLY) with true in Hrun.
    change (0 =? 0) with true in Hrun. cbn match in Hrun. run_inv.
    simplify_eq.
    match goal with
    | H : peek _ off_icmp_payload _ = Some _ |- _ => apply peek_Some in H
    end.
    consts. lia.
  - intros [Hl1 Hl2].
    assert (icmp_trigger_ok ICMPTYPE_ECHO_REPLY buf) as Hok.
    { consts. split; [lia|]. intros _. exists len. split_and!; [done|lia..]. }
    pose proof (chirouter_send_icmp_spec ICMPTYPE_ECHO_REPLY 0 frame w buf
                  Hbuf Hmac Hok) as Hwp.
    apply wp_run in Hwp as (u & w' & Hrun & _). by eexists.
Qed.

Lemma bind_run {A B} (m : M A) (k : A → M B) w a w1 :
  m w = Some (a, w1) → bind m k w = k a w1.
Proof. intros H. unfold bind. by rewrite H. Qed.

Lemma frame_peek_run frame off n w buf vs :
  heap w !! raw frame = Some buf → peek buf off n = Some vs →
  frame_peek frame off n w = Some (vs, w).
Proof. intros Hb Hp. unfold frame_peek. rewrite Hb. simpl. by rewrite Hp. Qed.

Lemma frame_get8_run frame off w buf v :
  heap w !! raw frame = Some buf → get8 buf off = Some v →
  frame_get8 frame off w = Some (v, w).
Proof. intros Hb Hp. unfold frame_get8. rewrite Hb. simpl. by rewrite Hp. Qed.

Lemma frame_get16_run frame off w buf v :
  heap w !! raw frame = Some buf → get16 buf off = Some v →
  frame_get16 frame off w = Some (v, w).
Proof. intros Hb Hp. unfold frame_get16. rewrite Hb. simpl. by rewrite Hp. Qed.

Lemma frame_get32_run frame off w buf v :
  heap w !! raw frame = Some buf → get32 buf off = Some v →
  frame_get32 frame off w = Some (v, w).
Proof. intros Hb Hp. unfold frame_get32. rewrite Hb. simpl. by rewrite Hp. Qed.

Lemma seq_stmt_return_0 (s : M completion) w :
  seq_stmt s (ret (Return 0)) w
  = match s w with
    | Some (Normal, w') => Some (Return 0, w')
    | Some (Return v, w') => Some (Return v, w')
    | None => None
    end.
Proof. unfold seq_stmt, bind. by destruct (s w) as [[[|v] w']|]. Qed.

Lemma exec_run (m : M unit) w :
  exec m w = match m w with
             | Some (_, w') => Some (Normal, w')
             | None => None
             end.
Proof. unfold exec, bind. by destruct (m w) as [[[] w']|]. Qed.

(** The first steps of [chirouter_process_ethernet_frame] for an IPv4
    (or IPv6) frame: the ethertype and the destination are read. *)
Lemma process_ip_run e frame w buf dst :
  heap w !! raw frame = Some buf →
  get16 buf off_eth_type = Some ETHERTYPE_IP ∨
  get16 buf off_eth_type = Some ETHERTYPE_IPV6 →
  get32 buf off_ip_dst = Some dst →
  chirouter_process_ethernet_frame e frame w
  = seq_stmt
      (if dst =? ip (in_interface frame) then frame_comes_to_router frame
       else
         let! other := chirouter_find_match_router frame in
         if other then
           exec (chirouter_send_icmp ICMPTYPE_DEST_UNREACHABLE
                   ICMPCODE_DEST_HOST_UNREACHABLE frame)
         else try_to_forward e frame)
      (ret (Return 0)) w.
Proof.
  intros Hbuf Hty Hdst.
  assert (∃ t, get16 buf off_eth_type = Some t ∧
               (t =? ETHERTYPE_IP) || (t =? ETHERTYPE_IPV6) = true)
    as (t & Ht & Hcond).
  { destruct Hty as [Hty|Hty]; eexists; (split; [exact Hty|done]). }
  unfold chirouter_process_ethernet_frame.
  rewrite (bind_run _ _ _ t w) by (by apply (frame_get16_run _ _ _ buf)).
  rewrite Hcond, !seq_stmt_return_0.
  by rewrite (bind_run _ _ _ dst w) by (by apply (frame_get32_run _ _ _ buf)).
Qed.

Lemma process_echo_request_run e frame w buf ttl :
  heap w !! raw frame = Some buf →
  ip_for_this_interface frame buf →
  get8 buf off_ip_proto = Some IPPROTO_ICMP →
  get8 buf off_ip_ttl = Some ttl → ttl ≠ 1 →
  get8 buf off_icmp_type = Some ICMPTYPE_ECHO_REQUEST →
  chirouter_process_ethernet_frame e frame w
  = match chirouter_send_icmp ICMPTYPE_ECHO_REPLY 0 frame w with
    | Some (_, w') => Some (Return 0, w')
    | None => None
    end.
Proof.
  intros Hbuf [Hty Hdst] Hproto Httl Hne Hicmp.
  rewrite (process_ip_run e frame w buf (ip (in_interface frame))) by done.
  rewrite Z.eqb_refl, seq_stmt_return_0. unfold frame_comes_to_router.
  rewrite (bind_run _ _ _ IPPROTO_ICMP w)
    by (by apply (frame_get8_run _ _ _ buf)).
  cbn beta. change ((IPPROTO_ICMP =? IPPROTO_TCP) || (IPPROTO_ICMP =? IPPROTO_UDP))
    with false. cbn match.
  rewrite (bind_run _ _ _ ttl w) by (by apply (frame_get8_run _ _ _ buf)).
  cbn beta. destruct (Z.eqb_spec ttl 1) as [|_]; [done|].
  rewrite Z.eqb_refl.
  rewrite (bind_run _ _ _ ICMPTYPE_ECHO_REQUEST w)
    by (by apply (frame_get8_run _ _ _ buf)).
  cbn beta. rewrite Z.eqb_refl, exec_run.
  by destruct (chirouter_send_icmp _ _ _ _) as [[[] w']|].
Qed.

(** X5. The length of an echo request is taken from its IP header and
    not checked against the frame: for an echo request addressed to the
    ingress interface (TTL other than 1), the call has a defined result
    exactly when the total length [len] of the IP header is at least 28
    and [14 + len] bytes are in the frame's buffer.  A smaller [len]
    gives a reply too short for its own ICMP header, a larger one makes
    the copy of the payload read past the end of the buffer. *)
Theorem echo_request_length_unchecked e frame w buf ttl len :
  heap w !! raw frame = Some buf →
  ip_for_this_interface frame buf →
  get8 buf off_ip_proto = Some IPPROTO_ICMP →
  get8 buf off_ip_ttl = Some ttl → ttl ≠ 1 →
  get8 buf off_icmp_type = Some ICMPTYPE_ECHO_REQUEST →
  get16 buf off_ip_len = Some len →
  blen (mac (in_interface frame)) = 6 →
  is_Some (chirouter_process_ethernet_frame e frame w) ↔
  sizeof_iphdr_t + ICMP_HDR_SIZE ≤ len ∧ sizeof_ethhdr_t + len ≤ blen buf.
Proof.
  intros Hbuf Hfor Hproto Httl Hne Hicmp Hlen Hmac.
  rewrite (process_echo_request_run e frame w buf ttl) by done.
  rewrite <- (send_echo_reply_defined frame w buf len) by done.
  destruct (chirouter_send_icmp _ _ _ _) as [[[] w']|].
  - split; eauto.
  - split; intros [? ?]; done.
Qed.

(** ** Forwarding, in full *)

Lemma get_matching_entry_inv frame w r w' :
  chirouter_get_matching_entry frame w = Some (r, w') →
  w' = w ∧
  (routing_table (ctx w) = [] ∧ r = None ∨
   ∃ buf dst, heap w !! raw frame = Some buf ∧
              get32 buf off_ip_dst = Some dst ∧
              r = matching_loop (routing_table (ctx w)) dst).
Proof.
  unfold chirouter_get_matching_entry.
  destruct (routing_table (ctx w)) as [|entry table] eqn:Htable.
  - intros [= <- <-]. split; [done|]. by left.
  - intros Hrun. run_inv. split; [done|]. right. eauto.
Qed.

Lemma rtable_deref_inv rentry w route w' :
  rtable_deref rentry w = Some (route, w') →
  w' = w ∧ ∃ i, rentry = Some i ∧ routing_table (ctx w) !! i = Some route.
Proof.
  unfold rtable_deref. destruct rentry as [i|]; [|done]. simpl.
  destruct (routing_table (ctx w) !! i) as [r|] eqn:Hr; [|done]. simpl.
  intros [= -> ->]. eauto.
Qed.

Lemma memcpy_Some (dst : bytes) (doff : Z) (src : bytes) (soff n : Z)
    (b' : bytes) :
  memcpy dst doff src soff n = Some b' →
  0 ≤ n ∧ soff + n ≤ blen src ∧ 0 ≤ doff ∧ doff + n ≤ blen dst ∧
  blen b' = blen dst.
Proof.
  unfold memcpy. destruct (peek src soff n) as [vs|] eqn:Hp; [|done]. simpl.
  intros Hpoke. apply peek_Some in Hp. apply poke_Some in Hpoke. lia.
Qed.

(** X6. [forward_ip_datagram] dereferences the routing entry and
    copies [ntohs(ip.len)] bytes unchecked: with 6-byte MAC addresses, it
    has a defined result exactly when route lookup finds an entry for
    the frame's destination and the frame is at least 34 bytes long with
    an IP total length that fits both the frame's buffer and
    [frame->length]. *)
Theorem forward_ip_datagram_defined frame dst_mac w buf :
  heap w !! raw frame = Some buf →
  blen dst_mac = 6 →
  Forall (λ r, blen (mac (interface r)) = 6) (routing_table (ctx w)) →
  is_Some (forward_ip_datagram frame dst_mac w) ↔
  (∃ route, route_of (routing_table (ctx w)) buf route) ∧
  forward_trigger_ok frame buf.
Proof.
  intros Hbuf Hdmac Hmacs. split.
  - intros [[[] w'] Hrun]. unfold forward_ip_datagram in Hrun.
    apply bind_inv in Hrun as (rentry & w1 & Hentry & Hrun).
    apply get_matching_entry_inv in Hentry as [-> Hentry].
    run_inv.
    match goal with
    | H : rtable_deref _ _ = Some _ |- _ =>
        apply rtable_deref_inv in H as (-> & i & -> & Hroute)
    end.
    run_inv. simplify_eq.
    destruct Hentry as [[_ ?]|(buf' & dst & Hbuf' & Hdst & Hloop)]; [done|].
    simplify_eq. split.
    { eexists. exists dst, i. done. }
    repeat match goal with
    | H : zeros _ = Some _ |- _ => apply zeros_Some in H as (? & ? & _)
    | H : memcpy _ _ _ _ _ = Some _ |- _ => apply memcpy_Some in H
    | H : poke _ _ _ = Some _ |- _ => apply poke_Some in H
    | H : get32 _ _ = Some _ |- _ => apply get32_Some in H
    end.
    match goal with
    | H : get16 buf off_ip_len = Some ?len |- _ =>
        unfold forward_trigger_ok; split_and!; [| |exists len]
    end.
    3: split; [done|].
    all: repeat match goal with
         | H : peek _ _ _ = Some _ |- _ => apply peek_Some in H as (?&?&?&?&_)
         end.
    all: consts; bounds.
  - intros [(route & Hroute) Hok].
    assert (blen (mac (interface route)) = 6) as Hmac.
    { destruct Hroute as (dst & i & _ & _ & Hi).
      by apply (Forall_lookup_1 _ _ _ _ Hmacs Hi). }
    pose proof (forward_ip_datagram_spec frame dst_mac w buf route Hbuf Hroute
                  Hok Hdmac Hmac) as Hwp.
    apply wp_run in Hwp as (u & w' & Hrun & _). by eexists.
Qed.

(** The frame that [forward_ip_datagram] sends, as the writes that build
    it. *)
Lemma forward_ip_datagram_run frame dst_mac w buf route len ttl :
  heap w !! raw frame = Some buf →
  route_of (routing_table (ctx w)) buf route →
  forward_trigger_ok frame buf →
  blen dst_mac = 6 →
  blen (mac (interface route)) = 6 →
  get16 buf off_ip_len = Some len →
  get8 buf off_ip_ttl = Some ttl →
  ∃ m0 m1 m2 m3 datagram m4 m5 m6 hdr m7,
    zeros (frame_length frame) = Some m0 ∧
    poke m0 off_eth_dst dst_mac = Some m1 ∧
    poke m1 off_eth_src (mac (interface route)) = Some m2 ∧
    poke m2 off_eth_type (be16 ETHERTYPE_IP) = Some m3 ∧
    peek buf sizeof_ethhdr_t len = Some datagram ∧
    poke m3 sizeof_ethhdr_t datagram = Some m4 ∧
    poke m4 off_ip_ttl [(ttl - 1) `mod` 256] = Some m5 ∧
    poke m5 off_ip_cksum (be16 0) = Some m6 ∧
    peek m6 sizeof_ethhdr_t sizeof_iphdr_t = Some hdr ∧
    poke m6 off_ip_cksum (be16 (cksum hdr)) = Some m7 ∧
    forward_ip_datagram frame dst_mac w
    = Some (tt, emit w (interface route) m7).
Proof.
  intros Hbuf (dst & i & Hdst & Hloop & Hroute)
    (Hflen & Hblen & len' & Hget & Hl0 & Hl1 & Hl2) Hdmac Hsmac Hlen Httl.
  assert (len' = len) as -> by congruence.
  assert (wp (forward_ip_datagram frame dst_mac) w
            (λ _ w', ∃ m0 m1 m2 m3 datagram m4 m5 m6 hdr m7,
               zeros (frame_length frame) = Some m0 ∧
               poke m0 off_eth_dst dst_mac = Some m1 ∧
               poke m1 off_eth_src (mac (interface route)) = Some m2 ∧
               poke m2 off_eth_type (be16 ETHERTYPE_IP) = Some m3 ∧
               peek buf sizeof_ethhdr_t len = Some datagram ∧
               poke m3 sizeof_ethhdr_t datagram = Some m4 ∧
               poke m4 off_ip_ttl [(ttl - 1) `mod` 256] = Some m5 ∧
               poke m5 off_ip_cksum (be16 0) = Some m6 ∧
               peek m6 sizeof_ethhdr_t sizeof_iphdr_t = Some hdr ∧
               poke m6 off_ip_cksum (be16 (cksum hdr)) = Some m7 ∧
               w' = emit w (interface route) m7)) as Hwp; last first.
  { apply wp_run in Hwp
      as ([] & w' & Hrun & m0 & m1 & m2 & m3 & d & m4 & m5 & m6 & h & m7 & H).
    exists m0, m1, m2, m3, d, m4, m5, m6, h, m7.
    destruct H as (?&?&?&?&?&?&?&?&?&?&->). done. }
  unfold forward_ip_datagram. consts.
  apply wp_bind. eapply wp_get_matching_entry; [done..|]. rewrite Hloop.
  destruct (zeros_is_Some (frame_length frame)) as [m0 Hz]; [lia|].
  pose proof (zeros_Some _ _ Hz) as (_ & Hlen0 & _).
  apply wp_bind. apply (wp_lift _ _ _ _ Hz). cbn beta.
  rewrite memcpy_all by done. step_poke m1 H1.
  apply wp_bind. eapply wp_rtable_deref; [done|].
  rewrite memcpy_all by done. step_poke m2 H2. step_poke m3 H3.
  apply wp_bind. eapply wp_frame_get16; [done..|].
  step_frame_peek Hbuf datagram Hdatagram. step_poke m4 H4.
  apply wp_bind. eapply wp_frame_get8; [done..|].
  step_poke m5 H5. step_poke m6 H6. step_peek hdr Hhdr. step_poke m7 H7.
  apply wp_send_frame; [lia|].
  exists m0, m1, m2, m3, datagram, m4, m5, m6, hdr, m7. done.
Qed.

(** X7. The frame that [forward_ip_datagram] sends is as long as the
    inbound frame and carries the datagram with only the TTL and the
    checksum of the IP header changed: the first eight bytes of the IP
    header, the protocol, and everything from the source address to the
    end of the datagram are those of the inbound frame.  Bytes of the
    inbound frame after the datagram (the IP total length) are not
    copied: that part of the new frame is zero. *)
Theorem forwarded_frame_contents frame dst_mac w buf route len :
  heap w !! raw frame = Some buf →
  route_of (routing_table (ctx w)) buf route →
  blen dst_mac = 6 →
  blen (mac (interface route)) = 6 →
  get16 buf off_ip_len = Some len →
  sizeof_iphdr_t ≤ len →
  sizeof_ethhdr_t + len ≤ blen buf →
  sizeof_ethhdr_t + len ≤ frame_length frame →
  ∃ msg,
    forward_ip_datagram frame dst_mac w
    = Some (tt, emit w (interface route) msg) ∧
    blen msg = frame_length frame ∧
    peek msg sizeof_ethhdr_t 8 = peek buf sizeof_ethhdr_t 8 ∧
    get8 msg off_ip_proto = get8 buf off_ip_proto ∧
    peek msg off_ip_src (len - 12) = peek buf off_ip_src (len - 12) ∧
    peek msg (sizeof_ethhdr_t + len)
      (frame_length frame - (sizeof_ethhdr_t + len))
    = Some (replicate
              (Z.to_nat (frame_length frame - (sizeof_ethhdr_t + len))) 0).
Proof.
  intros Hbuf Hroute Hdmac Hsmac Hlen Hl0 Hl1 Hl2.
  destruct (get8_peek buf off_ip_ttl) as (ttl & _ & Httl); [consts; lia..|].
  destruct (forward_ip_datagram_run frame dst_mac w buf route len ttl)
    as (m0 & m1 & m2 & m3 & datagram & m4 & m5 & m6 & hdr & m7
        & Hz & H1 & H2 & H3 & Hdatagram & H4 & H5 & H6 & Hhdr & H7 & Hrun);
    [done|done| |done|done|done|done|].
  { unfold forward_trigger_ok. consts. split_and!; [lia..|].
    exists len. split_and!; [done|lia..]. }
  pose proof (peek_blen _ _ _ _ Hdatagram) as Hlend.
  pose proof (zeros_Some _ _ Hz) as (_ & Hlen0 & _).
  pose proof (poke_blen _ _ _ _ H1). pose proof (poke_blen _ _ _ _ H2).
  pose proof (poke_blen _ _ _ _ H3). pose proof (poke_blen _ _ _ _ H4).
  pose proof (poke_blen _ _ _ _ H5). pose proof (poke_blen _ _ _ _ H6).
  pose proof (poke_blen _ _ _ _ H7).
  assert (∀ o n, sizeof_ethhdr_t ≤ o → 0 ≤ n → o + n ≤ sizeof_ethhdr_t + len →
            o + n ≤ off_ip_ttl ∨ off_ip_proto ≤ o ∧ o + n ≤ off_ip_cksum
              ∨ off_ip_src ≤ o →
            peek m7 o n = peek buf o n) as Hcopy.
  { consts. intros o n Ho Hn Hon Hwhere.
    rewrite (peek_poke_other _ _ _ _ o n H7) by bounds.
    rewrite (peek_poke_other _ _ _ _ o n H6) by bounds.
    rewrite (peek_poke_other _ _ _ _ o n H5) by bounds.
    rewrite (peek_poke_within _ _ _ _ o n H4) by lia.
    rewrite (peek_peek _ _ _ _ (o - 14) n Hdatagram) by lia.
    f_equal. lia. }
  exists m7. consts. split_and!.
  - done.
  - lia.
  - apply Hcopy; lia.
  - unfold get8. rewrite Hcopy by lia. done.
  - apply Hcopy; lia.
  - by peek_back.
Qed.

(** X8. With the next hop's MAC address in the ARP cache and a TTL other
    than 1, a datagram for elsewhere is forwarded at once: exactly one
    frame is sent, on the interface of the matching route, to the cached
    MAC address, with that interface's MAC address as source and
    ethertype IPv4; the router's state is unchanged and the call returns
    0.  For a TTL from 2 to 255 the frame carries the TTL minus one, and
    the IP header checksum is recomputed. *)
Theorem cache_hit_forwards_to_next_hop e frame w buf dst route k entry ttl :
  heap w !! raw frame = Some buf →
  ip_for_elsewhere (ctx w) frame buf dst →
  route_of (routing_table (ctx w)) buf route →
  cached_for (get_forward_ip route dst) (ctx w) = Some (k, entry) →
  get8 buf off_ip_ttl = Some ttl → ttl ≠ 1 →
  forward_trigger_ok frame buf →
  blen (mac (interface route)) = 6 →
  blen (arp_mac entry) = 6 →
  ∃ msg,
    chirouter_process_ethernet_frame e frame w
    = Some (Return 0, emit w (interface route) msg) ∧
    blen msg = frame_length frame ∧
    peek msg off_eth_dst 6 = Some (arp_mac entry) ∧
    peek msg off_eth_src 6 = Some (mac (interface route)) ∧
    get16 msg off_eth_type = Some ETHERTYPE_IP ∧
    (2 ≤ ttl < 256 → get8 msg off_ip_ttl = Some (ttl - 1)) ∧
    checksummed msg sizeof_ethhdr_t sizeof_iphdr_t 10.
Proof.
  intros Hbuf Hfor Hroute Hhit Httl Hne Hfwd Hrmac Hemac.
  assert (wp (chirouter_process_ethernet_frame e frame) w
            (λ c w', c = Return 0 ∧
               ∃ msg, w' = emit w (interface route) msg ∧
                      forwarded frame buf (arp_mac entry) route msg)) as Hwp.
  { pose proof Hfor as (_ & Hdst & _).
    apply (wp_try_to_forward e frame w buf dst); [done..|].
    pose proof Hroute as (dst' & i & Hdst' & Hloop & Hentry).
    assert (dst' = dst) as -> by congruence.
    unfold try_to_forward.
    apply wp_bind. eapply wp_get_matching_entry; [done..|]. rewrite Hloop.
    apply wp_bind. eapply wp_rtable_deref; [done|].
    apply wp_bind. eapply wp_frame_get32; [done..|].
    apply wp_bind. eapply wp_state; [apply arp_cache_lookup_run|].
    rewrite Hhit. simpl.
    apply wp_bind. eapply wp_frame_get8; [done..|].
    destruct (Z.eqb_spec ttl 1) as [|_]; [done|].
    apply wp_exec. eapply wp_mono;
      [by apply (forward_ip_datagram_spec _ _ _ buf route)|].
    intros [] w' Hsent. done. }
  apply wp_run in Hwp as (c & w' & Hrun & -> & msg & -> & Hmsg).
  exists msg.
  pose proof (λ H, forwarded_ttl_decremented _ _ _ _ _ ttl Hmsg Httl H) as Hdec.
  destruct Hmsg as [Hlen Hdst Hsrc Hty _ Hck _].
  split_and!; try done. intros Hrange. apply Hdec. lia.
Qed.

(** ** ARP requests and other ARP messages *)

Lemma wp_send_arp_reply iface tha tpa w (Q : unit → world → Prop) :
  blen (mac iface) = 6 → blen tha = 6 →
  (∀ msg, arp_reply iface tha tpa msg → Q tt (emit w iface msg)) →
  wp (chirouter_send_arp_message iface (Some tha) tpa ARP_OP_REPLY) w Q.
Proof.
  intros Hmac Htha HQ. unfold chirouter_send_arp_message.
  apply wp_bind. eapply wp_lift; [rewrite <- Htha; apply peek_all|].
  apply wp_bind. eapply wp_lift; [rewrite <- Htha; apply peek_all|].
  apply wp_bind. eapply wp_lift; [rewrite <- Hmac; apply peek_all|].
  apply wp_send_frame; [done|]. apply HQ.
  destruct (blen_six _ Hmac) as (a & b & c & d & e' & f & Heq).
  destruct (blen_six _ Htha) as (a' & b' & c' & d' & e'' & f' & Heq').
  unfold arp_reply. rewrite Heq, Heq'. split_and!; reflexivity.
Qed.

(** The first steps of [chirouter_process_ethernet_frame] for an ARP
    frame: the ethertype and the target protocol address are read. *)
Lemma wp_process_arp e frame w buf tpa (Q : completion → world → Prop) :
  heap w !! raw frame = Some buf →
  get16 buf off_eth_type = Some ETHERTYPE_ARP →
  get32 buf off_arp_tpa = Some tpa →
  (if tpa =? ip (in_interface frame)
   then ∃ op, get16 buf off_arp_op = Some op ∧
          wp (if op =? ARP_OP_REPLY then arp_reply_received e frame
              else
                let! op := frame_get16 frame off_arp_op in
                if op =? ARP_OP_REQUEST then
                  let! sha := frame_peek frame off_arp_sha ETHER_ADDR_LEN in
                  let! spa := frame_get32 frame off_arp_spa in
                  exec (chirouter_send_arp_message (in_interface frame)
                          (Some sha) spa ARP_OP_REPLY)
                else ret Normal) w
            (λ c w', match c with
                     | Normal => Q (Return 0) w'
                     | Return v => Q (Return v) w'
                     end)
   else Q (Return 0) w) →
  wp (chirouter_process_ethernet_frame e frame) w Q.
Proof.
  intros Hbuf Hty Htpa H. unfold chirouter_process_ethernet_frame.
  apply wp_bind. eapply wp_frame_get16; [done..|]. simpl.
  unfold arp_message.
  apply wp_bind. eapply wp_frame_get32; [done..|].
  destruct (tpa =? ip (in_interface frame)); [|by apply wp_ret].
  destruct H as (op & Hop & H).
  apply wp_bind. eapply wp_frame_get16; [done..|].
  apply wp_seq_stmt. eapply wp_mono; [exact H|].
  intros [|v] w' HQ; [by apply wp_ret|done].
Qed.

(** X9. An ARP request whose target protocol address is the ingress
    interface's IP is answered with one ARP reply on that interface,
    addressed to the requester's hardware and protocol address, with the
    interface's MAC and IP address as sender; the ARP cache and the
    pending requests are unchanged (the requester is not learned) and
    the call returns 0. *)
Theorem arp_request_is_answered e frame w buf sha spa :
  heap w !! raw frame = Some buf →
  get16 buf off_eth_type = Some ETHERTYPE_ARP →
  get32 buf off_arp_tpa = Some (ip (in_interface frame)) →
  get16 buf off_arp_op = Some ARP_OP_REQUEST →
  peek buf off_arp_sha 6 = Some sha →
  get32 buf off_arp_spa = Some spa →
  blen (mac (in_interface frame)) = 6 →
  ∃ reply,
    chirouter_process_ethernet_frame e frame w
    = Some (Return 0, emit w (in_interface frame) reply) ∧
    arp_reply (in_interface frame) sha spa reply.
Proof.
  intros Hbuf Hty Htpa Hop Hsha Hspa Hmac.
  assert (wp (chirouter_process_ethernet_frame e frame) w
            (λ c w', c = Return 0 ∧
               ∃ reply, w' = emit w (in_interface frame) reply ∧
                        arp_reply (in_interface frame) sha spa reply)) as Hwp.
  { apply (wp_process_arp e frame w buf (ip (in_interface frame))); [done..|].
    rewrite Z.eqb_refl. exists ARP_OP_REQUEST. split; [done|].
    change (ARP_OP_REQUEST =? ARP_OP_REPLY) with false. cbn match.
    apply wp_bind. eapply wp_frame_get16; [done..|]. rewrite Z.eqb_refl.
    apply wp_bind. eapply wp_frame_peek; [done..|].
    apply wp_bind. eapply wp_frame_get32; [done..|].
    apply wp_exec. apply wp_send_arp_reply; [done|by apply peek_blen in Hsha|].
    intros reply Hreply. split; [done|]. by exists reply. }
  apply wp_run in Hwp as (c & w' & Hrun & -> & reply & -> & Hreply).
  by exists reply.
Qed.

(** X10. An ARP message whose target protocol address is not the
    ingress interface's IP, or whose operation is neither request nor
    reply, is dropped: nothing is sent, nothing changes, and the call
    returns 0. *)
Theorem arp_not_for_router_ignored e frame w buf tpa op :
  heap w !! raw frame = Some buf →
  get16 buf off_eth_type = Some ETHERTYPE_ARP →
  get32 buf off_arp_tpa = Some tpa →
  get16 buf off_arp_op = Some op →
  tpa ≠ ip (in_interface frame) ∨
  (op ≠ ARP_OP_REQUEST ∧ op ≠ ARP_OP_REPLY) →
  chirouter_process_ethernet_frame e frame w = Some (Return 0, w).
Proof.
  intros Hbuf Hty Htpa Hop Hwhy.
  assert (wp (chirouter_process_ethernet_frame e frame) w
            (λ c w', c = Return 0 ∧ w' = w)) as Hwp.
  { apply (wp_process_arp e frame w buf tpa); [done..|].
    destruct (Z.eqb_spec tpa (ip (in_interface frame))) as [Heq|_]; [|done].
    destruct Hwhy as [?|[Hreq Hrep]]; [done|].
    exists op. split; [done|].
    destruct (Z.eqb_spec op ARP_OP_REPLY) as [|_]; [done|].
    apply wp_bind. eapply wp_frame_get16; [done..|].
    destruct (Z.eqb_spec op ARP_OP_REQUEST) as [|_]; [done|].
    by apply wp_ret. }
  by apply wp_run in Hwp as (c & w' & Hrun & -> & ->).
Qed.

(** X11. [chirouter_process_ethernet_frame] reads the headers without
    looking at the length of the frame.  A call with a defined result
    had a buffer with a complete Ethernet header; for the ethertypes IPv4
    and IPv6 the buffer held at least 34 bytes (the destination address
    of the IP header is read), for ARP at least 42 (the target protocol
    address is read). *)
Theorem process_reads_headers e frame w c w' :
  chirouter_process_ethernet_frame e frame w = Some (c, w') →
  ∃ buf t,
    heap w !! raw frame = Some buf ∧
    get16 buf off_eth_type = Some t ∧
    sizeof_ethhdr_t ≤ blen buf ∧
    (t = ETHERTYPE_IP ∨ t = ETHERTYPE_IPV6 →
     sizeof_ethhdr_t + sizeof_iphdr_t ≤ blen buf) ∧
    (t = ETHERTYPE_ARP → 42 ≤ blen buf).
Proof.
  intros Hrun. unfold chirouter_process_ethernet_frame in Hrun.
  apply bind_inv in Hrun as (t & w1 & Hty & Hrun).
  apply frame_get16_inv in Hty as (-> & buf & Hbuf & Hty).
  exists buf, t. pose proof (get16_Some _ _ _ Hty) as Hlen.
  split_and!; [done|done|consts; lia| |].
  - intros Hip.
    assert ((t =? ETHERTYPE_IP) || (t =? ETHERTYPE_IPV6) = true) as Hcond.
    { by destruct Hip as [->| ->]. }
    rewrite Hcond in Hrun. unfold seq_stmt in Hrun. run_inv. simplify_eq.
    match goal with
    | H : get32 _ off_ip_dst = Some _ |- _ => apply get32_Some in H
    end.
    consts. lia.
  - intros ->. simpl in Hrun. unfold arp_message in Hrun. run_inv.
    simplify_eq.
    match goal with
    | H : get32 _ off_arp_tpa = Some _ |- _ => apply get32_Some in H
    end.
    consts. lia.
Qed.

(** ** What a call keeps *)

Section keeps.
Context (R : relation world) `{!PreOrder R}.

Lemma keeps_ret {A} (a : A) : keeps R (ret a).
Proof. intros w a' w' [= _ <-]. reflexivity. Qed.

Lemma keeps_lift {A} (o : option A) : keeps R (lift o).
Proof. intros w a w' [_ ->]%lift_inv. reflexivity. Qed.

Lemma keeps_bind {A B} (m : M A) (k : A → M B) :
  keeps R m → (∀ a, keeps R (k a)) → keeps R (bind m k).
Proof.
  intros Hm Hk w b w' (a & w1 & H1 & H2)%bind_inv.
  transitivity w1; [by eapply Hm|by eapply Hk].
Qed.

Lemma keeps_foreach {A} (l : list A) (body : A → M unit) :
  (∀ x, keeps R (body x)) → keeps R (foreach l body).
Proof.
  intros Hbody. induction l as [|x l IH]; simpl.
  - apply keeps_ret.
  - apply keeps_bind; [apply Hbody|]. intros _. apply IH.
Qed.

Lemma keeps_frame_peek frame off n : keeps R (frame_peek frame off n).
Proof. intros w a w' (-> & _)%frame_peek_inv. reflexivity. Qed.

Lemma keeps_frame_get8 frame off : keeps R (frame_get8 frame off).
Proof. intros w a w' (-> & _)%frame_get8_inv. reflexivity. Qed.

Lemma keeps_frame_get16 frame off : keeps R (frame_get16 frame off).
Proof. intros w a w' (-> & _)%frame_get16_inv. reflexivity. Qed.

Lemma keeps_frame_get32 frame off : keeps R (frame_get32 frame off).
Proof. intros w a w' (-> & _)%frame_get32_inv. reflexivity. Qed.

Lemma keeps_get_matching_entry frame :
  keeps R (chirouter_get_matching_entry frame).
Proof. intros w a w' [-> _]%get_matching_entry_inv. reflexivity. Qed.

Lemma keeps_find_match_router frame :
  keeps R (chirouter_find_match_router frame).
Proof.
  intros w a w' Hrun. unfold chirouter_find_match_router in Hrun.
  destruct (interfaces (ctx w)).
  - injection Hrun as _ <-. reflexivity.
  - run_inv. reflexivity.
Qed.

Lemma keeps_rtable_deref rentry : keeps R (rtable_deref rentry).
Proof. intros w a w' [-> _]%rtable_deref_inv. reflexivity. Qed.

Lemma keeps_arp_cache_lookup ip_addr :
  keeps R (chirouter_arp_cache_lookup ip_addr).
Proof. intros w a w' [= _ <-]. reflexivity. Qed.

Lemma keeps_arp_pending_req_lookup ip_addr :
  keeps R (chirouter_arp_pending_req_lookup ip_addr).
Proof. intros w a w' [= _ <-]. reflexivity. Qed.

Lemma keeps_pending_req_get pending_req :
  keeps R (pending_req_get pending_req).
Proof.
  intros w a w' Hrun. unfold pending_req_get in Hrun.
  destruct (_ !! pending_req); simpl in Hrun; [|done].
  injection Hrun as _ <-. reflexivity.
Qed.

Lemma keeps_send_frame `{!AcrossSend R} iface msg len :
  keeps R (chirouter_send_frame iface msg len).
Proof.
  unfold chirouter_send_frame. apply keeps_bind; [apply keeps_lift|].
  intros out w a w' [= _ <-]. apply across_send.
Qed.

Lemma keeps_arp_pending_req_add `{!AcrossPending R} ip_addr iface :
  keeps R (chirouter_arp_pending_req_add ip_addr iface).
Proof. intros w a w' [= _ <-]. apply across_pending. Qed.

Lemma keeps_pending_req_set `{!AcrossPending R} pending_req f :
  keeps R (pending_req_set pending_req f).
Proof.
  intros w a w' Hrun. unfold pending_req_set in Hrun.
  destruct (_ !! pending_req); simpl in Hrun; [|done].
  simplify_eq. apply across_pending.
Qed.

Lemma keeps_pending_req_delete `{!AcrossPending R} pending_req :
  keeps R (pending_req_delete pending_req).
Proof. intros w a w' [= _ <-]. apply across_pending. Qed.

Lemma keeps_arp_pending_req_add_frame `{!AcrossPending R, !AcrossHeap R}
    e pending_req frame :
  keeps R (chirouter_arp_pending_req_add_frame e pending_req frame).
Proof.
  unfold chirouter_arp_pending_req_add_frame.
  destruct (frame_copy_fails e); [apply keeps_ret|].
  apply keeps_bind; [apply keeps_frame_peek|]. intros copy.
  apply keeps_bind; [apply keeps_pending_req_get|]. intros r.
  intros w a w' Hrun. cbn zeta in Hrun.
  destruct (pending_req_set _ _ _) as [[[] w2]|] eqn:Hset; [|done].
  injection Hrun as _ <-.
  etransitivity; [apply across_heap|]. by eapply keeps_pending_req_set.
Qed.

Lemma keeps_arp_pending_req_free_frames `{!AcrossPending R, !AcrossHeap R}
    pending_req :
  keeps R (chirouter_arp_pending_req_free_frames pending_req).
Proof.
  unfold chirouter_arp_pending_req_free_frames.
  apply keeps_bind; [apply keeps_pending_req_get|]. intros r.
  apply keeps_bind.
  { intros w a w' [= _ <-]. apply across_heap. }
  intros _. apply keeps_bind; [apply keeps_pending_req_set|].
  intros _. apply keeps_ret.
Qed.

Lemma keeps_arp_cache_add `{!AcrossCache R} e ip_addr mac_addr :
  keeps R (chirouter_arp_cache_add e ip_addr mac_addr).
Proof.
  intros w a w' Hrun. unfold chirouter_arp_cache_add in Hrun.
  destruct (list_find _ _) as [[i old]|].
  - injection Hrun as _ <-. apply across_cache.
  - destruct (cache_grow_fails e); injection Hrun as _ <-.
    + reflexivity.
    + apply across_cache.
Qed.

End keeps.

(** One step of a proof that a computation keeps [R]: the computation is
    taken apart, down to the steps above. *)
Ltac keeps_step :=
  lazymatch goal with
  | |- keeps ?R (bind _ _) => apply (keeps_bind R); [|intros ?]
  | |- keeps ?R (ret _) => apply (keeps_ret R)
  | |- keeps ?R (lift _) => apply (keeps_lift R)
  | |- keeps _ (exec _) => unfold exec
  | |- keeps _ (seq_stmt _ _) => unfold seq_stmt
  | |- keeps ?R (foreach _ _) => apply (keeps_foreach R); intros ?
  | |- keeps ?R (frame_peek _ _ _) => apply (keeps_frame_peek R)
  | |- keeps ?R (frame_get8 _ _) => apply (keeps_frame_get8 R)
  | |- keeps ?R (frame_get16 _ _) => apply (keeps_frame_get16 R)
  | |- keeps ?R (frame_get32 _ _) => apply (keeps_frame_get32 R)
  | |- keeps ?R (chirouter_send_frame _ _ _) => apply (keeps_send_frame R)
  | |- keeps ?R (chirouter_get_matching_entry _) =>
      apply (keeps_get_matching_entry R)
  | |- keeps ?R (chirouter_find_match_router _) =>
      apply (keeps_find_match_router R)
  | |- keeps ?R (rtable_deref _) => apply (keeps_rtable_deref R)
  | |- keeps ?R (chirouter_arp_cache_lookup _) =>
      apply (keeps_arp_cache_lookup R)
  | |- keeps ?R (chirouter_arp_cache_add _ _ _) =>
      apply (keeps_arp_cache_add R)
  | |- keeps ?R (chirouter_arp_pending_req_lookup _) =>
      apply (keeps_arp_pending_req_lookup R)
  | |- keeps ?R (chirouter_arp_pending_req_add _ _) =>
      apply (keeps_arp_pending_req_add R)
  | |- keeps ?R (chirouter_arp_pending_req_add_frame _ _ _) =>
      apply (keeps_arp_pending_req_add_frame R)
  | |- keeps ?R (chirouter_arp_pending_req_free_frames _) =>
      apply (keeps_arp_pending_req_free_frames R)
  | |- keeps ?R (pending_req_get _) => apply (keeps_pending_req_get R)
  | |- keeps ?R (pending_req_set _ _) => apply (keeps_pending_req_set R)
  | |- keeps ?R (pending_req_delete _) => apply (keeps_pending_req_delete R)
  | |- keeps _ (if ?b then _ else _) => destruct b
  | |- keeps _ (match ?x with _ => _ end) => destruct x
  end.

Section keeps_calls.
Context (R : relation world) `{!PreOrder R}.

Lemma keeps_send_icmp `{!AcrossSend R} type code frame :
  keeps R (chirouter_send_icmp type code frame).
Proof. unfold chirouter_send_icmp. repeat keeps_step. Qed.

Lemma keeps_forward_ip_datagram `{!AcrossSend R} frame dst_mac :
  keeps R (forward_ip_datagram frame dst_mac).
Proof. unfold forward_ip_datagram. repeat keeps_step. Qed.

Lemma keeps_send_arp_message `{!AcrossSend R} iface dst_mac dst_ip op :
  keeps R (chirouter_send_arp_message iface dst_mac dst_ip op).
Proof. unfold chirouter_send_arp_message. repeat keeps_step. Qed.

Lemma keeps_frame_comes_to_router `{!AcrossSend R} frame :
  keeps R (frame_comes_to_router frame).
Proof.
  unfold frame_comes_to_router.
  repeat first [ apply keeps_send_icmp | keeps_step ].
Qed.

Lemma keeps_try_to_forward `{!AcrossSend R, !AcrossPending R, !AcrossHeap R}
    e frame :
  keeps R (try_to_forward e frame).
Proof.
  unfold try_to_forward.
  repeat first [ apply keeps_send_icmp | apply keeps_forward_ip_datagram
               | apply keeps_send_arp_message | keeps_step ].
Qed.

(** What [chirouter_process_ethernet_frame] does with an IPv4 (or IPv6)
    frame. *)
Lemma keeps_ip_datagram `{!AcrossSend R, !AcrossPending R, !AcrossHeap R}
    e frame dst :
  keeps R
    (if dst =? ip (in_interface frame) then frame_comes_to_router frame
     else
       let! other := chirouter_find_match_router frame in
       if other then
         exec (chirouter_send_icmp ICMPTYPE_DEST_UNREACHABLE
                 ICMPCODE_DEST_HOST_UNREACHABLE frame)
       else try_to_forward e frame).
Proof.
  repeat first [ apply keeps_send_icmp | apply keeps_frame_comes_to_router
               | apply keeps_try_to_forward | keeps_step ].
Qed.

(** What it does with an ARP message for this interface that is not a
    reply. *)
Lemma keeps_arp_request `{!AcrossSend R} frame :
  keeps R
    (let! op := frame_get16 frame off_arp_op in
     if op =? ARP_OP_REQUEST then
       let! sha := frame_peek frame off_arp_sha ETHER_ADDR_LEN in
       let! spa := frame_get32 frame off_arp_spa in
       exec (chirouter_send_arp_message (in_interface frame) (Some sha)
               spa ARP_OP_REPLY)
     else ret Normal).
Proof. repeat first [ apply keeps_send_arp_message | keeps_step ]. Qed.

Lemma keeps_forward_withheld `{!AcrossSend R} sha elt :
  keeps R (forward_withheld sha elt).
Proof.
  unfold forward_withheld.
  repeat first [ apply keeps_send_icmp | apply keeps_forward_ip_datagram
               | keeps_step ].
Qed.

Lemma keeps_process_ethernet_frame
    `{!AcrossSend R, !AcrossPending R, !AcrossHeap R, !AcrossCache R}
    e frame :
  keeps R (chirouter_process_ethernet_frame e frame).
Proof.
  unfold chirouter_process_ethernet_frame, arp_message.
  apply keeps_bind; [done|apply keeps_frame_get16; done|]. intros hdr_type.
  destruct (_ || _).
  { unfold seq_stmt. apply keeps_bind; [done| |].
    - apply keeps_bind; [done|apply keeps_frame_get32; done|]. intros dst.
      apply keeps_ip_datagram.
    - intros [|v]; apply keeps_ret; done. }
  destruct (_ =? _); [|apply keeps_ret; done].
  apply keeps_bind; [done|apply keeps_frame_get32; done|]. intros tpa.
  destruct (_ =? _); [|apply keeps_ret; done].
  apply keeps_bind; [done|apply keeps_frame_get16; done|]. intros op.
  unfold seq_stmt.
  apply keeps_bind; [done| |intros [|v]; apply keeps_ret; done].
  destruct (_ =? _); [|apply keeps_arp_request].
  unfold arp_reply_received.
  repeat first [ apply keeps_forward_withheld | keeps_step ].
Qed.

End keeps_calls.

#[global] Instance configuration_kept_preorder : PreOrder configuration_kept.
Proof.
  split.
  - intros w. split_and!; [done..|]. exists []. by rewrite app_nil_r.
  - intros w1 w2 w3 (Hi1 & Ht1 & outs1 & Hw1) (Hi2 & Ht2 & outs2 & Hw2).
    split_and!; [congruence..|]. exists (outs1 ++ outs2).
    by rewrite Hw2, Hw1, app_assoc.
Qed.

#[global] Instance configuration_kept_send : AcrossSend configuration_kept.
Proof. intros w i msg. split_and!; [done..|]. by eexists. Qed.

#[global] Instance configuration_kept_pending :
  AcrossPending configuration_kept.
Proof.
  intros w p. split_and!; [done..|]. exists []. simpl. by rewrite app_nil_r.
Qed.

#[global] Instance configuration_kept_heap : AcrossHeap configuration_kept.
Proof.
  intros w h. split_and!; [done..|]. exists []. simpl. by rewrite app_nil_r.
Qed.

#[global] Instance configuration_kept_cache : AcrossCache configuration_kept.
Proof.
  intros w ac. split_and!; [done..|]. exists []. simpl. by rewrite app_nil_r.
Qed.

#[global] Instance arpcache_kept_preorder : PreOrder arpcache_kept.
Proof.
  split; [done|]. unfold arpcache_kept. intros w1 w2 w3 H1 H2. congruence.
Qed.

#[global] Instance arpcache_kept_send : AcrossSend arpcache_kept.
Proof. done. Qed.

#[global] Instance arpcache_kept_pending : AcrossPending arpcache_kept.
Proof. done. Qed.

#[global] Instance arpcache_kept_heap : AcrossHeap arpcache_kept.
Proof. done. Qed.

(** X12. A call never changes the router's interfaces or its routing
    table, and never touches the frames sent before: the frames on the
    wire after the call are those before it, followed by the frames the
    call sent. *)
Theorem configuration_is_kept e frame w c w' :
  chirouter_process_ethernet_frame e frame w = Some (c, w') →
  interfaces (ctx w') = interfaces (ctx w) ∧
  routing_table (ctx w') = routing_table (ctx w) ∧
  ∃ outs, wire w' = wire w ++ outs.
Proof.
  intros Hrun.
  apply (keeps_process_ethernet_frame configuration_kept e frame w c w' Hrun).
Qed.

Lemma seq_stmt_inv (s1 s2 : M completion) w c w' :
  seq_stmt s1 s2 w = Some (c, w') →
  s1 w = Some (c, w') ∧ c ≠ Normal ∨
  ∃ w1, s1 w = Some (Normal, w1) ∧ s2 w1 = Some (c, w').
Proof.
  unfold seq_stmt. intros (c1 & w1 & H1 & H2)%bind_inv.
  destruct c1 as [|v].
  - right. by exists w1.
  - left. apply ret_inv in H2 as [-> ->]. done.
Qed.

(** X13. The ARP cache changes only on an ARP reply addressed to the
    ingress interface: if the cache after a call differs from the cache
    before, the frame was an ARP frame with operation reply whose target
    protocol address is the ingress interface's IP.  IP traffic, ARP
    requests and ARP replies for other addresses never change it. *)
Theorem arp_cache_changes_only_on_reply e frame w c w' buf :
  chirouter_process_ethernet_frame e frame w = Some (c, w') →
  heap w !! raw frame = Some buf →
  arpcache (ctx w') ≠ arpcache (ctx w) →
  get16 buf off_eth_type = Some ETHERTYPE_ARP ∧
  get32 buf off_arp_tpa = Some (ip (in_interface frame)) ∧
  get16 buf off_arp_op = Some ARP_OP_REPLY.
Proof.
  intros Hrun Hbuf Hchanged. unfold chirouter_process_ethernet_frame in Hrun.
  apply bind_inv in Hrun as (t & w1 & Hty & Hrun).
  apply frame_get16_inv in Hty as (-> & buf' & Hbuf' & Hty).
  assert (buf' = buf) as -> by congruence. clear Hbuf'.
  destruct ((t =? ETHERTYPE_IP) || (t =? ETHERTYPE_IPV6)).
  { destruct Hchanged. revert Hrun. unfold seq_stmt.
    apply (keeps_bind arpcache_kept); [|intros [|v]; apply (keeps_ret arpcache_kept)].
    apply (keeps_bind arpcache_kept); [apply (keeps_frame_get32 arpcache_kept)|].
    intros dst. apply (keeps_ip_datagram arpcache_kept). }
  destruct (Z.eqb_spec t ETHERTYPE_ARP) as [->|_]; last first.
  { apply ret_inv in Hrun as [_ ->]. done. }
  unfold arp_message in Hrun.
  apply bind_inv in Hrun as (tpa & w1 & Htpa & Hrun).
  apply frame_get32_inv in Htpa as (-> & buf' & Hbuf' & Htpa).
  assert (buf' = buf) as -> by congruence. clear Hbuf'.
  destruct (Z.eqb_spec tpa (ip (in_interface frame))) as [->|_]; last first.
  { apply ret_inv in Hrun as [_ ->]. done. }
  apply bind_inv in Hrun as (op & w1 & Hop & Hrun).
  apply frame_get16_inv in Hop as (-> & buf' & Hbuf' & Hop).
  assert (buf' = buf) as -> by congruence. clear Hbuf'.
  destruct (Z.eqb_spec op ARP_OP_REPLY) as [->|_]; [done|].
  destruct Hchanged. revert Hrun. unfold seq_stmt.
  apply (keeps_bind arpcache_kept); [|intros [|v]; apply (keeps_ret arpcache_kept)].
  apply (keeps_arp_request arpcache_kept).
Qed.

(** ** How a call ends *)

Lemma ends_ret (S : completion → Prop) (c : completion) : S c → ends S (ret c).
Proof. intros HS w c' w' [-> _]%ret_inv. done. Qed.

Lemma ends_exec (S : completion → Prop) (m : M unit) :
  S Normal → ends S (exec m).
Proof.
  intros HS w c w' Hrun. unfold exec in Hrun.
  apply bind_inv in Hrun as (? & ? & _ & [-> _]%ret_inv). done.
Qed.

Lemma ends_bind {A} (S : completion → Prop) (P : A → Prop) (m : M A)
    (k : A → M completion) :
  (∀ w a w1, m w = Some (a, w1) → P a) →
  (∀ a, P a → ends S (k a)) →
  ends S (bind m k).
Proof.
  intros Hm Hk w c w' (a & w1 & H1 & H2)%bind_inv.
  eapply Hk; [|exact H2]. by eapply Hm.
Qed.

Lemma ends_after {A} (S : completion → Prop) (m : M A)
    (k : A → M completion) :
  (∀ a, ends S (k a)) → ends S (bind m k).
Proof. intros Hk. apply (ends_bind S (λ _, True)); [done|]. auto. Qed.

Lemma arp_pending_req_add_frame_result e pending_req frame w result w' :
  chirouter_arp_pending_req_add_frame e pending_req frame w
  = Some (result, w') →
  result = 0 ∨ result = 1 ∧ frame_copy_fails e = true.
Proof.
  unfold chirouter_arp_pending_req_add_frame.
  destruct (frame_copy_fails e).
  - intros [-> _]%ret_inv. by right.
  - intros Hrun. run_inv. cbn zeta in Hrun.
    destruct (pending_req_set _ _ _) as [[[] w2]|]; [|done].
    injection Hrun as <- _. by left.
Qed.

Lemma arp_cache_add_result e ip_addr mac_addr w result w' :
  chirouter_arp_cache_add e ip_addr mac_addr w = Some (result, w') →
  result = 0 ∨ result = 1 ∧ cache_grow_fails e = true.
Proof.
  unfold chirouter_arp_cache_add.
  destruct (list_find _ _) as [[i old]|].
  - intros [= <- _]. by left.
  - destruct (cache_grow_fails e); intros [= <- _]; [by right|by left].
Qed.

Lemma arp_pending_req_free_frames_result pending_req w result w' :
  chirouter_arp_pending_req_free_frames pending_req w = Some (result, w') →
  result = 0.
Proof.
  unfold chirouter_arp_pending_req_free_frames. intros Hrun.
  apply bind_inv in Hrun as (r & w1 & _ & Hrun).
  apply bind_inv in Hrun as (? & w2 & _ & Hrun).
  apply bind_inv in Hrun as (? & w3 & _ & Hrun).
  by apply ret_inv in Hrun as [-> _].
Qed.

Lemma ends_withhold e pending_req frame :
  ends (goes_on_or_fails e)
    (let! result := chirouter_arp_pending_req_add_frame e pending_req frame in
     if result =? 1 then ret (Return (-1)) else ret Normal).
Proof.
  eapply ends_bind.
  { intros w a w1. apply arp_pending_req_add_frame_result. }
  intros result [->|[-> Hfail]]; apply ends_ret.
  - by left.
  - right. auto.
Qed.

Lemma ends_frame_comes_to_router frame :
  ends (λ c, c = Normal) (frame_comes_to_router frame).
Proof.
  unfold frame_comes_to_router. apply ends_after. intros proto.
  destruct (_ || _); [by apply ends_exec|].
  apply ends_after. intros ttl.
  destruct (ttl =? 1); [by apply ends_exec|].
  destruct (proto =? IPPROTO_ICMP); [|by apply ends_exec].
  apply ends_after. intros icmp_type.
  destruct (_ =? _); [by apply ends_exec|by apply ends_ret].
Qed.

Lemma ends_try_to_forward e frame :
  ends (goes_on_or_fails e) (try_to_forward e frame).
Proof.
  unfold try_to_forward. apply ends_after. intros [i|]; last first.
  { apply ends_exec. by left. }
  apply ends_after. intros route. apply ends_after. intros dst.
  apply ends_after. intros [entry|].
  { apply ends_after. intros ttl.
    destruct (ttl =? 1); apply ends_exec; by left. }
  apply ends_after. intros [pending_req|]; [apply ends_withhold|].
  do 4 (apply ends_after; intros ?). apply ends_withhold.
Qed.

Lemma ends_arp_reply_received e frame :
  ends (goes_on_or_fails e) (arp_reply_received e frame).
Proof.
  unfold arp_reply_received. apply ends_after. intros spa.
  apply ends_after. intros sha. eapply ends_bind.
  { intros w a w1. apply arp_cache_add_result. }
  intros result [->|[-> Hfail]]; simpl.
  2: { apply ends_ret. right. auto. }
  apply ends_after. intros [arp_req|]; [|apply ends_ret; by left].
  apply ends_after. intros req. apply ends_after. intros _.
  eapply ends_bind.
  { intros w a w1. apply arp_pending_req_free_frames_result. }
  intros ? ->. simpl. apply ends_after. intros _. apply ends_ret. by left.
Qed.

Lemma ends_weaken (S S' : completion → Prop) (m : M completion) :
  ends S m → (∀ c, S c → S' c) → ends S' m.
Proof. intros Hm HS w c w' Hrun. apply HS. by eapply Hm. Qed.

Lemma ends_ip_datagram e frame dst :
  ends (goes_on_or_fails e)
    (if dst =? ip (in_interface frame) then frame_comes_to_router frame
     else
       let! other := chirouter_find_match_router frame in
       if other then
         exec (chirouter_send_icmp ICMPTYPE_DEST_UNREACHABLE
                 ICMPCODE_DEST_HOST_UNREACHABLE frame)
       else try_to_forward e frame).
Proof.
  destruct (dst =? ip (in_interface frame)).
  - eapply ends_weaken; [apply ends_frame_comes_to_router|].
    intros c ->. by left.
  - apply ends_after. intros [|]; [apply ends_exec; by left|].
    apply ends_try_to_forward.
Qed.

Lemma ends_arp_request e frame :
  ends (goes_on_or_fails e)
    (let! op := frame_get16 frame off_arp_op in
     if op =? ARP_OP_REQUEST then
       let! sha := frame_peek frame off_arp_sha ETHER_ADDR_LEN in
       let! spa := frame_get32 frame off_arp_spa in
       exec (chirouter_send_arp_message (in_interface frame) (Some sha)
               spa ARP_OP_REPLY)
     else ret Normal).
Proof.
  apply ends_after. intros op.
  destruct (op =? ARP_OP_REQUEST); [|apply ends_ret; by left].
  do 2 (apply ends_after; intros ?). apply ends_exec. by left.
Qed.

Lemma seq_stmt_return_ends e (s : M completion) w c w' :
  ends (goes_on_or_fails e) s →
  seq_stmt s (ret (Return 0)) w = Some (c, w') →
  ∃ v, c = Return v ∧
       (v = 0 ∨
        v = -1 ∧ (frame_copy_fails e = true ∨ cache_grow_fails e = true)).
Proof.
  intros Hs [[Hrun Hne]|(w1 & Hrun & [-> _]%ret_inv)]%seq_stmt_inv.
  - destruct (Hs _ _ _ Hrun) as [->|[-> Hfail]]; [done|].
    exists (-1). split; [done|]. by right.
  - exists 0. split; [done|]. by left.
Qed.

(** X14. How a call ends.  A [return] gives 0, or -1 and then one of
    the two allocations has failed (with the withheld frames of a pending
    request freed without error, as the ARP module is modelled, the value
    1 is never returned).  Control reaches the end of the function
    without a [return] only for an ethertype other than IPv4, IPv6 and
    ARP, and then nothing has changed. *)
Theorem process_return_values e frame w c w' :
  chirouter_process_ethernet_frame e frame w = Some (c, w') →
  match c with
  | Return v =>
      v = 0 ∨
      v = -1 ∧ (frame_copy_fails e = true ∨ cache_grow_fails e = true)
  | Normal =>
      w' = w ∧
      ∃ buf t, heap w !! raw frame = Some buf ∧
               get16 buf off_eth_type = Some t ∧
               t ≠ ETHERTYPE_IP ∧ t ≠ ETHERTYPE_IPV6 ∧ t ≠ ETHERTYPE_ARP
  end.
Proof.
  intros Hrun. unfold chirouter_process_ethernet_frame in Hrun.
  apply bind_inv in Hrun as (t & w1 & Hty & Hrun).
  apply frame_get16_inv in Hty as (-> & buf & Hbuf & Hty).
  destruct ((t =? ETHERTYPE_IP) || (t =? ETHERTYPE_IPV6)) eqn:Hip.
  { apply (seq_stmt_return_ends e) in Hrun as (v & -> & Hv); [done|].
    apply ends_after. intros dst. apply ends_ip_datagram. }
  apply orb_false_elim in Hip as [Hip%Z.eqb_neq Hip6%Z.eqb_neq].
  destruct (Z.eqb_spec t ETHERTYPE_ARP) as [->|Harp].
  - unfold arp_message in Hrun.
    apply bind_inv in Hrun as (tpa & w1 & Htpa & Hrun).
    apply frame_get32_inv in Htpa as (-> & _).
    destruct (tpa =? ip (in_interface frame));
      [|apply ret_inv in Hrun as [-> _]; by left].
    apply bind_inv in Hrun as (op & w1 & Hop & Hrun).
    apply frame_get16_inv in Hop as (-> & _).
    apply (seq_stmt_return_ends e) in Hrun as (v & -> & Hv); [done|].
    destruct (op =? ARP_OP_REPLY);
      [apply ends_arp_reply_received|apply ends_arp_request].
  - apply ret_inv in Hrun as [-> ->]. split; [done|]. by exists buf, t.
Qed.

(** ** A copy that cannot be allocated *)

(** X15. When the copy of a frame to withhold cannot be allocated, the
    call returns -1 after its other effects: if no request was pending
    for the next hop, the ARP request has been sent and the new pending
    request (times_sent = 1, last_sent = now) stays in the list with no
    withheld frame; if one was pending, nothing has changed. *)
Theorem copy_failure_after_arp_request e frame w buf dst route :
  heap w !! raw frame = Some buf →
  ip_for_elsewhere (ctx w) frame buf dst →
  route_of (routing_table (ctx w)) buf route →
  cached_for (get_forward_ip route dst) (ctx w) = None →
  frame_copy_fails e = true →
  blen (mac (interface route)) = 6 →
  let forward_ip := get_forward_ip route dst in
  ∃ w',
    chirouter_process_ethernet_frame e frame w = Some (Return (-1), w') ∧
    match pending_for forward_ip (ctx w) with
    | None =>
        (∃ request,
           wire w' = wire w ++ [(interface route, request)] ∧
           arp_request (interface route) forward_ip request) ∧
        pending_arp_reqs (ctx w')
        = pending_arp_reqs (ctx w)
          ++ [{| req_ip := forward_ip; times_sent := 1;
                 last_sent := now e; out_interface := interface route;
                 withheld_frames := [] |}] ∧
        heap w' = heap w
    | Some _ => w' = w
    end.
Proof.
  intros Hbuf Hfor Hroute Hmiss Hcopy Hmac forward_ip.
  set (P := λ w' : world,
     match pending_for forward_ip (ctx w) with
     | None =>
         (∃ request,
            wire w' = wire w ++ [(interface route, request)] ∧
            arp_request (interface route) forward_ip request) ∧
         pending_arp_reqs (ctx w')
         = pending_arp_reqs (ctx w)
           ++ [{| req_ip := forward_ip; times_sent := 1;
                  last_sent := now e; out_interface := interface route;
                  withheld_frames := [] |}] ∧
         heap w' = heap w
     | Some _ => w' = w
     end).
  assert (wp (chirouter_process_ethernet_frame e frame) w
            (λ c w', c = Return (-1) ∧ P w')) as Hwp; last first.
  { apply wp_run in Hwp as (c & w' & Hrun & -> & HP). by exists w'. }
  pose proof Hfor as (_ & Hdst & _).
  apply (wp_try_to_forward e frame w buf dst); [done..|].
  apply (wp_arp_cache_miss e frame w buf dst route); [done..|].
  cbn zeta. fold forward_ip.
  apply wp_bind. eapply wp_state; [apply arp_pending_req_lookup_run|].
  unfold P. destruct (pending_for forward_ip (ctx w)) as [[j req]|]; simpl.
  - apply wp_bind. eapply wp_state.
    { by apply arp_pending_req_add_frame_fails. }
    simpl. by apply wp_ret.
  - apply wp_bind. apply wp_send_arp_request; [done|].
    intros request Hrequest.
    apply wp_bind. eapply wp_state; [reflexivity|].
    apply wp_bind. eapply wp_state.
    { by apply (pending_req_set_last _ (pending_arp_reqs (ctx w))). }
    apply wp_bind. eapply wp_state.
    { by apply (pending_req_set_last _ (pending_arp_reqs (ctx w))). }
    apply wp_bind. eapply wp_state.
    { by apply arp_pending_req_add_frame_fails. }
    simpl. apply wp_ret. split; [done|]. split_and!; [|done..].
    by exists request.
Qed.

(** ** From the ARP request to the forwarded datagram *)



Lemma route_of_unique table buf route route' :
  route_of table buf route → route_of table buf route' → route' = route.
Proof.
  intros (dst & i & Hdst & Hloop & Hi) (dst' & i' & Hdst' & Hloop' & Hi').
  congruence.
Qed.





(** ** Netmasks *)

Lemma netmask_lt (p q : Z) :
  0 ≤ p → p < q → q ≤ 32 → netmask p < netmask q.
Proof.
  intros Hp Hpq Hq.
  assert (Forall (λ p, Forall (λ q, p < q → netmask p < netmask q)
                         (seqZ 0 33)) (seqZ 0 33)) as Hall.
  { apply (bool_decide_unpack _). vm_compute. exact I. }
  rewrite Forall_forall in Hall.
  specialize (Hall p). rewrite Forall_forall in Hall.
  apply Hall; [apply elem_of_seqZ; lia|apply elem_of_seqZ; lia|done].
Qed.

(** X17. Route lookup compares masks as the host loads them from network
    byte order.  For masks that are netmasks of prefix lengths this order
    is the order of the prefix lengths: the entry returned has the
    longest prefix among the entries that match the destination. *)
Theorem lookup_prefers_longer_prefix frame w dst i entry j other p q :
  frame_get32 frame off_ip_dst w = Some (dst, w) →
  chirouter_get_matching_entry frame w = Some (Some i, w) →
  routing_table (ctx w) !! i = Some entry →
  routing_table (ctx w) !! j = Some other →
  route_matches dst other →
  mask entry = netmask p → 0 ≤ p ≤ 32 →
  mask other = netmask q → 0 ≤ q ≤ 32 →
  q ≤ p.
Proof.
  intros Hdst Hrun Hentry Hother Hmatch Hp Hpr Hq Hqr.
  rewrite (get_matching_entry_loop frame w dst Hdst) in Hrun.
  injection Hrun as Hloop.
  pose proof (matching_loop_lpm (routing_table (ctx w)) dst) as Hlpm.
  rewrite Hloop in Hlpm.
  destruct Hlpm as (_ & entry' & Hentry' & _ & Hbest).
  assert (entry' = entry) as -> by congruence.
  destruct (Hbest j other) as [Hle _]; [by eapply lookup_lt_Some|done..|].
  destruct (decide (q ≤ p)) as [|Hgt]; [done|].
  pose proof (netmask_lt p q). lia.
Qed.

(** ** The withheld frames *)

#[global] Instance frames_kept_preorder : PreOrder frames_kept.
Proof.
  split; [done|]. unfold frames_kept.
  intros w1 w2 w3 (?&?&?) (?&?&?). split_and!; congruence.
Qed.

#[global] Instance frames_kept_send : AcrossSend frames_kept.
Proof. done. Qed.

#[global] Instance frames_kept_cache : AcrossCache frames_kept.
Proof. done. Qed.

Lemma withheld_at (l : list chirouter_pending_arp_req_t) (j : nat)
    (r : chirouter_pending_arp_req_t) :
  l !! j = Some r →
  l ≫= withheld_frames
  = (take j l ≫= withheld_frames) ++ withheld_frames r
    ++ (drop (S j) l ≫= withheld_frames).
Proof.
  intros Hr. rewrite <- (take_drop_middle l j r Hr) at 1.
  by rewrite bind_app, bind_cons.
Qed.

Lemma withheld_insert (l : list chirouter_pending_arp_req_t) (j : nat)
    (r r' : chirouter_pending_arp_req_t) :
  l !! j = Some r →
  <[j := r']> l ≫= withheld_frames
  = (take j l ≫= withheld_frames) ++ withheld_frames r'
    ++ (drop (S j) l ≫= withheld_frames).
Proof.
  intros Hr. rewrite insert_take_drop by (by eapply lookup_lt_Some).
  by rewrite bind_app, bind_cons.
Qed.

Lemma withheld_delete (l : list chirouter_pending_arp_req_t) (j : nat) :
  delete j l ≫= withheld_frames
  = (take j l ≫= withheld_frames) ++ (drop (S j) l ≫= withheld_frames).
Proof. by rewrite delete_take_drop, bind_app. Qed.

Lemma sound_frames_kept w w' :
  frames_kept w w' → withheld_sound w → withheld_sound w'.
Proof.
  intros (Hh & Hp & Ht) [Hnodup Hall]. unfold withheld_sound, all_withheld.
  rewrite Hh, Hp, Ht. done.
Qed.

Lemma sound_keeps {A} (m : M A) :
  keeps frames_kept m → preserves withheld_sound m.
Proof. intros Hm w a w' Hsound Hrun. eapply sound_frames_kept; eauto. Qed.

(** Fewer withheld frames, on a heap that still has their buffers. *)
Lemma sound_fewer w w' :
  all_withheld (ctx w') `sublist_of` all_withheld (ctx w) →
  routing_table (ctx w') = routing_table (ctx w) →
  (∀ f, f ∈ all_withheld (ctx w') → heap w' !! raw f = heap w !! raw f) →
  withheld_sound w → withheld_sound w'.
Proof.
  intros Hsub Ht Hheap [Hnodup Hall]. split.
  - eapply sublist_NoDup; [exact Hnodup|]. by apply fmap_sublist.
  - intros f Hf. rewrite Ht, Hheap by done. apply Hall.
    by eapply elem_of_sublist.
Qed.

Lemma sound_arp_pending_req_add ip_addr iface :
  preserves withheld_sound (chirouter_arp_pending_req_add ip_addr iface).
Proof.
  intros w a w' Hsound [= _ <-]. revert Hsound. apply sound_fewer; [|done..].
  unfold all_withheld. simpl. rewrite bind_app. simpl.
  by rewrite app_nil_r.
Qed.

Lemma sound_pending_req_set pending_req f :
  (∀ r, withheld_frames (f r) = withheld_frames r) →
  preserves withheld_sound (pending_req_set pending_req f).
Proof.
  intros Hf w a w' Hsound Hrun. unfold pending_req_set in Hrun.
  destruct (pending_arp_reqs (ctx w) !! pending_req) as [r|] eqn:Hr;
    simpl in Hrun; [|done].
  simplify_eq. revert Hsound. apply sound_fewer; [|done..].
  unfold all_withheld. simpl.
  by rewrite (withheld_insert _ _ r), Hf, <- withheld_at.
Qed.

Lemma sound_pending_req_delete pending_req :
  preserves withheld_sound (pending_req_delete pending_req).
Proof.
  intros w a w' Hsound [= _ <-]. revert Hsound. apply sound_fewer; [|done..].
  unfold all_withheld. simpl. rewrite withheld_delete.
  destruct (pending_arp_reqs (ctx w) !! pending_req) as [r|] eqn:Hr.
  - rewrite (withheld_at _ _ r Hr).
    apply sublist_app; [done|]. by apply sublist_inserts_l.
  - rewrite drop_ge, take_ge by (apply lookup_ge_None in Hr; lia).
    by rewrite app_nil_r.
Qed.

Lemma sound_arp_pending_req_free_frames pending_req :
  preserves withheld_sound
    (chirouter_arp_pending_req_free_frames pending_req).
Proof.
  intros w x w' Hsound Hrun.
  unfold chirouter_arp_pending_req_free_frames, bind, pending_req_get,
    pending_req_set, ret in Hrun.
  destruct (pending_arp_reqs (ctx w) !! pending_req) as [r|] eqn:Hr;
    simpl in Hrun; [|done].
  rewrite Hr in Hrun. simpl in Hrun. simplify_eq.
  pose proof Hsound as [Hnodup _]. revert Hsound.
  unfold all_withheld in Hnodup. rewrite (withheld_at _ _ r Hr) in Hnodup.
  rewrite !fmap_app in Hnodup.
  apply NoDup_app in Hnodup as (_ & Hleft & Hnodup).
  apply NoDup_app in Hnodup as (_ & Hright & _).
  apply sound_fewer; unfold all_withheld; simpl.
  - rewrite (withheld_insert _ _ r), (withheld_at _ _ r Hr) by done. simpl.
    apply sublist_app; [done|]. by apply sublist_inserts_l.
  - done.
  - rewrite (withheld_insert _ _ r) by done. simpl.
    intros f Hf. rewrite freed_lookup. rewrite decide_False; [done|].
    intros Hin. apply elem_of_app in Hf as [Hf|Hf].
    + apply (Hleft (raw f)); [by apply list_elem_of_fmap_2|].
      apply elem_of_app. by left.
    + apply (Hright (raw f)); [done|]. by apply list_elem_of_fmap_2.
Qed.

(** A frame with a route is withheld: its copy has a buffer of its own,
    and the same route. *)
Lemma sound_arp_pending_req_add_frame e pending_req frame w result w' buf
    route :
  chirouter_arp_pending_req_add_frame e pending_req frame w
  = Some (result, w') →
  heap w !! raw frame = Some buf →
  frame_length frame = blen buf →
  route_of (routing_table (ctx w)) buf route →
  withheld_sound w → withheld_sound w'.
Proof.
  intros Hrun Hbuf Hlen Hroute [Hnodup Hall].
  destruct (frame_copy_fails e) eqn:Hcopy.
  { rewrite arp_pending_req_add_frame_fails in Hrun by done.
    by injection Hrun as _ <-. }
  assert (∃ r, pending_arp_reqs (ctx w) !! pending_req = Some r) as [r Hr].
  { unfold chirouter_arp_pending_req_add_frame in Hrun. rewrite Hcopy in Hrun.
    apply bind_inv in Hrun as (copy & w1 & (-> & _)%frame_peek_inv & Hrun).
    apply bind_inv in Hrun as (r & w2 & Hget & _).
    unfold pending_req_get in Hget.
    destruct (pending_arp_reqs (ctx w) !! pending_req) as [r'|]; [|done].
    by exists r'. }
  rewrite (arp_pending_req_add_frame_ok e pending_req frame w buf r) in Hrun
    by done.
  injection Hrun as _ <-.
  set (a := fresh (dom (heap w))).
  assert (heap w !! a = None) as Hfresh.
  { apply not_elem_of_dom. apply is_fresh. }
  assert (∀ f, f ∈ all_withheld (ctx w) → raw f ≠ a) as Hother.
  { intros f Hf Heq. destruct (Hall f Hf) as (b & _ & Hb & _). congruence. }
  assert (all_withheld
            (set_pending (ctx w)
               (<[pending_req := set_withheld
                    (withheld_frames r ++ [copy_at a frame]) r]>
                  (pending_arp_reqs (ctx w))))
          ≡ₚ copy_at a frame :: all_withheld (ctx w)) as Hperm.
  { unfold all_withheld. simpl.
    rewrite (withheld_insert _ _ r), (withheld_at _ _ r Hr) by done. simpl.
    by solve_Permutation. }
  split; simpl.
  - rewrite Hperm, fmap_cons. apply NoDup_cons. split; [|done].
    intros (f & Heq & Hf)%list_elem_of_fmap. by eapply Hother.
  - intros f Hf. rewrite Hperm in Hf. apply elem_of_cons in Hf as [->|Hf].
    + exists buf, route. simpl. by rewrite lookup_insert_eq.
    + rewrite lookup_insert_ne by (apply not_eq_sym; by apply Hother).
      by apply Hall.
Qed.

Lemma find_match_router_inv frame w b w' :
  chirouter_find_match_router frame w = Some (b, w') → w' = w.
Proof.
  unfold chirouter_find_match_router. destruct (interfaces (ctx w)).
  - by intros [= _ <-].
  - intros Hrun. by run_inv.
Qed.

(** A step that sends or reads, for [withheld_sound]. *)
Ltac sound_kept :=
  apply sound_keeps;
  repeat first [ apply (keeps_send_icmp frames_kept)
               | apply (keeps_forward_ip_datagram frames_kept)
               | apply (keeps_send_arp_message frames_kept)
               | apply (keeps_forward_withheld frames_kept)
               | apply (keeps_frame_comes_to_router frames_kept)
               | apply (keeps_arp_request frames_kept)
               | keeps_step ].

Lemma sound_withhold e pending_req frame w c w' buf route :
  (let! result := chirouter_arp_pending_req_add_frame e pending_req frame in
   if result =? 1 then ret (Return (-1)) else ret Normal) w = Some (c, w') →
  heap w !! raw frame = Some buf →
  frame_length frame = blen buf →
  route_of (routing_table (ctx w)) buf route →
  withheld_sound w → withheld_sound w'.
Proof.
  intros (result & w1 & Hadd & Hret)%bind_inv Hbuf Hlen Hroute Hsound.
  assert (w' = w1) as ->.
  { by destruct (result =? 1); apply ret_inv in Hret as [_ ->]. }
  by eapply sound_arp_pending_req_add_frame.
Qed.

Lemma pending_req_set_inv pending_req f w u w' :
  pending_req_set pending_req f w = Some (u, w') →
  ∃ r, pending_arp_reqs (ctx w) !! pending_req = Some r ∧
       w' = set_ctx w (set_pending (ctx w)
                         (<[pending_req := f r]> (pending_arp_reqs (ctx w)))).
Proof.
  unfold pending_req_set.
  destruct (pending_arp_reqs (ctx w) !! pending_req) as [r|]; [|done].
  simpl. intros [= _ <-]. by exists r.
Qed.

Lemma sound_try_to_forward e frame w c w' :
  try_to_forward e frame w = Some (c, w') →
  (∀ buf, heap w !! raw frame = Some buf → frame_length frame = blen buf) →
  withheld_sound w → withheld_sound w'.
Proof.
  intros Hrun Hlen Hsound. unfold try_to_forward in Hrun.
  apply bind_inv in Hrun as (entry & w1 & Hentry & Hrun).
  apply get_matching_entry_inv in Hentry as [-> Hentry].
  destruct entry as [i|]; last first.
  { revert Hsound Hrun. by sound_kept. }
  apply bind_inv in Hrun as (route & w1 & Hroute & Hrun).
  apply rtable_deref_inv in Hroute as (-> & i' & [= <-] & Hroute).
  apply bind_inv in Hrun as (dst & w1 & Hdst & Hrun).
  apply frame_get32_inv in Hdst as (-> & buf & Hbuf & Hdst).
  assert (route_of (routing_table (ctx w)) buf route) as Hof.
  { destruct Hentry as [[_ ?]|(buf' & dst' & Hbuf' & Hdst' & Hloop)]; [done|].
    simplify_eq. by exists dst', i. }
  apply bind_inv in Hrun as (cached & w1 & Hcached & Hrun).
  injection Hcached as _ <-.
  destruct cached as [cached|].
  { revert Hsound Hrun. by sound_kept. }
  apply bind_inv in Hrun as (pending & w1 & Hpending & Hrun).
  injection Hpending as _ <-.
  destruct pending as [pending_req|].
  { eapply sound_withhold; eauto. }
  apply bind_inv in Hrun as ([] & w1 & Hsend & Hrun).
  pose proof (keeps_send_arp_message frames_kept _ _ _ _ _ _ _ Hsend)
    as (Hh1 & Hp1 & Ht1).
  pose proof (sound_frames_kept w w1 (conj Hh1 (conj Hp1 Ht1)) Hsound)
    as Hsound1.
  apply bind_inv in Hrun as (pending_req & w2 & Hadd & Hrun).
  pose proof (sound_arp_pending_req_add _ _ _ _ _ Hsound1 Hadd) as Hsound2.
  injection Hadd as _ <-.
  apply bind_inv in Hrun as ([] & w3 & Hset1 & Hrun).
  pose proof (sound_pending_req_set _ incr_times_sent (λ _, eq_refl)
                _ _ _ Hsound2 Hset1) as Hsound3.
  assert (heap w3 = heap w ∧ routing_table (ctx w3) = routing_table (ctx w))
    as [Hh3 Ht3].
  { apply pending_req_set_inv in Hset1 as (r & _ & ->). by split. }
  apply bind_inv in Hrun as ([] & w4 & Hset2 & Hrun).
  pose proof (sound_pending_req_set _ (set_last_sent (now e)) (λ _, eq_refl)
                _ _ _ Hsound3 Hset2) as Hsound4.
  assert (heap w4 = heap w ∧ routing_table (ctx w4) = routing_table (ctx w))
    as [Hh4 Ht4].
  { apply pending_req_set_inv in Hset2 as (r & _ & ->). by split. }
  eapply (sound_withhold _ _ _ w4 c w' buf route); [exact Hrun|..|done].
  - by rewrite Hh4.
  - by apply Hlen.
  - by rewrite Ht4.
Qed.

Lemma sound_arp_reply_received e frame :
  preserves withheld_sound (arp_reply_received e frame).
Proof.
  unfold arp_reply_received.
  repeat lazymatch goal with
    | |- preserves _ (bind _ _) => apply preserves_bind; [|intros ?]
    | |- preserves _ (ret _) => apply preserves_ret
    | |- preserves _ (if ?b then _ else _) => destruct b
    | |- preserves _ (match ?x with _ => _ end) => destruct x
    | |- preserves _ (chirouter_arp_pending_req_free_frames _) =>
        apply sound_arp_pending_req_free_frames
    | |- preserves _ (pending_req_delete _) =>
        apply sound_pending_req_delete
    | |- preserves withheld_sound _ => sound_kept
    end.
Qed.

(** X18. The withheld frames stay sound.  If every withheld frame has a
    buffer of its own on the heap and a route in the routing table, and
    the inbound frame's length is the length of its buffer, the same
    holds after the call: a frame is withheld only after route lookup
    has found an entry for it, its copy goes into a newly allocated
    buffer, and a buffer is freed only together with its frame.  So the
    frames drained on an ARP reply never make [forward_ip_datagram]
    dereference a null routing entry or read a freed buffer. *)
Theorem withheld_frames_stay_sound e frame w c w' :
  chirouter_process_ethernet_frame e frame w = Some (c, w') →
  (∀ buf, heap w !! raw frame = Some buf → frame_length frame = blen buf) →
  withheld_sound w → withheld_sound w'.
Proof.
  intros Hrun Hlen Hsound. unfold chirouter_process_ethernet_frame in Hrun.
  apply bind_inv in Hrun as (t & w1 & (-> & _)%frame_get16_inv & Hrun).
  assert (∀ (s : M completion) c1 w1,
            s w = Some (c1, w1) → withheld_sound w1 →
            ∀ c w', match c1 with
                    | Normal => ret (Return 0)
                    | Return v => ret (Return v)
                    end w1 = Some (c, w') → withheld_sound w') as Hend.
  { intros s [|v] w1 _ Hs c0 w0 [_ ->]%ret_inv; done. }
  destruct ((t =? ETHERTYPE_IP) || (t =? ETHERTYPE_IPV6)).
  { unfold seq_stmt in Hrun.
    apply bind_inv in Hrun as (c1 & w1 & Hbody & Hrun).
    eapply Hend; [exact Hbody| |exact Hrun].
    apply bind_inv in Hbody as (dst & w2 & (-> & _)%frame_get32_inv & Hbody).
    destruct (dst =? ip (in_interface frame)).
    { revert Hsound Hbody. by sound_kept. }
    apply bind_inv in Hbody as (other & w2 & ->%find_match_router_inv & Hbody).
    destruct other.
    - revert Hsound Hbody. by sound_kept.
    - by eapply sound_try_to_forward. }
  destruct (t =? ETHERTYPE_ARP); [|by apply ret_inv in Hrun as [_ ->]].
  unfold arp_message in Hrun.
  apply bind_inv in Hrun as (tpa & w1 & (-> & _)%frame_get32_inv & Hrun).
  destruct (tpa =? ip (in_interface frame));
    [|by apply ret_inv in Hrun as [_ ->]].
  apply bind_inv in Hrun as (op & w1 & (-> & _)%frame_get16_inv & Hrun).
  unfold seq_stmt in Hrun.
  apply bind_inv in Hrun as (c1 & w1 & Hbody & Hrun).
  eapply Hend; [exact Hbody| |exact Hrun].
  destruct (op =? ARP_OP_REPLY).
  - by eapply sound_arp_reply_received.
  - revert Hsound Hbody. by sound_kept.
Qed.

(** ** How many frames a call sends *)

#[global] Instance wire_kept_preorder : PreOrder wire_kept.
Proof.
  split; [done|]. unfold wire_kept. intros w1 w2 w3 H1 H2. congruence.
Qed.

#[global] Instance wire_kept_pending : AcrossPending wire_kept.
Proof. done. Qed.

#[global] Instance wire_kept_heap : AcrossHeap wire_kept.
Proof. done. Qed.

#[global] Instance wire_kept_cache : AcrossCache wire_kept.
Proof. done. Qed.

Lemma one_frame_quiet {A} (m : M A) :
  keeps wire_kept m → keeps (sent_at_most 1) m.
Proof.
  intros Hm w a w' Hrun. exists []. rewrite app_nil_r.
  split; [by eapply Hm|simpl; lia].
Qed.

Lemma one_frame_after {A B} (m : M A) (k : A → M B) :
  keeps wire_kept m → (∀ a, keeps (sent_at_most 1) (k a)) →
  keeps (sent_at_most 1) (bind m k).
Proof.
  intros Hm Hk w b w' (a & w1 & H1 & H2)%bind_inv.
  destruct (Hk _ _ _ _ H2) as (outs & Hwire & Hlen). exists outs.
  split; [|done]. by rewrite Hwire, (Hm _ _ _ H1).
Qed.

Lemma one_frame_then {A B} (m : M A) (k : A → M B) :
  keeps (sent_at_most 1) m → (∀ a, keeps wire_kept (k a)) →
  keeps (sent_at_most 1) (bind m k).
Proof.
  intros Hm Hk w b w' (a & w1 & H1 & H2)%bind_inv.
  destruct (Hm _ _ _ H1) as (outs & Hwire & Hlen). exists outs.
  split; [|done]. by rewrite (Hk _ _ _ _ H2).
Qed.

Lemma one_frame_send iface msg len :
  keeps (sent_at_most 1) (chirouter_send_frame iface msg len).
Proof.
  unfold chirouter_send_frame. apply one_frame_after; [by repeat keeps_step|].
  intros out w a w' [= _ <-]. by exists [(iface, out)].
Qed.

(** The steps before the frame is sent send nothing. *)
Ltac one_frame_at_the_end :=
  repeat lazymatch goal with
    | |- keeps _ (bind _ _) =>
        apply one_frame_after; [by repeat keeps_step|intros ?]
    end;
  apply one_frame_send.

Lemma one_frame_send_icmp type code frame :
  keeps (sent_at_most 1) (chirouter_send_icmp type code frame).
Proof. unfold chirouter_send_icmp. one_frame_at_the_end. Qed.

Lemma one_frame_forward_ip_datagram frame dst_mac :
  keeps (sent_at_most 1) (forward_ip_datagram frame dst_mac).
Proof. unfold forward_ip_datagram. one_frame_at_the_end. Qed.

Lemma one_frame_send_arp_message iface dst_mac dst_ip op :
  keeps (sent_at_most 1) (chirouter_send_arp_message iface dst_mac dst_ip op).
Proof. unfold chirouter_send_arp_message. one_frame_at_the_end. Qed.

Lemma one_frame_exec (m : M unit) :
  keeps (sent_at_most 1) m → keeps (sent_at_most 1) (exec m).
Proof.
  intros Hm. unfold exec. apply one_frame_then; [done|].
  intros _. apply (keeps_ret wire_kept).
Qed.

Lemma one_frame_return_0 (s : M completion) :
  keeps (sent_at_most 1) s → keeps (sent_at_most 1) (seq_stmt s (ret (Return 0))).
Proof.
  intros Hs. unfold seq_stmt. apply one_frame_then; [done|].
  intros [|v]; apply (keeps_ret wire_kept).
Qed.

Lemma one_frame_frame_comes_to_router frame :
  keeps (sent_at_most 1) (frame_comes_to_router frame).
Proof.
  unfold frame_comes_to_router.
  apply one_frame_after; [by repeat keeps_step|]. intros proto.
  destruct (_ || _); [apply one_frame_exec, one_frame_send_icmp|].
  apply one_frame_after; [by repeat keeps_step|]. intros ttl.
  destruct (ttl =? 1); [apply one_frame_exec, one_frame_send_icmp|].
  destruct (proto =? IPPROTO_ICMP);
    [|apply one_frame_exec, one_frame_send_icmp].
  apply one_frame_after; [by repeat keeps_step|]. intros icmp_type.
  destruct (_ =? _); [apply one_frame_exec, one_frame_send_icmp|].
  apply one_frame_quiet, (keeps_ret wire_kept).
Qed.

Lemma one_frame_try_to_forward e frame :
  keeps (sent_at_most 1) (try_to_forward e frame).
Proof.
  unfold try_to_forward.
  apply one_frame_after; [by repeat keeps_step|]. intros [i|]; last first.
  { apply one_frame_exec, one_frame_send_icmp. }
  apply one_frame_after; [by repeat keeps_step|]. intros route.
  apply one_frame_after; [by repeat keeps_step|]. intros dst.
  apply one_frame_after; [by repeat keeps_step|]. intros [entry|].
  { apply one_frame_after; [by repeat keeps_step|]. intros ttl.
    destruct (ttl =? 1); apply one_frame_exec;
      [apply one_frame_send_icmp|apply one_frame_forward_ip_datagram]. }
  apply one_frame_after; [by repeat keeps_step|]. intros [pending_req|].
  { apply one_frame_quiet. by repeat keeps_step. }
  apply one_frame_then; [apply one_frame_send_arp_message|].
  intros _. by repeat keeps_step.
Qed.

Lemma one_frame_ip_datagram e frame dst :
  keeps (sent_at_most 1)
    (if dst =? ip (in_interface frame) then frame_comes_to_router frame
     else
       let! other := chirouter_find_match_router frame in
       if other then
         exec (chirouter_send_icmp ICMPTYPE_DEST_UNREACHABLE
                 ICMPCODE_DEST_HOST_UNREACHABLE frame)
       else try_to_forward e frame).
Proof.
  destruct (dst =? ip (in_interface frame));
    [apply one_frame_frame_comes_to_router|].
  apply one_frame_after; [by repeat keeps_step|]. intros [|].
  - apply one_frame_exec, one_frame_send_icmp.
  - apply one_frame_try_to_forward.
Qed.

Lemma one_frame_arp_request frame :
  keeps (sent_at_most 1)
    (let! op := frame_get16 frame off_arp_op in
     if op =? ARP_OP_REQUEST then
       let! sha := frame_peek frame off_arp_sha ETHER_ADDR_LEN in
       let! spa := frame_get32 frame off_arp_spa in
       exec (chirouter_send_arp_message (in_interface frame) (Some sha)
               spa ARP_OP_REPLY)
     else ret Normal).
Proof.
  apply one_frame_after; [by repeat keeps_step|]. intros op.
  destruct (op =? ARP_OP_REQUEST);
    [|apply one_frame_quiet, (keeps_ret wire_kept)].
  do 2 (apply one_frame_after; [by repeat keeps_step|intros ?]).
  apply one_frame_exec, one_frame_send_arp_message.
Qed.

(** X19. A call sends at most one frame, unless the frame is an ARP
    reply addressed to the ingress interface (which sends one frame for
    each withheld frame of the pending request). *)
Theorem one_frame_per_call e frame w c w' buf :
  chirouter_process_ethernet_frame e frame w = Some (c, w') →
  heap w !! raw frame = Some buf →
  ¬ (get16 buf off_eth_type = Some ETHERTYPE_ARP ∧
     get32 buf off_arp_tpa = Some (ip (in_interface frame)) ∧
     get16 buf off_arp_op = Some ARP_OP_REPLY) →
  ∃ outs, wire w' = wire w ++ outs ∧ (length outs ≤ 1)%nat.
Proof.
  intros Hrun Hbuf Hnot. unfold chirouter_process_ethernet_frame in Hrun.
  apply bind_inv in Hrun as (t & w1 & Hty & Hrun).
  apply frame_get16_inv in Hty as (-> & buf' & Hbuf' & Hty).
  assert (buf' = buf) as -> by congruence. clear Hbuf'.
  destruct ((t =? ETHERTYPE_IP) || (t =? ETHERTYPE_IPV6)).
  { revert Hrun. apply one_frame_return_0.
    apply one_frame_after; [by repeat keeps_step|]. intros dst.
    apply one_frame_ip_datagram. }
  destruct (Z.eqb_spec t ETHERTYPE_ARP) as [->|_]; last first.
  { revert Hrun. apply one_frame_quiet, (keeps_ret wire_kept). }
  unfold arp_message in Hrun.
  apply bind_inv in Hrun as (tpa & w1 & Htpa & Hrun).
  apply frame_get32_inv in Htpa as (-> & buf' & Hbuf' & Htpa).
  assert (buf' = buf) as -> by congruence. clear Hbuf'.
  destruct (Z.eqb_spec tpa (ip (in_interface frame))) as [->|_]; last first.
  { revert Hrun. apply one_frame_quiet, (keeps_ret wire_kept). }
  apply bind_inv in Hrun as (op & w1 & Hop & Hrun).
  apply frame_get16_inv in Hop as (-> & buf' & Hbuf' & Hop).
  assert (buf' = buf) as -> by congruence. clear Hbuf'.
  destruct (Z.eqb_spec op ARP_OP_REPLY) as [->|_]; [by destruct Hnot|].
  revert Hrun. apply one_frame_return_0, one_frame_arp_request.
Qed.

(** ** The example network *)

Lemma route_lookup_longest_prefix_witness :
  ∃ result,
    chirouter_get_matching_entry (inbound (datagram 64))
      (arrival (example_ctx []) (datagram 64))
    = Some (result, arrival (example_ctx []) (datagram 64)) ∧
    match result with
    | Some i =>
        ∃ entry, example_table !! i = Some entry ∧
          route_matches (ipv4 198 51 100 5) entry ∧
          ∀ j other, example_table !! j = Some other →
            route_matches (ipv4 198 51 100 5) other →
            mask other ≤ mask entry ∧ (mask other = mask entry → (i ≤ j)%nat)
    | None =>
        ∀ j other, example_table !! j = Some other →
          ¬ route_matches (ipv4 198 51 100 5) other
    end.
Proof.
  apply (route_lookup_longest_prefix (inbound (datagram 64))
           (arrival (example_ctx []) (datagram 64)) (ipv4 198 51 100 5)).
  reflexivity.
Defined.

Lemma icmp_message_addressing_witness :
  ∃ reply,
    chirouter_send_icmp ICMPTYPE_DEST_UNREACHABLE
      ICMPCODE_DEST_PORT_UNREACHABLE (inbound (datagram 64))
      (arrival (example_ctx []) (datagram 64))
    = Some (tt, emit (arrival (example_ctx []) (datagram 64)) eth0 reply) ∧
    peek reply off_eth_dst 6 = peek (datagram 64) off_eth_src 6 ∧
    peek reply off_eth_src 6 = Some (mac eth0) ∧
    get32 reply off_ip_src = Some (ip eth0) ∧
    get32 reply off_ip_dst = get32 (datagram 64) off_ip_src ∧
    get8 reply off_ip_ttl = Some 64 ∧
    get8 reply off_ip_proto = Some 1 ∧
    get_hi4 reply off_ip_vhl = Some 4 ∧
    get_lo4 reply off_ip_vhl = Some 5 ∧
    get16 reply off_ip_id = Some 0 ∧
    get16 reply off_ip_off = Some 0 ∧
    get8 reply off_ip_tos = Some 0 ∧
    checksummed reply sizeof_ethhdr_t sizeof_iphdr_t 10 ∧
    checksummed reply off_icmp_type (blen reply - off_icmp_type) 2.
Proof.
  apply (icmp_message_addressing ICMPTYPE_DEST_UNREACHABLE
           ICMPCODE_DEST_PORT_UNREACHABLE (inbound (datagram 64))
           (arrival (example_ctx []) (datagram 64)) (datagram 64)).
  - reflexivity.
  - reflexivity.
  - vm_compute. split; [discriminate|reflexivity].
  - split; [vm_compute; discriminate|]. vm_compute. discriminate.
Defined.

Lemma echo_reply_preserves_request_witness :
  ∃ reply,
    chirouter_process_ethernet_frame example_env
      (inbound (icmp_to_router ICMPTYPE_ECHO_REQUEST))
      (arrival (example_ctx []) (icmp_to_router ICMPTYPE_ECHO_REQUEST))
    = Some (Return 0,
            emit (arrival (example_ctx [])
                    (icmp_to_router ICMPTYPE_ECHO_REQUEST)) eth0 reply) ∧
    icmp_type_of reply = Some ICMPTYPE_ECHO_REPLY ∧
    echo_identifier_of reply = Some [0; 1] ∧
    echo_seq_num_of reply = Some [0; 2] ∧
    echo_payload_of reply 4 = Some [97; 98; 99; 100] ∧
    blen reply = sizeof_ethhdr_t + 32 ∧
    get16 reply off_ip_len = Some 32.
Proof.
  destruct (echo_reply_preserves_request example_env
              (inbound (icmp_to_router ICMPTYPE_ECHO_REQUEST))
              (arrival (example_ctx []) (icmp_to_router ICMPTYPE_ECHO_REQUEST))
              (icmp_to_router ICMPTYPE_ECHO_REQUEST) 64 32)
    as (reply & identifier & seq_num & payload & Hrun & Hty & Hi & Hi'
        & Hs & Hs' & Hp & Hp' & Hblen & Hlen).
  - reflexivity.
  - split; [left|]; reflexivity.
  - reflexivity.
  - reflexivity.
  - reflexivity.
  - lia.
  - reflexivity.
  - reflexivity.
  - vm_compute. discriminate.
  - vm_compute. discriminate.
  - vm_compute. split; [discriminate|reflexivity].
  - reflexivity.
  - exists reply. vm_compute in Hi, Hs, Hp.
    injection Hi as <-. injection Hs as <-. injection Hp as <-.
    split_and!; [exact Hrun|exact Hty|exact Hi'|exact Hs'|exact Hp'
                |exact Hblen|exact Hlen].
Defined.

(** C8 does not hold as stated: an echo request whose IP header carries
    an option of type 8 and length 4 ([ihl] = 6) is answered with an echo
    reply that has, in the place of the identifier and the sequence
    number, the type, code and checksum of the request, and the
    request's identifier and sequence number at the head of its payload:
    router.c copies from the offsets of a header without options. *)
Lemma echo_reply_behind_options_garbled :
  let buf := echo_request_behind_options [8; 4; 0; 0] in
  let w := arrival (example_ctx []) buf in
  ip_for_this_interface (inbound buf) buf ∧
  get_lo4 buf off_ip_vhl = Some 6 ∧
  icmp_type_of buf = Some ICMPTYPE_ECHO_REQUEST ∧
  echo_identifier_of buf = Some [0; 1] ∧
  echo_seq_num_of buf = Some [0; 2] ∧
  echo_payload_of buf 4 = Some [97; 98; 99; 100] ∧
  ∃ reply,
    chirouter_process_ethernet_frame example_env (inbound buf) w
    = Some (Return 0, emit w eth0 reply) ∧
    icmp_type_of reply = Some ICMPTYPE_ECHO_REPLY ∧
    echo_identifier_of reply = Some [8; 0] ∧
    echo_seq_num_of reply = Some [0; 0] ∧
    echo_payload_of reply 4 = Some [0; 1; 0; 2].
Proof.
  split_and!; try reflexivity.
  - split; [left|]; reflexivity.
  - eexists. split; [vm_compute; reflexivity|]. split_and!; reflexivity.
Qed.

Lemma local_delivery_answers_witness :
  ∃ w',
    chirouter_process_ethernet_frame example_env
      (inbound (icmp_to_router ICMPTYPE_ECHO_REPLY))
      (arrival (example_ctx []) (icmp_to_router ICMPTYPE_ECHO_REPLY))
    = Some (Return 0, w') ∧
    w' = arrival (example_ctx []) (icmp_to_router ICMPTYPE_ECHO_REPLY).
Proof.
  destruct (local_delivery_answers example_env
              (inbound (icmp_to_router ICMPTYPE_ECHO_REPLY))
              (arrival (example_ctx []) (icmp_to_router ICMPTYPE_ECHO_REPLY))
              (icmp_to_router ICMPTYPE_ECHO_REPLY) IPPROTO_ICMP 64)
    as (w' & Hrun & _ & _ & _ & _ & _ & Hnone & _).
  - reflexivity.
  - split; [left|]; reflexivity.
  - reflexivity.
  - reflexivity.
  - reflexivity.
  - split; [vm_compute; discriminate|]. vm_compute. discriminate.
  - vm_compute. discriminate.
  - exists w'. split; [exact Hrun|]. apply Hnone; [reflexivity|lia| |].
    + reflexivity.
    + vm_compute. discriminate.
Defined.

(** C2 does not hold as stated, on two frames that arrive for the router
    with TTL 64.  An ICMP echo reply (not an echo request) is not
    answered at all, so no destination unreachable, code protocol
    unreachable, is sent.  An ICMP echo request whose IP header carries
    three no-operation options and the end of the option list ([ihl] =
    6) is not answered either, so no echo reply is sent: router.c takes
    the first option byte for the ICMP type. *)
Lemma icmp_for_router_left_unanswered :
  (let buf := icmp_to_router ICMPTYPE_ECHO_REPLY in
   let w := arrival (example_ctx []) buf in
   ip_for_this_interface (inbound buf) buf ∧
   get8 buf off_ip_proto = Some IPPROTO_ICMP ∧
   get8 buf off_ip_ttl = Some 64 ∧
   get_lo4 buf off_ip_vhl = Some 5 ∧
   icmp_type_of buf = Some ICMPTYPE_ECHO_REPLY ∧
   chirouter_process_ethernet_frame example_env (inbound buf) w
   = Some (Return 0, w) ∧
   ¬ sent_icmp ICMPTYPE_DEST_UNREACHABLE ICMPCODE_DEST_PROTOCOL_UNREACHABLE
       (inbound buf) buf w w) ∧
  (let buf := echo_request_behind_options [1; 1; 1; 0] in
   let w := arrival (example_ctx []) buf in
   ip_for_this_interface (inbound buf) buf ∧
   get8 buf off_ip_proto = Some IPPROTO_ICMP ∧
   get8 buf off_ip_ttl = Some 64 ∧
   get_lo4 buf off_ip_vhl = Some 6 ∧
   icmp_type_of buf = Some ICMPTYPE_ECHO_REQUEST ∧
   chirouter_process_ethernet_frame example_env (inbound buf) w
   = Some (Return 0, w) ∧
   ¬ sent_icmp ICMPTYPE_ECHO_REPLY 0 (inbound buf) buf w w).
Proof.
  split; (split_and!; try reflexivity).
  - split; [left|]; reflexivity.
  - intros (reply & Hw & _). apply (f_equal wire) in Hw. discriminate Hw.
  - split; [left|]; reflexivity.
  - intros (reply & Hw & _). apply (f_equal wire) in Hw. discriminate Hw.
Qed.

Lemma allocation_failure_is_fatal_witness :
  ∃ w',
    chirouter_process_ethernet_frame no_memory_env (inbound (datagram 64))
      (arrival (example_ctx []) (datagram 64))
    = Some (Return (-1), w') ∧
    heap w' = heap (arrival (example_ctx []) (datagram 64)) ∧
    arpcache (ctx w') = [].
Proof.
  apply (allocation_failure_is_fatal no_memory_env (inbound (datagram 64))
           (arrival (example_ctx []) (datagram 64)) (datagram 64)).
  - reflexivity.
  - left. split; [reflexivity|].
    exists (ipv4 198 51 100 5), default_route. split_and!.
    + split_and!; [left; reflexivity|reflexivity|vm_compute; discriminate|].
      repeat constructor; vm_compute; discriminate.
    + exists (ipv4 198 51 100 5), 0%nat. split_and!; reflexivity.
    + reflexivity.
    + reflexivity.
Defined.

(** C1 does not hold as stated: when the copy of the frame to withhold
    cannot be allocated, and when the ARP cache cannot grow for the
    sender of an ARP reply, the call returns -1, not 1. *)
Lemma allocation_failure_returns_minus_one :
  copy_fails_on no_memory_env (inbound (datagram 64))
    (arrival (example_ctx []) (datagram 64)) (datagram 64) ∧
  fst <$> chirouter_process_ethernet_frame no_memory_env
            (inbound (datagram 64)) (arrival (example_ctx []) (datagram 64))
  = Some (Return (-1)) ∧
  cache_full_on no_memory_env (inbound gateway_arp_reply)
    (arrival (example_ctx []) gateway_arp_reply) gateway_arp_reply ∧
  fst <$> chirouter_process_ethernet_frame no_memory_env
            (inbound gateway_arp_reply)
            (arrival (example_ctx []) gateway_arp_reply)
  = Some (Return (-1)) ∧
  Return (-1) ≠ Return 1.
Proof.
  split_and!.
  - split; [reflexivity|].
    exists (ipv4 198 51 100 5), default_route. split_and!.
    + split_and!; [left; reflexivity|reflexivity|vm_compute; discriminate|].
      repeat constructor; vm_compute; discriminate.
    + exists (ipv4 198 51 100 5), 0%nat. split_and!; reflexivity.
    + reflexivity.
    + reflexivity.
  - vm_compute. reflexivity.
  - split_and!; try reflexivity.
    exists (ipv4 10 0 0 254). split; reflexivity.
  - vm_compute. reflexivity.
  - discriminate.
Qed.

(** C3, at the input where the code departs from it. A datagram that
    arrives with TTL 0 while the ARP cache has its next hop is forwarded
    to the next hop, and the forwarded frame carries TTL 255, not the
    TTL of the input minus one. *)
Theorem forward_ttl_zero_wraps :
  ∃ msg,
    chirouter_process_ethernet_frame example_env (inbound (datagram 0))
      (arrival (example_ctx [gateway_entry]) (datagram 0))
    = Some (Return 0,
            emit (arrival (example_ctx [gateway_entry]) (datagram 0))
              eth0 msg) ∧
    get8 (datagram 0) off_ip_ttl = Some 0 ∧
    peek msg off_eth_dst 6 = Some gateway_mac ∧
    get8 msg off_ip_ttl = Some 255.
Proof.
  destruct (arp_cache_hit_forwards example_env (inbound (datagram 0))
              (arrival (example_ctx [gateway_entry]) (datagram 0))
              (datagram 0) (ipv4 198 51 100 5) default_route 0%nat
              gateway_entry 0)
    as (w' & Hrun & _ & Hforward).
  - reflexivity.
  - split_and!; [left; reflexivity|reflexivity|vm_compute; discriminate|].
    repeat constructor; vm_compute; discriminate.
  - exists (ipv4 198 51 100 5), 0%nat. split_and!; reflexivity.
  - reflexivity.
  - reflexivity.
  - split; [vm_compute; discriminate|]. vm_compute. discriminate.
  - split_and!; [vm_compute; discriminate..|]. exists 32.
    split_and!; [reflexivity|vm_compute; discriminate..].
  - reflexivity.
  - reflexivity.
  - reflexivity.
  - destruct Hforward as (msg & -> & Hmsg); [lia|].
    exists msg. destruct Hmsg as [_ Hdst _ _ (ttl & Hin & Hout) _ _].
    split_and!; [done..|]. rewrite Hout.
    assert (ttl = 0) as -> by (vm_compute in Hin; congruence).
    reflexivity.
Qed.

(** C4, at an input where the code departs from it. For a frame with
    ethertype 0x8100 nothing is sent and nothing changes, but control
    reaches the end of the function without a return statement: the
    caller gets no defined value, not 0. *)
Theorem other_ethertype_returns_nothing :
  get16 vlan_frame off_eth_type = Some 0x8100 ∧
  chirouter_process_ethernet_frame example_env (inbound vlan_frame)
    (arrival (example_ctx []) vlan_frame)
  = Some (Normal, arrival (example_ctx []) vlan_frame).
Proof. split; vm_compute; reflexivity. Qed.


Lemma arp_miss_withholds_frame_witness :
  (∃ w' request,
     chirouter_process_ethernet_frame example_env (inbound (datagram 64))
       (arrival (example_ctx []) (datagram 64))
     = Some (Return 0, w') ∧
     heap w' !! 2%positive = Some (datagram 64) ∧
     wire w' = [(eth0, request)] ∧
     arp_request eth0 (ipv4 10 0 0 254) request ∧
     pending_arp_reqs (ctx w')
     = [ {| req_ip := ipv4 10 0 0 254; times_sent := 1; last_sent := 1000;
            out_interface := eth0;
            withheld_frames :=
              [copy_at 2%positive (inbound (datagram 64))] |} ]) ∧
  (∃ w' request,
     chirouter_process_ethernet_frame example_env
       (inbound (datagram_to 10 0 1 7 64))
       (arrival (example_ctx []) (datagram_to 10 0 1 7 64))
     = Some (Return 0, w') ∧
     heap w' !! 2%positive = Some (datagram_to 10 0 1 7 64) ∧
     wire w' = [(eth1, request)] ∧
     arp_request eth1 (ipv4 10 0 1 7) request ∧
     pending_arp_reqs (ctx w')
     = [ {| req_ip := ipv4 10 0 1 7; times_sent := 1; last_sent := 1000;
            out_interface := eth1;
            withheld_frames :=
              [copy_at 2%positive (inbound (datagram_to 10 0 1 7 64))] |} ]).
Proof.
  split.
  - destruct (arp_miss_withholds_frame example_env (inbound (datagram 64))
                (arrival (example_ctx []) (datagram 64)) (datagram 64)
                (ipv4 198 51 100 5) default_route (ipv4 10 0 0 254))
      as (w' & Hrun & _ & Hheap & _ & (request & Hwire & Hreq) & Hpending).
    + reflexivity.
    + split_and!; [left; reflexivity|reflexivity|vm_compute; discriminate|].
      repeat constructor; vm_compute; discriminate.
    + exists (ipv4 198 51 100 5), 0%nat. split_and!; reflexivity.
    + reflexivity.
    + reflexivity.
    + reflexivity.
    + reflexivity.
    + reflexivity.
    + exists w', request. split_and!; [done| |done..].
      rewrite Hheap. reflexivity.
  - destruct (arp_miss_withholds_frame example_env
                (inbound (datagram_to 10 0 1 7 64))
                (arrival (example_ctx []) (datagram_to 10 0 1 7 64))
                (datagram_to 10 0 1 7 64) (ipv4 10 0 1 7)
                {| dest := ipv4 10 0 1 0; mask := ipv4 255 255 255 0;
                   gw := 0; interface := eth1 |} (ipv4 10 0 1 7))
      as (w' & Hrun & _ & Hheap & _ & (request & Hwire & Hreq) & Hpending).
    + reflexivity.
    + split_and!; [left; reflexivity|reflexivity|vm_compute; discriminate|].
      repeat constructor; vm_compute; discriminate.
    + exists (ipv4 10 0 1 7), 1%nat. split_and!; reflexivity.
    + reflexivity.
    + reflexivity.
    + reflexivity.
    + reflexivity.
    + reflexivity.
    + exists w', request. split_and!; [done| |done..].
      rewrite Hheap. reflexivity.
Defined.

Lemma inbound_buffer_untouched_witness :
  heap (after_call example_env (example_ctx []) (datagram 64)) !! 1%positive
  = Some (datagram 64) ∧
  no_alias 1%positive
    (ctx (after_call example_env (example_ctx []) (datagram 64))).
Proof.
  apply (inbound_buffer_untouched example_env (inbound (datagram 64))
           (arrival (example_ctx []) (datagram 64)) (Return 0)
           (after_call example_env (example_ctx []) (datagram 64))
           (datagram 64)).
  - vm_compute. reflexivity.
  - reflexivity.
  - intros r f Hr. by apply elem_of_nil in Hr.
Defined.

(** ** Bounds, invariants and ARP on the example network *)

Lemma other_interface_host_unreachable_witness :
  ∃ w',
    chirouter_process_ethernet_frame example_env
      (inbound (datagram_to 10 0 1 1 64))
      (arrival (example_ctx []) (datagram_to 10 0 1 1 64))
    = Some (Return 0, w') ∧
    sent_icmp ICMPTYPE_DEST_UNREACHABLE ICMPCODE_DEST_HOST_UNREACHABLE
      (inbound (datagram_to 10 0 1 1 64)) (datagram_to 10 0 1 1 64)
      (arrival (example_ctx []) (datagram_to 10 0 1 1 64)) w'.
Proof.
  apply (other_interface_host_unreachable example_env
           (inbound (datagram_to 10 0 1 1 64))
           (arrival (example_ctx []) (datagram_to 10 0 1 1 64))
           (datagram_to 10 0 1 1 64) (ipv4 10 0 1 1)).
  - reflexivity.
  - split_and!; [left; reflexivity|reflexivity|vm_compute; discriminate|].
    exists eth1. split; [|reflexivity]. constructor 2. constructor 1.
  - reflexivity.
  - vm_compute. discriminate.
Defined.

Lemma no_route_network_unreachable_witness :
  ∃ w',
    chirouter_process_ethernet_frame example_env (inbound (datagram 64))
      (arrival local_ctx (datagram 64))
    = Some (Return 0, w') ∧
    sent_icmp ICMPTYPE_DEST_UNREACHABLE ICMPCODE_DEST_NET_UNREACHABLE
      (inbound (datagram 64)) (datagram 64)
      (arrival local_ctx (datagram 64)) w'.
Proof.
  apply (no_route_network_unreachable example_env (inbound (datagram 64))
           (arrival local_ctx (datagram 64)) (datagram 64)
           (ipv4 198 51 100 5)).
  - reflexivity.
  - split_and!; [left; reflexivity|reflexivity|vm_compute; discriminate|].
    repeat constructor; vm_compute; discriminate.
  - intros entry Hin. apply list_elem_of_singleton in Hin as ->.
    vm_compute. discriminate.
  - reflexivity.
  - vm_compute. discriminate.
Defined.

Lemma icmp_error_quotes_datagram_witness :
  ∃ reply,
    chirouter_send_icmp ICMPTYPE_TIME_EXCEEDED 0 (inbound (datagram 1))
      (arrival (example_ctx []) (datagram 1))
    = Some (tt, emit (arrival (example_ctx []) (datagram 1)) eth0 reply) ∧
    blen reply = 70 ∧
    get16 reply off_ip_len = Some 56 ∧
    get8 reply off_icmp_type = Some ICMPTYPE_TIME_EXCEEDED ∧
    get8 reply off_icmp_code = Some 0 ∧
    peek reply off_icmp_identifier 4 = Some [0; 0; 0; 0] ∧
    peek reply off_icmp_payload 28 = peek (datagram 1) sizeof_ethhdr_t 28.
Proof.
  apply (icmp_error_quotes_datagram ICMPTYPE_TIME_EXCEEDED 0
           (inbound (datagram 1)) (arrival (example_ctx []) (datagram 1))
           (datagram 1)).
  - reflexivity.
  - reflexivity.
  - reflexivity.
  - vm_compute. discriminate.
Defined.

Lemma icmp_error_needs_42_bytes_witness :
  blen bare_datagram = 34 ∧
  chirouter_send_icmp ICMPTYPE_DEST_UNREACHABLE
    ICMPCODE_DEST_PROTOCOL_UNREACHABLE (inbound bare_datagram)
    (arrival (example_ctx []) bare_datagram)
  = None.
Proof.
  split; [reflexivity|]. apply eq_None_not_Some. intros Hsome.
  apply (icmp_error_needs_42_bytes ICMPTYPE_DEST_UNREACHABLE
           ICMPCODE_DEST_PROTOCOL_UNREACHABLE (inbound bare_datagram)
           (arrival (example_ctx []) bare_datagram) bare_datagram) in Hsome.
  - vm_compute in Hsome. by apply Hsome.
  - reflexivity.
  - reflexivity.
  - reflexivity.
Defined.

Lemma echo_request_length_unchecked_witness :
  blen (echo_request_claiming 100) = 46 ∧
  get16 (echo_request_claiming 100) off_ip_len = Some 100 ∧
  chirouter_process_ethernet_frame example_env
    (inbound (echo_request_claiming 100))
    (arrival (example_ctx []) (echo_request_claiming 100))
  = None.
Proof.
  split_and!; [reflexivity..|]. apply eq_None_not_Some. intros Hsome.
  apply (echo_request_length_unchecked example_env
           (inbound (echo_request_claiming 100))
           (arrival (example_ctx []) (echo_request_claiming 100))
           (echo_request_claiming 100) 64 100) in Hsome.
  - destruct Hsome as [_ Hlen]. vm_compute in Hlen. by apply Hlen.
  - reflexivity.
  - split; [left|]; reflexivity.
  - reflexivity.
  - reflexivity.
  - lia.
  - reflexivity.
  - reflexivity.
  - reflexivity.
Defined.

Lemma forward_ip_datagram_defined_witness :
  is_Some (forward_ip_datagram (inbound (datagram 64)) gateway_mac
             (arrival (example_ctx []) (datagram 64))) ∧
  forward_ip_datagram (inbound (datagram 64)) gateway_mac
    (arrival local_ctx (datagram 64))
  = None.
Proof.
  split.
  - apply (forward_ip_datagram_defined (inbound (datagram 64)) gateway_mac
             (arrival (example_ctx []) (datagram 64)) (datagram 64)).
    + reflexivity.
    + reflexivity.
    + repeat constructor.
    + split.
      * exists default_route, (ipv4 198 51 100 5), 0%nat.
        split_and!; reflexivity.
      * split_and!; [vm_compute; discriminate..|]. exists 32.
        split_and!; [reflexivity|vm_compute; discriminate..].
  - apply eq_None_not_Some. intros Hsome.
    apply (forward_ip_datagram_defined (inbound (datagram 64)) gateway_mac
             (arrival local_ctx (datagram 64)) (datagram 64)) in Hsome.
    + destruct Hsome as [(route & dst & i & Hdst & Hloop & _) _].
      vm_compute in Hdst. injection Hdst as <-. vm_compute in Hloop.
      discriminate Hloop.
    + reflexivity.
    + reflexivity.
    + repeat constructor.
Defined.

Lemma forwarded_frame_contents_witness :
  ∃ msg,
    forward_ip_datagram
      {| raw := 1%positive; frame_length := 50; in_interface := eth0 |}
      gateway_mac (arrival (example_ctx []) padded_datagram)
    = Some (tt, emit (arrival (example_ctx []) padded_datagram) eth0 msg) ∧
    blen msg = 50 ∧
    peek msg 14 8 = Some [69; 0; 0; 32; 0; 0; 0; 0] ∧
    get8 msg off_ip_proto = Some 17 ∧
    peek msg off_ip_src 20
    = Some [10; 0; 0; 2; 198; 51; 100; 5;
            0; 53; 0; 53; 0; 12; 0; 0; 97; 98; 99; 100] ∧
    peek padded_datagram 46 4 = Some [1; 2; 3; 4] ∧
    peek msg 46 4 = Some [0; 0; 0; 0].
Proof.
  destruct (forwarded_frame_contents
              {| raw := 1%positive; frame_length := 50; in_interface := eth0 |}
              gateway_mac (arrival (example_ctx []) padded_datagram)
              padded_datagram default_route 32)
    as (msg & Hrun & Hlen & Hhdr & Hproto & Hrest & Hpad).
  - reflexivity.
  - exists (ipv4 198 51 100 5), 0%nat. split_and!; reflexivity.
  - reflexivity.
  - reflexivity.
  - reflexivity.
  - vm_compute. discriminate.
  - vm_compute. discriminate.
  - vm_compute. discriminate.
  - exists msg. split_and!; [exact Hrun|exact Hlen|exact Hhdr|exact Hproto
                            |exact Hrest|reflexivity|exact Hpad].
Defined.

Lemma cache_hit_forwards_to_next_hop_witness :
  ∃ msg,
    chirouter_process_ethernet_frame example_env (inbound (datagram 64))
      (arrival (example_ctx [gateway_entry]) (datagram 64))
    = Some (Return 0,
            emit (arrival (example_ctx [gateway_entry]) (datagram 64))
              eth0 msg) ∧
    blen msg = 46 ∧
    peek msg off_eth_dst 6 = Some gateway_mac ∧
    peek msg off_eth_src 6 = Some (mac eth0) ∧
    get16 msg off_eth_type = Some ETHERTYPE_IP ∧
    get8 msg off_ip_ttl = Some 63 ∧
    checksummed msg sizeof_ethhdr_t sizeof_iphdr_t 10.
Proof.
  destruct (cache_hit_forwards_to_next_hop example_env
              (inbound (datagram 64))
              (arrival (example_ctx [gateway_entry]) (datagram 64))
              (datagram 64) (ipv4 198 51 100 5) default_route 0%nat
              gateway_entry 64)
    as (msg & Hrun & Hlen & Hdst & Hsrc & Hty & Httl & Hck).
  - reflexivity.
  - split_and!; [left; reflexivity|reflexivity|vm_compute; discriminate|].
    repeat constructor; vm_compute; discriminate.
  - exists (ipv4 198 51 100 5), 0%nat. split_and!; reflexivity.
  - reflexivity.
  - reflexivity.
  - lia.
  - split_and!; [vm_compute; discriminate..|]. exists 32.
    split_and!; [reflexivity|vm_compute; discriminate..].
  - reflexivity.
  - reflexivity.
  - exists msg. split_and!; [exact Hrun|exact Hlen|exact Hdst|exact Hsrc
                            |exact Hty| |exact Hck].
    apply Httl. lia.
Defined.

Lemma arp_request_is_answered_witness :
  ∃ reply,
    chirouter_process_ethernet_frame example_env
      (inbound (host_arp_request 10 0 0 1))
      (arrival (example_ctx []) (host_arp_request 10 0 0 1))
    = Some (Return 0,
            emit (arrival (example_ctx []) (host_arp_request 10 0 0 1))
              eth0 reply) ∧
    arp_reply eth0 host_mac (ipv4 10 0 0 2) reply.
Proof.
  apply (arp_request_is_answered example_env
           (inbound (host_arp_request 10 0 0 1))
           (arrival (example_ctx []) (host_arp_request 10 0 0 1))
           (host_arp_request 10 0 0 1) host_mac (ipv4 10 0 0 2));
    reflexivity.
Defined.

Lemma arp_not_for_router_ignored_witness :
  chirouter_process_ethernet_frame example_env
    (inbound (host_arp_request 10 0 0 9))
    (arrival (example_ctx []) (host_arp_request 10 0 0 9))
  = Some (Return 0, arrival (example_ctx []) (host_arp_request 10 0 0 9)).
Proof.
  apply (arp_not_for_router_ignored example_env
           (inbound (host_arp_request 10 0 0 9))
           (arrival (example_ctx []) (host_arp_request 10 0 0 9))
           (host_arp_request 10 0 0 9) (ipv4 10 0 0 9) ARP_OP_REQUEST).
  - reflexivity.
  - reflexivity.
  - reflexivity.
  - reflexivity.
  - left. vm_compute. discriminate.
Defined.

Lemma process_reads_headers_witness :
  ∃ buf t,
    heap (arrival (example_ctx []) (datagram 64)) !! raw (inbound (datagram 64))
    = Some buf ∧
    get16 buf off_eth_type = Some t ∧
    sizeof_ethhdr_t ≤ blen buf ∧
    (t = ETHERTYPE_IP ∨ t = ETHERTYPE_IPV6 →
     sizeof_ethhdr_t + sizeof_iphdr_t ≤ blen buf) ∧
    (t = ETHERTYPE_ARP → 42 ≤ blen buf).
Proof.
  apply (process_reads_headers example_env (inbound (datagram 64))
           (arrival (example_ctx []) (datagram 64)) (Return 0)
           (after_call example_env (example_ctx []) (datagram 64))).
  vm_compute. reflexivity.
Defined.

Lemma configuration_is_kept_witness :
  interfaces (ctx (after_call example_env (example_ctx []) (datagram 64)))
  = [eth0; eth1] ∧
  routing_table (ctx (after_call example_env (example_ctx []) (datagram 64)))
  = example_table ∧
  ∃ outs,
    wire (after_call example_env (example_ctx []) (datagram 64)) = [] ++ outs.
Proof.
  apply (configuration_is_kept example_env (inbound (datagram 64))
           (arrival (example_ctx []) (datagram 64)) (Return 0)
           (after_call example_env (example_ctx []) (datagram 64))).
  vm_compute. reflexivity.
Defined.

Lemma arp_cache_changes_only_on_reply_witness :
  get16 gateway_arp_reply off_eth_type = Some ETHERTYPE_ARP ∧
  get32 gateway_arp_reply off_arp_tpa = Some (ip eth0) ∧
  get16 gateway_arp_reply off_arp_op = Some ARP_OP_REPLY.
Proof.
  apply (arp_cache_changes_only_on_reply example_env
           (inbound gateway_arp_reply)
           (arrival (example_ctx []) gateway_arp_reply) (Return 0)
           (after_call example_env (example_ctx []) gateway_arp_reply)
           gateway_arp_reply).
  - vm_compute. reflexivity.
  - reflexivity.
  - vm_compute. discriminate.
Defined.

Lemma process_return_values_witness :
  fst <$> chirouter_process_ethernet_frame no_memory_env
            (inbound (datagram 64)) (arrival (example_ctx []) (datagram 64))
  = Some (Return (-1)) ∧
  (-1 = 0 ∨
   -1 = -1 ∧ (frame_copy_fails no_memory_env = true ∨
              cache_grow_fails no_memory_env = true)).
Proof.
  split; [vm_compute; reflexivity|].
  apply (process_return_values no_memory_env (inbound (datagram 64))
           (arrival (example_ctx []) (datagram 64)) (Return (-1))
           (after_call no_memory_env (example_ctx []) (datagram 64))).
  vm_compute. reflexivity.
Defined.

Lemma copy_failure_after_arp_request_witness :
  ∃ w',
    chirouter_process_ethernet_frame no_memory_env (inbound (datagram 64))
      (arrival (example_ctx []) (datagram 64))
    = Some (Return (-1), w') ∧
    (∃ request,
       wire w' = [(eth0, request)] ∧
       arp_request eth0 (ipv4 10 0 0 254) request) ∧
    pending_arp_reqs (ctx w')
    = [{| req_ip := ipv4 10 0 0 254; times_sent := 1; last_sent := 1000;
          out_interface := eth0; withheld_frames := [] |}] ∧
    heap w' = heap (arrival (example_ctx []) (datagram 64)).
Proof.
  apply (copy_failure_after_arp_request no_memory_env (inbound (datagram 64))
           (arrival (example_ctx []) (datagram 64)) (datagram 64)
           (ipv4 198 51 100 5) default_route).
  - reflexivity.
  - split_and!; [left; reflexivity|reflexivity|vm_compute; discriminate|].
    repeat constructor; vm_compute; discriminate.
  - exists (ipv4 198 51 100 5), 0%nat. split_and!; reflexivity.
  - reflexivity.
  - reflexivity.
  - reflexivity.
Defined.


Lemma lookup_prefers_longer_prefix_witness :
  chirouter_get_matching_entry (inbound (datagram_to 10 0 1 7 64))
    (arrival (example_ctx []) (datagram_to 10 0 1 7 64))
  = Some (Some 1%nat, arrival (example_ctx []) (datagram_to 10 0 1 7 64)) ∧
  netmask 24 = ipv4 255 255 255 0 ∧
  netmask 0 = ipv4 0 0 0 0 ∧
  0 ≤ 24.
Proof.
  split_and!; [reflexivity..|].
  apply (lookup_prefers_longer_prefix (inbound (datagram_to 10 0 1 7 64))
           (arrival (example_ctx []) (datagram_to 10 0 1 7 64))
           (ipv4 10 0 1 7) 1%nat
           {| dest := ipv4 10 0 1 0; mask := ipv4 255 255 255 0; gw := 0;
              interface := eth1 |}
           0%nat default_route 24 0).
  - reflexivity.
  - reflexivity.
  - reflexivity.
  - reflexivity.
  - reflexivity.
  - reflexivity.
  - lia.
  - reflexivity.
  - lia.
Defined.

Lemma withheld_frames_stay_sound_witness :
  all_withheld (ctx (after_call example_env (example_ctx []) (datagram 64)))
  = [copy_at 2%positive (inbound (datagram 64))] ∧
  withheld_sound (after_call example_env (example_ctx []) (datagram 64)).
Proof.
  split; [vm_compute; reflexivity|].
  apply (withheld_frames_stay_sound example_env (inbound (datagram 64))
           (arrival (example_ctx []) (datagram 64)) (Return 0)
           (after_call example_env (example_ctx []) (datagram 64))).
  - vm_compute. reflexivity.
  - intros buf Hbuf. vm_compute in Hbuf. injection Hbuf as <-. reflexivity.
  - split; [constructor|]. intros f Hf. by apply elem_of_nil in Hf.
Defined.

Lemma one_frame_per_call_witness :
  ∃ outs,
    wire (after_call example_env (example_ctx []) (datagram 64)) = [] ++ outs ∧
    (length outs ≤ 1)%nat.
Proof.
  apply (one_frame_per_call example_env (inbound (datagram 64))
           (arrival (example_ctx []) (datagram 64)) (Return 0)
           (after_call example_env (example_ctx []) (datagram 64))
           (datagram 64)).
  - vm_compute. reflexivity.
  - reflexivity.
  - intros (Hty & _). vm_compute in Hty. discriminate Hty.
Defined.
